(** * M3-You colour engine: the hex codec, luminance and contrast, the
    HCT conversion, scheme generation and wallpaper colour extraction.

    A shallow embedding of [js/m3-utils.js] (objects [M3ColorUtils] and
    [M3HCTColor]) and of [js/m3-color-extractor.js] (class
    [M3ColorExtractor]); then of the address check of [M3FormUtils], of
    [M3StorageUtils] and of [M3ResponsiveUtils] in [js/m3-utils.js], and
    of the state of the class [M3ThemeEngine] in
    [js/m3-components/switch.js].

    - A JavaScript Number is an IEEE 754 binary64 value: [float].
    - A JavaScript string is a sequence of code units; the strings the
      engine handles are colour literals, modelled as [string].
    - [null] is [None]; an object with fixed fields is a record, and a
      scheme is the list of its keys and values in the order of the
      object literal.
    - A call that may throw returns a [Completion]; a sequence of such
      calls is written with [bind], and stops at the first throw.
    - The functions of [Math] that ECMAScript leaves
      implementation-approximated ([pow], [cbrt], [atan2], [cos], [sin])
      are the fields of a record [MathLib] that the numeric code takes as
      a parameter; [refMath] is one concrete library. *)

From Stdlib Require Import ZArith Lia List Bool Ascii String Floats.
From Stdlib Require Import Sorting.Permutation.
Import ListNotations.

Set Warnings "-inexact-float".

Local Open Scope string_scope.
Local Open Scope Z_scope.

(* ================================================================= *)
(** ** The JavaScript primitives the sources use *)

Module JS.

(** How a call completes: by returning a value or by throwing.  The
    errors are the one the specification names and the [TypeError] of
    the language. *)
Inductive Error : Type :=
| InvalidColorFormat
| TypeError.

Inductive Completion (A : Type) : Type :=
| Normal (value : A)
| Throw (error : Error).
Arguments Normal {A} value.
Arguments Throw {A} error.

(** One statement after another: the second runs when the first has
    returned. *)
Definition bind {A B : Type} (c : Completion A) (k : A -> Completion B) : Completion B :=
  match c with
  | Normal value => k value
  | Throw error => Throw error
  end.

(** [Array.prototype.map] with a callback that may throw: the elements
    are visited in order, and a throw ends the loop. *)
Fixpoint mapM {A B : Type} (callback : A -> Completion B) (array : list A)
  : Completion (list B) :=
  match array with
  | [] => Normal []
  | x :: rest =>
      bind (callback x) (fun y => bind (mapM callback rest) (fun ys => Normal (y :: ys)))
  end.

(** *** Characters and strings *)

Definition code (c : ascii) : Z := Z.of_nat (nat_of_ascii c).

Definition charOf (n : Z) : ascii := ascii_of_nat (Z.to_nat n).

Definition isDecimalDigit (c : ascii) : bool :=
  (48 <=? code c) && (code c <=? 57).

Definition isLower_a_f (c : ascii) : bool :=
  (97 <=? code c) && (code c <=? 102).

Definition isUpper_A_F (c : ascii) : bool :=
  (65 <=? code c) && (code c <=? 70).

(** [String.prototype.toUpperCase] on one code unit ([a]..[z]). *)
Definition upperChar (c : ascii) : ascii :=
  if (97 <=? code c) && (code c <=? 122) then charOf (code c - 32) else c.

Fixpoint toUpperCase (s : string) : string :=
  match s with
  | EmptyString => EmptyString
  | String c rest => String (upperChar c) (toUpperCase rest)
  end.

(** [Array.prototype.join] with the empty separator. *)
Definition join (parts : list string) : string := String.concat "" parts.

(** The class [[a-f\d]] under the flag [i]: a character matches when its
    canonical (upper-case) form is the canonical form of a member. *)
Definition hexClass (c : ascii) : bool :=
  let u := upperChar c in isDecimalDigit u || isUpper_A_F u.

(** One group [([a-f\d]{2})]: the capture and the rest of the input. *)
Definition group2 (s : string) : option (string * string) :=
  match s with
  | String a (String b rest) =>
      if hexClass a && hexClass b
      then Some (String a (String b EmptyString), rest)
      else None
  | _ => None
  end.

(** [([a-f\d]{2})([a-f\d]{2})([a-f\d]{2})$]: three groups, then the end
    of the input (no flag [m], so [$] is the end of the string only). *)
Definition groups3 (s : string) : option (string * string * string) :=
  match group2 s with
  | Some (g1, s1) =>
      match group2 s1 with
      | Some (g2, s2) =>
          match group2 s2 with
          | Some (g3, EmptyString) => Some (g1, g2, g3)
          | _ => None
          end
      | None => None
      end
  | None => None
  end.

(** [/^#?([a-f\d]{2})([a-f\d]{2})([a-f\d]{2})$/i.exec(s)]: the greedy
    [#?] first takes a leading [#] and, should the rest not match, the
    matcher backtracks to the empty alternative. *)
Definition hexRegexExec (s : string) : option (string * string * string) :=
  match s with
  | String "#"%char rest =>
      match groups3 rest with
      | Some caps => Some caps
      | None => groups3 s
      end
  | _ => groups3 s
  end.

(** [s.split(",")]: the pieces between commas. *)
Fixpoint splitComma (s : string) (piece : string) : list string :=
  match s with
  | EmptyString => [piece]
  | String c rest =>
      if Ascii.eqb c ","%char then piece :: splitComma rest EmptyString
      else splitComma rest (piece ++ String c EmptyString)
  end.

Definition split (s : string) : list string := splitComma s EmptyString.

(** *** Arrays *)

(** [a.slice(0, end)] for an integer [end]: a negative [end] counts from
    the end of the array. *)
Definition slice0 {A : Type} (a : list A) (endIndex : Z) : list A :=
  let len := Z.of_nat (List.length a) in
  let final := if endIndex <? 0 then Z.max (len + endIndex) 0 else Z.min endIndex len in
  firstn (Z.to_nat final) a.

(** [Array.prototype.sort(compare)] is stable: of two elements that
    compare equal the one that came first stays first.  Insertion from
    the right is one such sort; with a comparator that is a total
    preorder every stable sort returns the same array. *)
Fixpoint insertSorted {A : Type} (compare : A -> A -> Z) (x : A) (sorted : list A) : list A :=
  match sorted with
  | [] => [x]
  | y :: rest =>
      if compare x y <=? 0 then x :: y :: rest
      else y :: insertSorted compare x rest
  end.

Definition sort {A : Type} (compare : A -> A -> Z) (a : list A) : list A :=
  fold_right (insertSorted compare) [] a.

(** *** Numbers *)

(** The Number nearest to an integer (exact below [2^53]). *)
Definition ofZ (z : Z) : float :=
  SF2Prim (binary_normalize prec emax z 0 false).

Definition NaN : float := PrimFloat.nan.

(** The value of a hexadecimal digit. *)
Definition hexDigitValue (c : ascii) : option Z :=
  if isDecimalDigit c then Some (code c - 48)
  else if isLower_a_f c then Some (code c - 87)
  else if isUpper_A_F c then Some (code c - 55)
  else None.

(** The longest prefix of hexadecimal digits, read most significant
    first; [None] when the string starts with no digit. *)
Fixpoint hexPrefix (s : string) (acc : option Z) : option Z :=
  match s with
  | EmptyString => acc
  | String c rest =>
      match hexDigitValue c with
      | Some d =>
          hexPrefix rest (Some (16 * match acc with Some a => a | None => 0 end + d))
      | None => acc
      end
  end.

(** [parseInt(s, 16)] as an integer, [None] for NaN: an optional sign,
    an optional [0x], then the longest prefix of digits. *)
Definition parseInt16Z (s : string) : option Z :=
  let '(neg, s1) :=
    match s with
    | String "-"%char r => (true, r)
    | String "+"%char r => (false, r)
    | _ => (false, s)
    end in
  let s2 :=
    match s1 with
    | String "0"%char (String "x"%char r) => r
    | String "0"%char (String "X"%char r) => r
    | _ => s1
    end in
  match hexPrefix s2 None with
  | Some n => Some (if neg then - n else n)
  | None => None
  end.

Definition parseInt16 (s : string) : float :=
  match parseInt16Z s with
  | Some n => ofZ n
  | None => NaN
  end.

(** All characters decimal digits, read most significant first. *)
Fixpoint decimalValue (s : string) (acc : Z) : option Z :=
  match s with
  | EmptyString => Some acc
  | String c rest =>
      if isDecimalDigit c then decimalValue rest (10 * acc + (code c - 48))
      else None
  end.

(** [Number(s)] on the strings the engine passes, which are decimal
    integer literals: the empty string is [0], an optional [-] may
    lead, and the model reads every other string as NaN. *)
Definition Number_ofString (s : string) : float :=
  match s with
  | EmptyString => 0%float
  | String "-"%char (String c rest) =>
      match decimalValue (String c rest) 0 with
      | Some n => (- ofZ n)%float
      | None => NaN
      end
  | _ =>
      match decimalValue s 0 with
      | Some n => ofZ n
      | None => NaN
      end
  end.

(** The digit characters of [Number.prototype.toString]. *)
Definition digitChar (d : Z) : ascii :=
  if d <? 10 then charOf (48 + d) else charOf (87 + d).

Fixpoint digitsFuel (radix : Z) (fuel : nat) (n : Z) (acc : string) : string :=
  match fuel with
  | O => acc
  | S fuel' =>
      let acc' := String (digitChar (n mod radix)) acc in
      if n <? radix then acc' else digitsFuel radix fuel' (n / radix) acc'
  end.

(** A non-negative integer in a radix of 2 to 36, lower case, no leading
    zero; each step divides by the radix, so the binary length is fuel
    enough. *)
Definition digits (radix n : Z) : string :=
  digitsFuel radix (S (Z.to_nat (Z.log2 n))) n EmptyString.

Definition hexDigits (n : Z) : string := digits 16 n.

(** The decimal string of an integer, as a template literal prints a
    Number that holds it (below [10^21]). *)
Definition decimal (n : Z) : string :=
  if n <? 0 then "-" ++ digits 10 (- n) else digits 10 n.

(** The base-16 expansion of [num / 2^k], a proper fraction. *)
Fixpoint hexFraction (fuel : nat) (num k : Z) : string :=
  match fuel with
  | O => EmptyString
  | S fuel' =>
      if num =? 0 then EmptyString
      else String (digitChar (Z.shiftr (16 * num) k))
                  (hexFraction fuel' ((16 * num) mod 2 ^ k) k)
  end.

(** [x.toString(16)].  A double [m * 2^e] has a finite expansion in base
    16; for a value with a fractional part engines print the shortest
    digit string that reads back as [x], which may stop before the exact
    expansion given here.  Every call site of the engine passes an
    integer or NaN. *)
Definition toString16 (x : float) : string :=
  match Prim2SF x with
  | S754_nan => "NaN"
  | S754_infinity false => "Infinity"
  | S754_infinity true => "-Infinity"
  | S754_zero _ => "0"
  | S754_finite s m e =>
      let sign := if s then "-" else "" in
      if 0 <=? e then sign ++ hexDigits (Z.pos m * 2 ^ e)
      else
        let k := - e in
        let ip := Z.shiftr (Z.pos m) k in
        let fr := Z.pos m mod 2 ^ k in
        sign ++ hexDigits ip
             ++ (if fr =? 0 then "" else "." ++ hexFraction (Z.to_nat k) fr k)
  end.

(** Exact integer views of a Number: [floorZ x] is the greatest integer
    not above [x], [roundHalfUpZ x] the integer nearest to [x] with ties
    upwards; [None] for NaN and the infinities. *)
Definition floorZ (x : float) : option Z :=
  match Prim2SF x with
  | S754_nan | S754_infinity _ => None
  | S754_zero _ => Some 0
  | S754_finite s m e =>
      let n := if s then Z.neg m else Z.pos m in
      Some (if 0 <=? e then n * 2 ^ e else n / 2 ^ (- e))
  end.

Definition roundHalfUpZ (x : float) : option Z :=
  match Prim2SF x with
  | S754_nan | S754_infinity _ => None
  | S754_zero _ => Some 0
  | S754_finite s m e =>
      let n := if s then Z.neg m else Z.pos m in
      Some (if 0 <=? e then n * 2 ^ e
            else (2 * n + 2 ^ (- e)) / 2 ^ (- e + 1))
  end.

(** An integer result carried back to a Number; a zero result keeps the
    sign of the argument. *)
Definition integral (x : float) (z : option Z) : float :=
  match z with
  | None => x
  | Some 0 => if get_sign x then neg_zero else zero
  | Some n => ofZ n
  end.

Definition Math_floor (x : float) : float := integral x (floorZ x).

Definition Math_round (x : float) : float := integral x (roundHalfUpZ x).

Definition Math_abs (x : float) : float := abs x.

Definition Math_sqrt (x : float) : float := sqrt x.

Definition Math_PI : float := 3.141592653589793%float.

(** [Math.max] and [Math.min] of two Numbers: NaN when either is NaN,
    and [+0] is larger than [-0]. *)
Definition Math_max (x y : float) : float :=
  if is_nan x || is_nan y then NaN
  else if (x <? y)%float then y
  else if (y <? x)%float then x
  else if get_sign x then y else x.

Definition Math_min (x y : float) : float :=
  if is_nan x || is_nan y then NaN
  else if (x <? y)%float then x
  else if (y <? x)%float then y
  else if get_sign x then x else y.

(** The operator [%] on Numbers: the remainder of the truncating
    division, with the sign of the dividend; it is exact. *)
Definition remainder (x y : float) : float :=
  match Prim2SF x, Prim2SF y with
  | S754_nan, _ | _, S754_nan => NaN
  | S754_infinity _, _ => NaN
  | _, S754_zero _ => NaN
  | S754_zero _, _ => x
  | _, S754_infinity _ => x
  | S754_finite sx mx ex, S754_finite _ my ey =>
      let e := Z.min ex ey in
      let X := Z.pos mx * 2 ^ (ex - e) in
      let Y := Z.pos my * 2 ^ (ey - e) in
      let R := X mod Y in
      if R =? 0 then (if sx then neg_zero else zero)
      else SF2Prim (binary_normalize prec emax (if sx then - R else R) e false)
  end.

(** The functions of [Math] whose results ECMAScript leaves to the
    implementation. *)
Record MathLib : Type := {
  pow : float -> float -> float;
  cbrt : float -> float;
  atan2 : float -> float -> float;
  cos : float -> float;
  sin : float -> float
}.

End JS.

Notation "x <- c ;; k" := (JS.bind c (fun x => k))
  (at level 61, c at next level, right associativity).

(* ================================================================= *)
(** ** A reference [Math] library

    Argument reduction and power series in binary64; every series is
    cut where its terms fall below the rounding error of the sum. *)

Module RefMath.

Local Open Scope float_scope.

Definition ln2 : float := 0.6931471805599453.

Definition halfPi : float := 1.5707963267948966.

(** A power series summed term by term: the running term is multiplied by
    [r / i] at each step. *)
Fixpoint series (n : nat) (i term acc r : float) : float :=
  match n with
  | O => acc
  | S n' => let term' := term * r / i in series n' (i + 1) term' (acc + term') r
  end.

(** The nearest integer to a finite Number, [0] otherwise. *)
Definition nearest (x : float) : Z :=
  match JS.roundHalfUpZ x with Some k => k | None => 0%Z end.

Definition exp (x : float) : float :=
  if is_nan x then x
  else if 710 <? x then infinity
  else if x <? -746 then 0
  else
    let k := nearest (x / ln2) in
    let r := x - JS.ofZ k * ln2 in
    Z.ldexp (series 26 1 1 1 r) k.

(** The sum of [sign^i * s2^i / (d + 2 i)] for [i < n], by Horner's rule
    in [s2]; with [d = 1] and [s2 = s * s] it is the series of
    [atanh s / s] ([sign = 1]) and of [atan s / s] ([sign = -1]). *)
Fixpoint oddSeries (n : nat) (d : float) (s2 : float) (sign : float) : float :=
  match n with
  | O => 0
  | S n' => 1 / d + sign * s2 * oddSeries n' (d + 2) s2 sign
  end.

Definition sqrtHalf : float := 0.7071067811865476.

(** The natural logarithm of a positive finite Number. *)
Definition ln (x : float) : float :=
  let (m, e) := Z.frexp x in
  let '(m, e) := if m <? sqrtHalf then (m * 2, (e - 1)%Z) else (m, e) in
  let s := (m - 1) / (m + 1) in
  JS.ofZ e * ln2 + 2 * s * oddSeries 24 1 (s * s) 1.

Definition isInteger (y : float) : bool :=
  match JS.floorZ y with
  | Some k => JS.ofZ k =? y
  | None => false
  end.

Definition isOddInteger (y : float) : bool :=
  match JS.floorZ y with
  | Some k => (JS.ofZ k =? y) && Z.odd k
  | None => false
  end.

Definition pow (x y : float) : float :=
  if y =? 0 then 1
  else if is_nan x || is_nan y then JS.NaN
  else if 0 <? x then exp (y * ln x)
  else if x =? 0 then (if 0 <? y then 0 else infinity)
  else if isInteger y then
    let p := exp (y * ln (- x)) in if isOddInteger y then - p else p
  else JS.NaN.

Definition cbrt (x : float) : float :=
  if is_nan x || is_infinity x || (x =? 0) then x
  else
    let a := abs x in
    let t := exp (ln a / 3) in
    let t := t - (t * t * t - a) / (3 * t * t) in
    if x <? 0 then - t else t.

(** The arc tangent of a finite Number: two angle halvings, then the
    alternating series. *)
Definition atanSmall (t : float) : float :=
  let t1 := t / (1 + sqrt (1 + t * t)) in
  let t2 := t1 / (1 + sqrt (1 + t1 * t1)) in
  4 * t2 * oddSeries 30 1 (t2 * t2) (-1).

Definition atan (t : float) : float :=
  if is_nan t then t
  else if 1 <? t then halfPi - atanSmall (1 / t)
  else if t <? -1 then - halfPi - atanSmall (1 / t)
  else atanSmall t.

Definition atan2 (y x : float) : float :=
  if is_nan x || is_nan y then JS.NaN
  else if 0 <? x then atan (y / x)
  else if x <? 0 then
    (if get_sign y then atan (y / x) - JS.Math_PI else atan (y / x) + JS.Math_PI)
  else if 0 <? y then halfPi
  else if y <? 0 then - halfPi
  else if get_sign x then (if get_sign y then - JS.Math_PI else JS.Math_PI)
  else y.

(** The alternating series of the sine and of the cosine: the running
    term is multiplied by [- r2 / (i * (i + 1))]. *)
Fixpoint altSeries (n : nat) (i term acc r2 : float) : float :=
  match n with
  | O => acc
  | S n' =>
      let term' := - term * r2 / (i * (i + 1)) in
      altSeries n' (i + 2) term' (acc + term') r2
  end.

Definition sinSmall (r : float) : float := altSeries 12 2 r r (r * r).

Definition cosSmall (r : float) : float := altSeries 12 1 1 1 (r * r).

Definition quadrant (x : float) : Z * float :=
  let k := nearest (x / halfPi) in
  ((k mod 4)%Z, x - JS.ofZ k * halfPi).

Definition sin (x : float) : float :=
  if is_nan x || is_infinity x then JS.NaN
  else
    let (q, r) := quadrant x in
    if (q =? 0)%Z then sinSmall r
    else if (q =? 1)%Z then cosSmall r
    else if (q =? 2)%Z then - sinSmall r
    else - cosSmall r.

Definition cos (x : float) : float :=
  if is_nan x || is_infinity x then JS.NaN
  else
    let (q, r) := quadrant x in
    if (q =? 0)%Z then cosSmall r
    else if (q =? 1)%Z then - sinSmall r
    else if (q =? 2)%Z then - cosSmall r
    else sinSmall r.

Definition refMath : JS.MathLib :=
  {| JS.pow := pow; JS.cbrt := cbrt; JS.atan2 := atan2; JS.cos := cos; JS.sin := sin |}.

End RefMath.

(* ================================================================= *)
(** ** [M3ColorUtils] (js/m3-utils.js) *)

(** An [{r, g, b}] object. *)
Record RGB : Type := mkRGB { r : float; g : float; b : float }.

Module M3ColorUtils.

(** [hexToRgb(hex)]: [null] when the pattern does not match. *)
Definition hexToRgb (hex : string) : option RGB :=
  match JS.hexRegexExec hex with
  | Some (g1, g2, g3) =>
      Some {| r := JS.parseInt16 g1; g := JS.parseInt16 g2; b := JS.parseInt16 g3 |}
  | None => None
  end.

(** The callback of [map] in [rgbToHex]. *)
Definition channelHex (x : float) : string :=
  let hex := JS.toString16 x in
  if (String.length hex =? 1)%nat then "0" ++ hex else hex.

(** [rgbToHex(r, g, b)]. *)
Definition rgbToHex (r g b : float) : string :=
  "#" ++ JS.toUpperCase (JS.join (map channelHex [r; g; b])).

Section Luminance.

Variable M : JS.MathLib.

Local Open Scope float_scope.

(** [calculateLuminance(r, g, b)]. *)
Definition calculateLuminance (r g b : float) : float :=
  let rsrgb := r / 255 in
  let gsrgb := g / 255 in
  let bsrgb := b / 255 in
  let rLinear := if rsrgb <=? 0.03928 then rsrgb / 12.92
                 else JS.pow M ((rsrgb + 0.055) / 1.055) 2.4 in
  let gLinear := if gsrgb <=? 0.03928 then gsrgb / 12.92
                 else JS.pow M ((gsrgb + 0.055) / 1.055) 2.4 in
  let bLinear := if bsrgb <=? 0.03928 then bsrgb / 12.92
                 else JS.pow M ((bsrgb + 0.055) / 1.055) 2.4 in
  0.2126 * rLinear + 0.7152 * gLinear + 0.0722 * bLinear.

(** [contrastRatio(color1, color2)]. *)
Definition contrastRatio (color1 color2 : string) : float :=
  match hexToRgb color1, hexToRgb color2 with
  | Some rgb1, Some rgb2 =>
      let luminance1 := calculateLuminance (r rgb1) (g rgb1) (b rgb1) in
      let luminance2 := calculateLuminance (r rgb2) (g rgb2) (b rgb2) in
      let lighter := JS.Math_max luminance1 luminance2 in
      let darker := JS.Math_min luminance1 luminance2 in
      (lighter + 0.05) / (darker + 0.05)
  | _, _ => 1
  end.

(** [getAccessibleTextColor(backgroundColor)]. *)
Definition getAccessibleTextColor (backgroundColor : string) : string :=
  match hexToRgb backgroundColor with
  | None => "#000000"
  | Some rgb =>
      let luminance := calculateLuminance (r rgb) (g rgb) (b rgb) in
      if 0.5 <? luminance then "#000000" else "#FFFFFF"
  end.

End Luminance.

End M3ColorUtils.

(* ================================================================= *)
(** ** [M3HCTColor] (js/m3-utils.js) *)

(** An instance of the class: the fields the constructor sets. *)
Record HCT : Type := mkHCT { hue : float; chroma : float; tone : float }.

Module M3HCTColor.

(** [static rgbToHex(r, g, b)]. *)
Definition channelHex (x : float) : string :=
  let hex := JS.toString16 x in
  if (String.length hex =? 1)%nat then "0" ++ hex else hex.

Definition rgbToHex (r g b : float) : string :=
  "#" ++ JS.toUpperCase (JS.join (map channelHex [r; g; b])).

(** [static hexToRgb(hex)]: black when the pattern does not match. *)
Definition hexToRgb (hex : string) : RGB :=
  match JS.hexRegexExec hex with
  | Some (g1, g2, g3) =>
      {| r := JS.parseInt16 g1; g := JS.parseInt16 g2; b := JS.parseInt16 g3 |}
  | None => {| r := 0; g := 0; b := 0 |}
  end.

(** [static adjustHue(color, delta)]. *)
Definition adjustHue (color : HCT) (delta : float) : HCT :=
  mkHCT (JS.remainder (hue color + delta) 360) (chroma color) (tone color).

(** [static adjustChroma(color, delta)]. *)
Definition adjustChroma (color : HCT) (delta : float) : HCT :=
  mkHCT (hue color) (JS.Math_max 0 (chroma color + delta)) (tone color).

(** [static adjustTone(color, delta)]. *)
Definition adjustTone (color : HCT) (delta : float) : HCT :=
  mkHCT (hue color) (chroma color)
        (JS.Math_max 0 (JS.Math_min 100 (tone color + delta))).

Section Conversions.

Variable M : JS.MathLib.

Local Open Scope float_scope.

(** [static rgbToHct(r, g, b)]: the array [[hue, chroma, tone]]. *)
Definition rgbToHct (r g b : float) : float * float * float :=
  let rNorm := r / 255 in
  let gNorm := g / 255 in
  let bNorm := b / 255 in
  let x := 0.4124564 * rNorm + 0.3575761 * gNorm + 0.1804375 * bNorm in
  let y := 0.2126729 * rNorm + 0.7151522 * gNorm + 0.0721750 * bNorm in
  let z := 0.0193339 * rNorm + 0.1191920 * gNorm + 0.9503041 * bNorm in
  let xRef := 0.95047 in
  let yRef := 1.00000 in
  let zRef := 1.08883 in
  let xRatio := x / xRef in
  let yRatio := y / yRef in
  let zRatio := z / zRef in
  let epsilon := 0.008856 in
  let kappa := 903.3 in
  let fx := if epsilon <? xRatio then JS.cbrt M xRatio else (kappa * xRatio + 16) / 116 in
  let fy := if epsilon <? yRatio then JS.cbrt M yRatio else (kappa * yRatio + 16) / 116 in
  let fz := if epsilon <? zRatio then JS.cbrt M zRatio else (kappa * zRatio + 16) / 116 in
  let L := 116 * fy - 16 in
  let a := 500 * (fx - fy) in
  let bLab := 200 * (fy - fz) in
  let C := JS.Math_sqrt (a * a + bLab * bLab) in
  let hRad := JS.atan2 M bLab a in
  let H := (hRad * 180) / JS.Math_PI in
  let H := if H <? 0 then H + 360 else H in
  let hue := H in
  let chroma := C * 0.8 in
  let tone := L in
  (hue, chroma, tone).

(** [static fromRgb(r, g, b)]. *)
Definition fromRgb (r g b : float) : HCT :=
  let '(h, c, t) := rgbToHct r g b in mkHCT h c t.

(** [static fromHex(hex)]. *)
Definition fromHex (hex : string) : HCT :=
  let rgb := hexToRgb hex in
  let '(h, c, t) := rgbToHct (r rgb) (g rgb) (b rgb) in
  mkHCT h c t.

(** [toRgb()]. *)
Definition toRgb (this : HCT) : RGB :=
  let hRad := (hue this * JS.Math_PI) / 180 in
  let a := chroma this * JS.cos M hRad / 0.8 in
  let b := chroma this * JS.sin M hRad / 0.8 in
  let L := tone this in
  let fy := (L + 16) / 116 in
  let fx := fy + a / 500 in
  let fz := fy - b / 200 in
  let xRef := 0.95047 in
  let yRef := 1.00000 in
  let zRef := 1.08883 in
  let x := (if 0.008856 <? JS.pow M fx 3 then JS.pow M fx 3 else (116 * fx - 16) / 903.3) * xRef in
  let y := (if 0.008856 <? JS.pow M fy 3 then JS.pow M fy 3 else (116 * fy - 16) / 903.3) * yRef in
  let z := (if 0.008856 <? JS.pow M fz 3 then JS.pow M fz 3 else (116 * fz - 16) / 903.3) * zRef in
  let r := 3.2404542 * x - 1.5371385 * y - 0.4985314 * z in
  let g := -0.9692660 * x + 1.8760108 * y + 0.0415560 * z in
  let bResult := 0.0556434 * x - 0.2040259 * y + 1.0572252 * z in
  let r := if 0.0031308 <? r then 1.055 * JS.pow M r (1 / 2.4) - 0.055 else 12.92 * r in
  let g := if 0.0031308 <? g then 1.055 * JS.pow M g (1 / 2.4) - 0.055 else 12.92 * g in
  let bResult := if 0.0031308 <? bResult then 1.055 * JS.pow M bResult (1 / 2.4) - 0.055
                 else 12.92 * bResult in
  let r := JS.Math_max 0 (JS.Math_min 1 r) in
  let g := JS.Math_max 0 (JS.Math_min 1 g) in
  let bResult := JS.Math_max 0 (JS.Math_min 1 bResult) in
  {| r := JS.Math_round (r * 255);
     g := JS.Math_round (g * 255);
     b := JS.Math_round (bResult * 255) |}.

(** The methods that [this.name(...)] finds on an instance: those the
    class declares without [static] (and what every object inherits
    from [Object.prototype], where no method of the class is).  The
    static methods, [rgbToHex] among them, are properties of the class
    and not of its instances, and nothing in the sources adds them to
    the prototype. *)
Definition instanceMethods : list string := [ "toRgb"; "toHex"; "getHuePalette" ].

(** [this.name(...)] in an instance method, [result] being what the
    method of that name returns: calling a property the instance does
    not have throws a [TypeError]. *)
Definition callOnInstance {A : Type} (name : string) (result : A) : JS.Completion A :=
  if existsb (String.eqb name) instanceMethods then JS.Normal result
  else JS.Throw JS.TypeError.

(** [toHex()]: [this.toRgb()], then [this.rgbToHex(rgb.r, rgb.g, rgb.b)]. *)
Definition toHex (this : HCT) : JS.Completion string :=
  rgb <- callOnInstance "toRgb" (toRgb this) ;;
  callOnInstance "rgbToHex" (rgbToHex (r rgb) (g rgb) (b rgb)).

(** [static generateTonalPalette(color)]. *)
Definition generateTonalPalette (color : HCT) : JS.Completion (list string) :=
  let tones := [0; 10; 20; 30; 40; 50; 60; 70; 80; 90; 95; 99; 100] in
  JS.mapM (fun tone => let newColor := mkHCT (hue color) (chroma color) tone in
                       toHex newColor) tones.

(** [static relativeLuminance(r, g, b)]. *)
Definition relativeLuminance (r g b : float) : float :=
  let rsrgb := r / 255 in
  let gsrgb := g / 255 in
  let bsrgb := b / 255 in
  let rLinear := if rsrgb <=? 0.03928 then rsrgb / 12.92
                 else JS.pow M ((rsrgb + 0.055) / 1.055) 2.4 in
  let gLinear := if gsrgb <=? 0.03928 then gsrgb / 12.92
                 else JS.pow M ((gsrgb + 0.055) / 1.055) 2.4 in
  let bLinear := if bsrgb <=? 0.03928 then bsrgb / 12.92
                 else JS.pow M ((bsrgb + 0.055) / 1.055) 2.4 in
  0.2126 * rLinear + 0.7152 * gLinear + 0.0722 * bLinear.

(** [static contrastRatio(color1, color2)]. *)
Definition contrastRatio (color1 color2 : string) : float :=
  let rgb1 := hexToRgb color1 in
  let rgb2 := hexToRgb color2 in
  let luminance1 := relativeLuminance (r rgb1) (g rgb1) (b rgb1) in
  let luminance2 := relativeLuminance (r rgb2) (g rgb2) (b rgb2) in
  let lighter := JS.Math_max luminance1 luminance2 in
  let darker := JS.Math_min luminance1 luminance2 in
  (lighter + 0.05) / (darker + 0.05).

(** [static getAccessibleTextColor(backgroundColor)]. *)
Definition getAccessibleTextColor (backgroundColor : string) : string :=
  let rgb := hexToRgb backgroundColor in
  let luminance := relativeLuminance (r rgb) (g rgb) (b rgb) in
  let blackContrast := contrastRatio backgroundColor "#000000" in
  let whiteContrast := contrastRatio backgroundColor "#FFFFFF" in
  if 4.5 <=? blackContrast then "#000000"
  else if 4.5 <=? whiteContrast then "#FFFFFF"
  else if 0.5 <? luminance then "#000000" else "#FFFFFF".

End Conversions.

End M3HCTColor.

(* ================================================================= *)
(** ** [M3ColorExtractor] (js/m3-color-extractor.js) *)

(** One pixel of an [ImageData] buffer: four consecutive bytes of the
    [Uint8ClampedArray], whose length is always a multiple of four, so
    the loop [for (i = 0; i < pixels.length; i += 4)] visits whole
    pixels. *)
Record RGBA : Type := mkRGBA { red : Z; green : Z; blue : Z; alpha : Z }.

(** [{ color, score }]; the score is a sum of a few small integers. *)
Record Scored : Type := mkScored { color : string; score : Z }.

Module M3ColorExtractor.

(** The [Map] of the histogram: keys in insertion order. *)
Definition ColorMap : Type := list (string * Z).

Fixpoint mapGet (m : ColorMap) (key : string) : option Z :=
  match m with
  | [] => None
  | (k, v) :: rest => if String.eqb k key then Some v else mapGet rest key
  end.

Fixpoint mapSet (m : ColorMap) (key : string) (value : Z) : ColorMap :=
  match m with
  | [] => [(key, value)]
  | (k, v) :: rest =>
      if String.eqb k key then (k, value) :: rest
      else (k, v) :: mapSet rest key value
  end.

(** The template literal [`${quantizedR},${quantizedG},${quantizedB}`]. *)
Definition colorKeyOf (quantizedR quantizedG quantizedB : Z) : string :=
  JS.decimal quantizedR ++ "," ++ JS.decimal quantizedG ++ "," ++ JS.decimal quantizedB.

(** The body of the first loop.  On a byte [Math.floor(c / 16) * 16] is
    exact, the integer [c / 16 * 16]. *)
Definition countPixel (colorMap : ColorMap) (p : RGBA) : ColorMap :=
  if alpha p <? 128 then colorMap
  else
    let quantizedR := red p / 16 * 16 in
    let quantizedG := green p / 16 * 16 in
    let quantizedB := blue p / 16 * 16 in
    let colorKey := colorKeyOf quantizedR quantizedG quantizedB in
    mapSet colorMap colorKey
           (match mapGet colorMap colorKey with Some n => n | None => 0 end + 1).

Definition histogram (pixels : list RGBA) : ColorMap :=
  fold_left countPixel pixels [].

(** [colorKey.split(',').map(Number)] and the call of [rgbToHex] on the
    three parts; every key of the histogram has three. *)
Definition hexOfKey (colorKey : string) : string :=
  match map JS.Number_ofString (JS.split colorKey) with
  | r :: g :: b :: _ => M3HCTColor.rgbToHex r g b
  | _ => M3HCTColor.rgbToHex JS.NaN JS.NaN JS.NaN
  end.

Section Extraction.

Variable M : JS.MathLib.

(** The second loop: [distinctColors] grows at its end, and the loop is
    left as soon as it holds [colorCount] colours. *)
Fixpoint filterDistinct (colorCount : Z) (sortedColors : list (string * Z))
         (distinctColors : list string) : list string :=
  match sortedColors with
  | [] => distinctColors
  | (colorKey, _) :: rest =>
      let hexColor := hexOfKey colorKey in
      let isDistinct :=
        forallb (fun existingColor =>
                   let contrast := M3HCTColor.contrastRatio M hexColor existingColor in
                   (1.5 <? contrast)%float) distinctColors in
      if isDistinct then
        let distinctColors := (distinctColors ++ [hexColor])%list in
        if colorCount <=? Z.of_nat (List.length distinctColors) then distinctColors
        else filterDistinct colorCount rest distinctColors
      else filterDistinct colorCount rest distinctColors
  end.

(** [static extractColorsFromPixels(pixels, colorCount)]. *)
Definition extractColorsFromPixels (pixels : list RGBA) (colorCount : Z) : list string :=
  let colorMap := histogram pixels in
  let sortedColors :=
    JS.slice0 (JS.sort (fun a b => snd b - snd a) colorMap) (colorCount * 2) in
  filterDistinct colorCount sortedColors [].

Local Open Scope float_scope.

(** The constant [saturation] of the callback below, with the two
    constants it is computed from. *)
Definition saturationOf (rgb : RGB) : float :=
  let maxComponent := JS.Math_max (JS.Math_max (r rgb) (g rgb)) (b rgb) in
  let minComponent := JS.Math_min (JS.Math_min (r rgb) (g rgb)) (b rgb) in
  (maxComponent - minComponent) / maxComponent.

(** The callback of [colors.map] in [extractPrimaryColor]. *)
Definition scoreColor (color : string) : Scored :=
  let hct := M3HCTColor.fromHex M color in
  let rgb := M3HCTColor.hexToRgb color in
  let score := 0%Z in
  let score := if (20 <? chroma hct) && (chroma hct <? 60) then (score + 30)%Z else score in
  let score := if (30 <? tone hct) && (tone hct <? 70) then (score + 30)%Z else score in
  let saturation := saturationOf rgb in
  let score := if (0.3 <? saturation) && (saturation <? 0.8) then (score + 20)%Z else score in
  let score := if (JS.Math_abs (r rgb - g rgb) <? 30) && (JS.Math_abs (g rgb - b rgb) <? 30)
               then (score - 50)%Z else score in
  let score := if (tone hct <? 10) || (90 <? tone hct) then (score - 30)%Z else score in
  {| color := color; score := score |}.

(** [static extractPrimaryColor(colors)]; reading [.color] of a missing
    first element would throw a TypeError. *)
Definition extractPrimaryColor (colors : list string) : JS.Completion string :=
  if (List.length colors =? 0)%nat then JS.Normal "#6750A4"
  else
    let scoredColors := map scoreColor colors in
    let scoredColors := JS.sort (fun a b => (score b - score a)%Z) scoredColors in
    match scoredColors with
    | first :: _ => JS.Normal (color first)
    | [] => JS.Throw JS.TypeError
    end.

(** [static generateSchemeFromColor(primaryColor, isDark)]: the
    statements in order, then the object literal, whose property values
    are evaluated in the order they are written; every [toHex()] may
    throw.  The keys of the object are in that order too. *)
Definition generateSchemeFromColor (primaryColor : string) (isDark : bool)
  : JS.Completion (list (string * string)) :=
  let hctColor := M3HCTColor.fromHex M primaryColor in
  let baseTone := if isDark then 20 else 80 in
  let containerTone := if isDark then 30 else 90 in
  let onColorTone := if isDark then 90 else 10 in
  let toHex := M3HCTColor.toHex M in
  let adjustTone := M3HCTColor.adjustTone in
  let getAccessibleTextColor := M3HCTColor.getAccessibleTextColor M in
  primary <- toHex hctColor ;;
  primaryContainer <- toHex (adjustTone hctColor (containerTone - tone hctColor)) ;;
  let secondary := M3HCTColor.adjustHue hctColor 60 in
  let secondaryAdjusted := adjustTone secondary (baseTone - tone secondary) in
  let tertiary := M3HCTColor.adjustHue hctColor 120 in
  let tertiaryAdjusted := adjustTone tertiary (baseTone - tone tertiary) in
  let surfaceHct :=
    mkHCT (hue hctColor) (JS.Math_max 0 (chroma hctColor - 40)) (if isDark then 10 else 99) in
  secondaryHex <- toHex secondaryAdjusted ;;
  secondaryText <- toHex secondaryAdjusted ;;
  secondaryContainer <- toHex (adjustTone secondaryAdjusted 10) ;;
  secondaryContainerText <- toHex (adjustTone secondaryAdjusted 10) ;;
  tertiaryHex <- toHex tertiaryAdjusted ;;
  tertiaryText <- toHex tertiaryAdjusted ;;
  tertiaryContainer <- toHex (adjustTone tertiaryAdjusted 10) ;;
  tertiaryContainerText <- toHex (adjustTone tertiaryAdjusted 10) ;;
  surface <- toHex surfaceHct ;;
  surfaceDim <- toHex (adjustTone surfaceHct (if isDark then -4 else -12)) ;;
  surfaceBright <- toHex (adjustTone surfaceHct (if isDark then 14 else 4)) ;;
  surfaceContainerLowest <- toHex (adjustTone surfaceHct (if isDark then 0 else 5)) ;;
  surfaceContainerLow <- toHex (adjustTone surfaceHct (if isDark then 4 else 8)) ;;
  surfaceContainer <- toHex (adjustTone surfaceHct (if isDark then 6 else 12)) ;;
  surfaceContainerHigh <- toHex (adjustTone surfaceHct (if isDark then 8 else 16)) ;;
  surfaceContainerHighest <- toHex (adjustTone surfaceHct (if isDark then 12 else 22)) ;;
  surfaceText <- toHex surfaceHct ;;
  onSurfaceVariant <- toHex (adjustTone surfaceHct (if isDark then 70 else 30)) ;;
  outline <- toHex (adjustTone hctColor (if isDark then 60 else 50)) ;;
  outlineVariant <- toHex (adjustTone hctColor (if isDark then 30 else 80)) ;;
  JS.Normal
    [ ("primary", primary);
      ("onPrimary", getAccessibleTextColor primary);
      ("primaryContainer", primaryContainer);
      ("onPrimaryContainer", getAccessibleTextColor primaryContainer);
      ("secondary", secondaryHex);
      ("onSecondary", getAccessibleTextColor secondaryText);
      ("secondaryContainer", secondaryContainer);
      ("onSecondaryContainer", getAccessibleTextColor secondaryContainerText);
      ("tertiary", tertiaryHex);
      ("onTertiary", getAccessibleTextColor tertiaryText);
      ("tertiaryContainer", tertiaryContainer);
      ("onTertiaryContainer", getAccessibleTextColor tertiaryContainerText);
      ("surface", surface);
      ("surfaceDim", surfaceDim);
      ("surfaceBright", surfaceBright);
      ("surfaceContainerLowest", surfaceContainerLowest);
      ("surfaceContainerLow", surfaceContainerLow);
      ("surfaceContainer", surfaceContainer);
      ("surfaceContainerHigh", surfaceContainerHigh);
      ("surfaceContainerHighest", surfaceContainerHighest);
      ("onSurface", getAccessibleTextColor surfaceText);
      ("onSurfaceVariant", onSurfaceVariant);
      ("outline", outline);
      ("outlineVariant", outlineVariant);
      ("error", if isDark then "#F2B8B5" else "#BA1A1A");
      ("onError", if isDark then "#601410" else "#FFFFFF");
      ("errorContainer", if isDark then "#8C1D18" else "#FFDAD6");
      ("onErrorContainer", if isDark then "#F9DEDC" else "#410002") ]%string.

End Extraction.

End M3ColorExtractor.

(* ================================================================= *)
(** ** Regular expressions *)

Module RegExp.

(** The patterns the sources use outside the colour codec: a class of
    characters, concatenation, alternation and repetition. *)
Inductive Pattern : Type :=
| Never
| Empty
| Class (member : ascii -> bool)
| Seq (first second : Pattern)
| Alt (left right : Pattern)
| Star (body : Pattern).

(** [p+]. *)
Definition Plus (p : Pattern) : Pattern := Seq p (Star p).

Fixpoint nullable (p : Pattern) : bool :=
  match p with
  | Never => false
  | Empty => true
  | Class _ => false
  | Seq a b => nullable a && nullable b
  | Alt a b => nullable a || nullable b
  | Star _ => true
  end.

(** What is left of a pattern once it has read the character [c]. *)
Fixpoint derive (c : ascii) (p : Pattern) : Pattern :=
  match p with
  | Never => Never
  | Empty => Never
  | Class member => if member c then Empty else Never
  | Seq a b =>
      if nullable a then Alt (Seq (derive c a) b) (derive c b)
      else Seq (derive c a) b
  | Alt a b => Alt (derive c a) (derive c b)
  | Star a => Seq (derive c a) (Star a)
  end.

(** [/^p$/.test(s)]: whether the whole of [s] matches [p].  A
    backtracking matcher answers [true] on the same strings. *)
Fixpoint test (p : Pattern) (s : string) : bool :=
  match s with
  | EmptyString => nullable p
  | String c rest => test (derive c p) rest
  end.

(** The strings of a pattern. *)
Inductive Matches : Pattern -> string -> Prop :=
| MEmpty : Matches Empty EmptyString
| MClass member c : member c = true -> Matches (Class member) (String c EmptyString)
| MSeq a b s t : Matches a s -> Matches b t -> Matches (Seq a b) (s ++ t)
| MAltL a b s : Matches a s -> Matches (Alt a b) s
| MAltR a b s : Matches b s -> Matches (Alt a b) s
| MStarNil a : Matches (Star a) EmptyString
| MStarCons a s t : Matches a s -> Matches (Star a) t -> Matches (Star a) (s ++ t).

End RegExp.

(* ================================================================= *)
(** ** [M3FormUtils] (js/m3-utils.js) *)

Module M3FormUtils.

(** [\s] on code units below 256: the control characters 9 to 13, the
    space and the no-break space. *)
Definition isWhiteSpace (c : ascii) : bool :=
  ((9 <=? JS.code c) && (JS.code c <=? 13)) || (JS.code c =? 32) || (JS.code c =? 160).

(** [[^\s@]]. *)
Definition notSpaceNorAt (c : ascii) : bool :=
  negb (isWhiteSpace c || Ascii.eqb c "@"%char).

(** [/^[^\s@]+@[^\s@]+\.[^\s@]+$/]. *)
Definition re : RegExp.Pattern :=
  RegExp.Seq (RegExp.Plus (RegExp.Class notSpaceNorAt))
    (RegExp.Seq (RegExp.Class (Ascii.eqb "@"%char))
       (RegExp.Seq (RegExp.Plus (RegExp.Class notSpaceNorAt))
          (RegExp.Seq (RegExp.Class (Ascii.eqb "."%char))
             (RegExp.Plus (RegExp.Class notSpaceNorAt))))).

(** [validateEmail(email)]. *)
Definition validateEmail (email : string) : bool := RegExp.test re email.

End M3FormUtils.

(* ================================================================= *)
(** ** [M3ResponsiveUtils] (js/m3-utils.js) *)

Module M3ResponsiveUtils.

(** The object [breakpoints]. *)
Definition breakpoints : list (string * Z) :=
  [ ("xs", 0); ("sm", 600); ("md", 905); ("lg", 1240); ("xl", 1440) ].

(** [this.breakpoints[name]] as a number: [None] for a name that is not
    one of the five, whose value ([undefined], or what the object
    inherits) compares as [NaN]. *)
Fixpoint property (obj : list (string * Z)) (name : string) : option Z :=
  match obj with
  | [] => None
  | (k, v) :: rest => if String.eqb k name then Some v else property rest name
  end.

(** [width >= x] and [width < x]: both are false when [x] is no
    number. *)
Definition ge (width : Z) (x : option Z) : bool :=
  match x with Some t => t <=? width | None => false end.

Definition lt (width : Z) (x : option Z) : bool :=
  match x with Some t => width <? t | None => false end.

(** [getCurrentBreakpoint()], the width being [window.innerWidth]. *)
Definition getCurrentBreakpoint (innerWidth : Z) : string :=
  let width := innerWidth in
  if ge width (property breakpoints "xl") then "xl"
  else if ge width (property breakpoints "lg") then "lg"
  else if ge width (property breakpoints "md") then "md"
  else if ge width (property breakpoints "sm") then "sm"
  else "xs".

(** [isAbove(breakpoint)] and [isBelow(breakpoint)]. *)
Definition isAbove (innerWidth : Z) (breakpoint : string) : bool :=
  let width := innerWidth in
  ge width (property breakpoints breakpoint).

Definition isBelow (innerWidth : Z) (breakpoint : string) : bool :=
  let width := innerWidth in
  lt width (property breakpoints breakpoint).

(** The function [checkBreakpoint] that [onBreakpointChange] registers
    for [resize]: the new value of the variable [currentBreakpoint] of
    the closure, and the argument of the callback when it is called. *)
Definition checkBreakpoint (currentBreakpoint : string) (innerWidth : Z)
  : string * option string :=
  let newBreakpoint := getCurrentBreakpoint innerWidth in
  if negb (String.eqb newBreakpoint currentBreakpoint)
  then (newBreakpoint, Some newBreakpoint)
  else (currentBreakpoint, None).

(** [onBreakpointChange(callback)] at the width [initialWidth], followed
    by [resize] events at the widths given: the arguments of the calls
    of the callback, in order, and the last [currentBreakpoint]. *)
Fixpoint resizes (currentBreakpoint : string) (widths : list Z) : list string * string :=
  match widths with
  | [] => ([], currentBreakpoint)
  | w :: rest =>
      let '(current, call) := checkBreakpoint currentBreakpoint w in
      let '(calls, final) := resizes current rest in
      (match call with Some arg => arg :: calls | None => calls end, final)
  end.

Definition onBreakpointChange (initialWidth : Z) (widths : list Z) : list string * string :=
  resizes (getCurrentBreakpoint initialWidth) widths.

End M3ResponsiveUtils.

(* ================================================================= *)
(** ** [localStorage] *)

Module LocalStorage.

(** The entries of the storage, each name once. *)
Definition t : Type := list (string * string).

(** [localStorage.getItem(name)], [null] when the name is missing. *)
Fixpoint getItem (ls : t) (name : string) : option string :=
  match ls with
  | [] => None
  | (k, v) :: rest => if String.eqb k name then Some v else getItem rest name
  end.

(** [localStorage.setItem(name, value)], when the browser takes it. *)
Fixpoint setItem (ls : t) (name value : string) : t :=
  match ls with
  | [] => [(name, value)]
  | (k, v) :: rest =>
      if String.eqb k name then (k, value) :: rest
      else (k, v) :: setItem rest name value
  end.

(** [localStorage.removeItem(name)]. *)
Definition removeItem (ls : t) (name : string) : t :=
  filter (fun entry : string * string => negb (String.eqb (fst entry) name)) ls.

(** [Object.keys(localStorage)]. *)
Definition keys (ls : t) : list string := map fst ls.

End LocalStorage.

(* ================================================================= *)
(** ** [M3StorageUtils] (js/m3-utils.js) *)

Module M3StorageUtils.

(** [key.startsWith('m3-')]. *)
Definition startsWithM3 (key : string) : bool :=
  match key with
  | String "m"%char (String "3"%char (String "-"%char _)) => true
  | _ => false
  end.

Section Storage.

(** The values stored. *)
Variable V : Type.

(** The object [{ value, timestamp, ttl }]; [ttl] is [null] or a number
    of milliseconds, [timestamp] a value of [Date.now()]. *)
Record Item : Type := mkItem { value : V; timestamp : Z; ttl : option Z }.

(** [JSON.stringify] on such an object, [None] when it throws (a value
    with a cycle, a [BigInt]); and [JSON.parse] followed by the reads of
    [data.ttl], [data.timestamp] and [data.value], [None] when the parse
    or a read throws. *)
Variable stringify : Item -> option string.
Variable parse : string -> option Item.

(** Whether the browser takes a write, or throws (quota, private mode). *)
Variable accepts : LocalStorage.t -> string -> string -> bool.

(** [setItem(key, value, ttl)] when [Date.now()] is [now]: the boolean
    returned and the storage after the call. *)
Definition setItem (ls : LocalStorage.t) (now : Z) (key : string) (value : V)
           (ttl : option Z) : bool * LocalStorage.t :=
  let data := {| value := value; timestamp := now; ttl := ttl |} in
  match stringify data with
  | None => (false, ls)
  | Some text =>
      if accepts ls ("m3-" ++ key) text
      then (true, LocalStorage.setItem ls ("m3-" ++ key) text)
      else (false, ls)
  end.

(** [data.ttl && Date.now() - data.timestamp > data.ttl]; a [ttl] of
    [null] or [0] is falsy. *)
Definition expired (now : Z) (data : Item) : bool :=
  match ttl data with
  | None => false
  | Some n => negb (n =? 0) && (n <? now - timestamp data)
  end.

(** [getItem(key)] when [Date.now()] is [now]: the value returned
    ([None] for [null]) and the storage after the call. *)
Definition getItem (ls : LocalStorage.t) (now : Z) (key : string)
  : option V * LocalStorage.t :=
  match LocalStorage.getItem ls ("m3-" ++ key) with
  | None | Some EmptyString => (None, ls)
  | Some item =>
      match parse item with
      | None => (None, ls)
      | Some data =>
          if expired now data
          then (None, LocalStorage.removeItem ls ("m3-" ++ key))
          else (Some (value data), ls)
      end
  end.

(** [removeItem(key)], when [localStorage] lets the removal through. *)
Definition removeItem (ls : LocalStorage.t) (key : string) : bool * LocalStorage.t :=
  (true, LocalStorage.removeItem ls ("m3-" ++ key)).

(** Whether the browser lets [Object.keys(localStorage)] and a removal
    through, or throws (storage that may not be accessed). *)
Variable lists : LocalStorage.t -> bool.
Variable removes : LocalStorage.t -> string -> bool.

(** The callback of [keys.forEach] in [clear], over the keys that are
    left: [false] as soon as a removal throws, the storage being what
    the removals before it made of it. *)
Fixpoint clearKeys (keys : list string) (storage : LocalStorage.t)
  : bool * LocalStorage.t :=
  match keys with
  | [] => (true, storage)
  | key :: rest =>
      if startsWithM3 key
      then if removes storage key
           then clearKeys rest (LocalStorage.removeItem storage key)
           else (false, storage)
      else clearKeys rest storage
  end.

(** [clear()]: the keys are read once, then each key that starts with
    [m3-] is removed; [true] when the loop ends, [false] from the
    [catch] when reading the keys or a removal throws. *)
Definition clear (ls : LocalStorage.t) : bool * LocalStorage.t :=
  if lists ls
  then let keys := LocalStorage.keys ls in clearKeys keys ls
  else (false, ls).

End Storage.

Arguments mkItem {V} value timestamp ttl.
Arguments value {V} i.
Arguments timestamp {V} i.
Arguments ttl {V} i.

End M3StorageUtils.

(* ================================================================= *)
(** ** What the specification says, in its own words *)

Module Spec.

(** A hexadecimal digit, in either case. *)
Definition isHexDigit (c : ascii) : bool :=
  JS.isDecimalDigit c || JS.isLower_a_f c || JS.isUpper_A_F c.

(** Exactly six hexadecimal digits. *)
Definition sixHexDigits (s : string) : bool :=
  (String.length s =? 6)%nat && forallb isHexDigit (list_ascii_of_string s).

(** Six hexadecimal digits with an optional leading [#]. *)
Definition isHexColorString (s : string) : bool :=
  sixHexDigits s
  || match s with
     | String "#"%char digits => sixHexDigits digits
     | _ => false
     end.

(** An upper-case hexadecimal digit. *)
Definition isUpperHexDigit (c : ascii) : bool :=
  JS.isDecimalDigit c || JS.isUpper_A_F c.

(** The canonical form [#RRGGBB]: seven characters, [#] and six
    upper-case hexadecimal digits. *)
Definition isCanonicalHex (s : string) : bool :=
  match s with
  | String "#"%char digits =>
      (String.length digits =? 6)%nat
      && forallb isUpperHexDigit (list_ascii_of_string digits)
  | _ => false
  end.

(** The upper-case digit of a value below sixteen. *)
Definition upperDigit (d : Z) : ascii :=
  if d <? 10 then JS.charOf (48 + d) else JS.charOf (55 + d).

(** A channel as two upper-case hexadecimal digits. *)
Definition twoHex (n : Z) : string :=
  String (upperDigit (n / 16)) (String (upperDigit (n mod 16)) EmptyString).

(** A channel clamped to [[0,255]]. *)
Definition clampByte (n : Z) : Z := Z.max 0 (Z.min 255 n).

(** The role names of a scheme, in the order of section 4.5. *)
Definition roleKeys : list string :=
  [ "primary"; "onPrimary"; "primaryContainer"; "onPrimaryContainer";
    "secondary"; "onSecondary"; "secondaryContainer"; "onSecondaryContainer";
    "tertiary"; "onTertiary"; "tertiaryContainer"; "onTertiaryContainer";
    "surface"; "surfaceDim"; "surfaceBright";
    "surfaceContainerLowest"; "surfaceContainerLow"; "surfaceContainer";
    "surfaceContainerHigh"; "surfaceContainerHighest";
    "onSurface"; "onSurfaceVariant"; "outline"; "outlineVariant";
    "error"; "onError"; "errorContainer"; "onErrorContainer" ].

End Spec.

(** The invariants of an HCT value (section 3). *)
Definition hueInRange (c : HCT) : bool := ((0 <=? hue c) && (hue c <? 360))%float.
Definition chromaInRange (c : HCT) : bool := (0 <=? chroma c)%float.
Definition toneInRange (c : HCT) : bool := ((0 <=? tone c) && (tone c <=? 100))%float.
Definition wellFormedHCT (c : HCT) : bool :=
  hueInRange c && chromaInRange c && toneInRange c.

(** The candidates of section 4.6, step 4: the colours of the [2k] most
    frequent buckets, most frequent first. *)
Definition candidateColors (pixels : list RGBA) (k : Z) : list string :=
  map (fun entry : string * Z => M3ColorExtractor.hexOfKey (fst entry))
      (JS.slice0 (JS.sort (fun a b : string * Z => snd b - snd a)
                          (M3ColorExtractor.histogram pixels))
                 (k * 2)).

(** The walk of section 4.6, step 5, with no bound on how many are kept:
    a candidate is kept when its contrast ratio against every candidate
    kept before it exceeds 1.5. *)
Fixpoint keepDistinct (M : JS.MathLib) (candidates kept : list string) : list string :=
  match candidates with
  | [] => kept
  | c :: rest =>
      if forallb (fun e => (1.5 <? M3HCTColor.contrastRatio M c e)%float) kept
      then keepDistinct M rest (kept ++ [c])%list
      else keepDistinct M rest kept
  end.

(** The distinct-enough colours an image has. *)
Definition distinctEnoughColors (M : JS.MathLib) (pixels : list RGBA) (k : Z) : list string :=
  keepDistinct M (candidateColors pixels k) [].

(** The luminance [M3HCTColor.getAccessibleTextColor] computes for its
    argument. *)
Definition luminanceOf (M : JS.MathLib) (backgroundColor : string) : float :=
  let rgb := M3HCTColor.hexToRgb backgroundColor in
  M3HCTColor.relativeLuminance M (r rgb) (g rgb) (b rgb).

Definition isSome {A : Type} (o : option A) : bool :=
  match o with Some _ => true | None => false end.

(** The bytes [0 .. 255]. *)
Definition allBytes : list Z := map Z.of_nat (seq 0 256).

(** A call whose body holds no [throw] and calls nothing that throws
    completes normally with the value of the body. *)
Definition completes {A : Type} (value : A) : JS.Completion A := JS.Normal value.

(** The value a key has in an object literal. *)
Fixpoint lookup (key : string) (obj : list (string * string)) : option string :=
  match obj with
  | [] => None
  | (k, v) :: rest => if String.eqb k key then Some v else lookup key rest
  end.

(* ================================================================= *)
(** ** [M3ThemeEngine] (js/m3-components/switch.js) *)

Module M3ThemeEngine.

(** The fields of the engine.  A scheme is an object of the kind
    [generateSchemeFromColor] builds; [customSchemes] is a [Map], kept
    in insertion order. *)
Record ThemeEngine : Type := mkThemeEngine {
  currentSeed : string;
  isDark : bool;
  customSchemes : list (string * list (string * string));
  currentScheme : option (list (string * string))
}.

Definition isUpper_A_Z (c : ascii) : bool := (65 <=? JS.code c) && (JS.code c <=? 90).

(** [letter.toLowerCase()] on a letter of [[A-Z]]. *)
Definition lowerChar (c : ascii) : ascii :=
  if isUpper_A_Z c then JS.charOf (JS.code c + 32) else c.

(** [kebabCase(str)]: [str.replace(/[A-Z]/g, letter => `-${...}`)]. *)
Fixpoint kebabCase (str : string) : string :=
  match str with
  | EmptyString => EmptyString
  | String letter rest =>
      if isUpper_A_Z letter
      then String "-"%char (String (lowerChar letter) (kebabCase rest))
      else String letter (kebabCase rest)
  end.

(** [value.startsWith('#')]. *)
Definition startsWithHash (value : string) : bool :=
  match value with
  | String "#"%char _ => true
  | _ => false
  end.

(** [Array.prototype.join] with a separator. *)
Definition joinWith (separator : string) (parts : list string) : string :=
  String.concat separator parts.

Definition newline : string := String (ascii_of_nat 10) EmptyString.

(** [Map.prototype.set]. *)
Fixpoint mapSet {V : Type} (m : list (string * V)) (key : string) (value : V)
  : list (string * V) :=
  match m with
  | [] => [(key, value)]
  | (k, v) :: rest =>
      if String.eqb k key then (k, value) :: rest
      else (k, v) :: mapSet rest key value
  end.

(** The engine of the constructor, before it calls
    [initCSSVariables]. *)
Definition initial : ThemeEngine :=
  {| currentSeed := "#6750A4"; isDark := false; customSchemes := []; currentScheme := None |}.

(** [exportAsCSS()].  The values of a scheme are strings here, so
    [typeof value === 'string'] holds of each. *)
Definition exportAsCSS (this : ThemeEngine) : string :=
  match currentScheme this with
  | None => ""
  | Some scheme =>
      let vars :=
        joinWith newline
          (map (fun entry : string * string =>
                  let cssVar := "--m3-sys-" ++ kebabCase (fst entry) in
                  "  " ++ cssVar ++ ": " ++ snd entry ++ ";")
               (filter (fun entry : string * string => startsWithHash (snd entry)) scheme)) in
      ":root {" ++ newline ++ vars ++ newline ++ "}"
  end.

(** [exportAsSCSS()]. *)
Definition exportAsSCSS (this : ThemeEngine) : string :=
  match currentScheme this with
  | None => ""
  | Some scheme =>
      joinWith newline
        (map (fun entry : string * string =>
                let scssVar := "$m3-" ++ kebabCase (fst entry) in
                scssVar ++ ": " ++ snd entry ++ ";")
             (filter (fun entry : string * string => startsWithHash (snd entry)) scheme))
  end.

Section Engine.

Variable M : JS.MathLib.

(** [generateSchemeFromSeed(seedColor, isDark)]: how the call
    completes and the engine after it.  The seed and the mode are
    written before [generateSchemeFromColor] is called, the scheme and
    the entry of [customSchemes] after it has returned. *)
Definition generateSchemeFromSeed (this : ThemeEngine) (seedColor : string) (isDark : bool)
  : JS.Completion (list (string * string)) * ThemeEngine :=
  let this :=
    {| currentSeed := seedColor;
       isDark := isDark;
       customSchemes := customSchemes this;
       currentScheme := currentScheme this |} in
  match M3ColorExtractor.generateSchemeFromColor M seedColor isDark with
  | JS.Throw error => (JS.Throw error, this)
  | JS.Normal scheme =>
      let schemeKey := seedColor ++ "-" ++ (if isDark then "dark" else "light") in
      (JS.Normal scheme,
       {| currentSeed := seedColor;
          isDark := isDark;
          customSchemes := mapSet (customSchemes this) schemeKey scheme;
          currentScheme := Some scheme |})
  end.

(** [applyScheme(scheme)]: the fields of the engine after the call.  The
    writes to the style and the attributes of the document, the save to
    [localStorage] and the event are effects outside the engine. *)
Definition applyScheme (this : ThemeEngine) (scheme : option (list (string * string)))
  : ThemeEngine :=
  match scheme with
  | None => this
  | Some scheme =>
      let isDark :=
        match lookup "surface" scheme with
        | Some EmptyString | None => false
        | Some surface =>
            let rgb := M3HCTColor.hexToRgb surface in
            (M3HCTColor.relativeLuminance M (r rgb) (g rgb) (b rgb) <? 0.5)%float
        end in
      let seed :=
        match lookup "primary" scheme with
        | Some EmptyString | None => currentSeed this
        | Some primary => primary
        end in
      {| currentSeed := seed;
         isDark := isDark;
         customSchemes := customSchemes this;
         currentScheme := Some scheme |}
  end.

(** [toggleTheme(forceDark)], [forceDark] being [null] or a boolean; the
    two branches on [this.currentScheme] do the same. *)
Definition toggleTheme (this : ThemeEngine) (forceDark : option bool)
  : JS.Completion unit * ThemeEngine :=
  let willBeDark := match forceDark with Some dark => dark | None => negb (isDark this) end in
  match generateSchemeFromSeed this (currentSeed this) willBeDark with
  | (JS.Throw error, this) => (JS.Throw error, this)
  | (JS.Normal newScheme, this) => (JS.Normal tt, applyScheme this (Some newScheme))
  end.

(** [initCSSVariables()]. *)
Definition initCSSVariables (this : ThemeEngine) : JS.Completion unit * ThemeEngine :=
  match generateSchemeFromSeed this (currentSeed this) (isDark this) with
  | (JS.Throw error, this) => (JS.Throw error, this)
  | (JS.Normal defaultScheme, this) => (JS.Normal tt, applyScheme this (Some defaultScheme))
  end.

(** [resetToDefault()], as far as the engine goes: when [applyScheme]
    has returned, two entries of [localStorage] are removed. *)
Definition resetToDefault (this : ThemeEngine) : JS.Completion unit * ThemeEngine :=
  match generateSchemeFromSeed this "#6750A4" false with
  | (JS.Throw error, this) => (JS.Throw error, this)
  | (JS.Normal defaultScheme, this) => (JS.Normal tt, applyScheme this (Some defaultScheme))
  end.

(** [new M3ThemeEngine()]: the fields are set, then [initCSSVariables]
    is called and, when it has returned, [watchSystemTheme], which reads
    the browser and is a parameter here.  The value is the engine
    constructed, when there is one. *)
Definition construct (watchSystemTheme : ThemeEngine -> JS.Completion unit * ThemeEngine)
  : JS.Completion ThemeEngine :=
  let this := initial in
  match initCSSVariables this with
  | (JS.Throw error, _) => JS.Throw error
  | (JS.Normal _, this) =>
      match watchSystemTheme this with
      | (JS.Throw error, _) => JS.Throw error
      | (JS.Normal _, this) => JS.Normal this
      end
  end.

(** [getContrastColor(color, highContrast)]. *)
Definition getContrastColor (color : string) (highContrast : bool) : string :=
  M3HCTColor.getAccessibleTextColor M color.

(** [generatePalette(baseColor, steps)]. *)
Definition generatePalette (baseColor : string) (steps : Z) : JS.Completion (list string) :=
  let hctColor := M3HCTColor.fromHex M baseColor in
  M3HCTColor.generateTonalPalette M hctColor.

End Engine.

End M3ThemeEngine.

Definition allAscii : list ascii := map ascii_of_nat (seq 0 256).

(** The canonical form of a hex colour string: [#] and the six digits in
    upper case. *)
Definition canonicalForm (s : string) : string :=
  "#" ++ JS.toUpperCase (match s with String "#"%char digits => digits | _ => s end).

(** What the pattern of [hexToRgb] asks of a pair of characters, and
    what [parseInt] and [rgbToHex] then make of it. *)
Definition pairCheck (a b : ascii) : bool :=
  implb (JS.hexClass a && JS.hexClass b)
        match JS.parseInt16Z (String a (String b EmptyString)) with
        | Some n =>
            (0 <=? n) && (n <=? 255)
            && String.eqb (Spec.twoHex n)
                          (String (JS.upperChar a) (String (JS.upperChar b) EmptyString))
        | None => false
        end.

(** A pixel the first loop counts. *)
Definition isOpaque (p : RGBA) : bool := negb (alpha p <? 128).

(** A pixel with its three colour channels on the 16-step grid. *)
Definition quantize (p : RGBA) : RGBA :=
  mkRGBA (red p / 16 * 16) (green p / 16 * 16) (blue p / 16 * 16) (alpha p).

(** The key of the bucket of a pixel, and the colour of that bucket. *)
Definition bucketKey (p : RGBA) : string :=
  M3ColorExtractor.colorKeyOf (red p / 16 * 16) (green p / 16 * 16) (blue p / 16 * 16).

Definition bucketColor (p : RGBA) : string :=
  M3HCTColor.rgbToHex (JS.ofZ (red p / 16 * 16)) (JS.ofZ (green p / 16 * 16))
                      (JS.ofZ (blue p / 16 * 16)).

(** The channels of a pixel are bytes, as in a [Uint8ClampedArray]. *)
Definition bytePixel (p : RGBA) : Prop :=
  0 <= red p <= 255 /\ 0 <= green p <= 255 /\ 0 <= blue p <= 255.

Definition totalCount (m : M3ColorExtractor.ColorMap) : Z :=
  fold_right (fun entry acc => snd entry + acc) 0 m.

(** No two neighbours of the list equal, nor its head and [previous]. *)
Fixpoint allChanges (previous : string) (l : list string) : bool :=
  match l with
  | [] => true
  | x :: rest => negb (String.eqb x previous) && allChanges x rest
  end.

(** No letter of [[A-Z]] in a string. *)
Definition noUpperCase (s : string) : bool :=
  forallb (fun c => negb (M3ThemeEngine.isUpper_A_Z c)) (list_ascii_of_string s).

(** Every character of a string passes a test. *)
Definition allChars (p : ascii -> bool) (s : string) : bool :=
  forallb p (list_ascii_of_string s).

(** How often a character occurs in a string. *)
Fixpoint countChar (c : ascii) (s : string) : nat :=
  match s with
  | EmptyString => 0
  | String x rest => (if Ascii.eqb x c then 1 else 0) + countChar c rest
  end.

(** A part of an address: not empty, no white space, no [@]. *)
Definition addressPart (s : string) : Prop :=
  s <> EmptyString /\ allChars M3FormUtils.notSpaceNorAt s = true.

(** A codec for items whose value is an integer, in the manner of JSON:
    the three fields in decimal, [null] for no [ttl], between commas. *)
Definition sampleStringify (data : M3StorageUtils.Item Z) : option string :=
  Some (JS.decimal (M3StorageUtils.value data) ++ ","
        ++ JS.decimal (M3StorageUtils.timestamp data) ++ ","
        ++ match M3StorageUtils.ttl data with
           | None => "null"
           | Some n => JS.decimal n
           end).

Definition sampleInteger (s : string) : option Z :=
  match s with
  | String "-"%char rest =>
      match JS.decimalValue rest 0 with Some n => Some (- n) | None => None end
  | _ => JS.decimalValue s 0
  end.

Definition sampleParse (s : string) : option (M3StorageUtils.Item Z) :=
  match JS.split s with
  | [v; t; l] =>
      match sampleInteger v, sampleInteger t with
      | Some v, Some t =>
          if String.eqb l "null" then Some (M3StorageUtils.mkItem v t None)
          else match sampleInteger l with
               | Some n => Some (M3StorageUtils.mkItem v t (Some n))
               | None => None
               end
      | _, _ => None
      end
  | _ => None
  end.

(* ================================================================= *)
(** ** The hex codec *)

Section Codec.

Lemma allBytes_complete (n : Z) : 0 <= n <= 255 -> In n allBytes.
Proof.
  intros Hn. unfold allBytes.
  replace n with (Z.of_nat (Z.to_nat n)) by lia.
  apply in_map, in_seq. lia.
Qed.

(** A property checked on every byte holds of each byte. *)
Lemma byte_cases (P : Z -> bool) :
  forallb P allBytes = true -> forall n, 0 <= n <= 255 -> P n = true.
Proof.
  intros Hall n Hn. rewrite forallb_forall in Hall.
  apply Hall, allBytes_complete, Hn.
Qed.

Lemma toUpperCase_app (s t : string) :
  JS.toUpperCase (s ++ t) = JS.toUpperCase s ++ JS.toUpperCase t.
Proof.
  induction s as [|c s IH]; simpl; [reflexivity | now rewrite IH].
Qed.

(** On a byte the mapped callback of [rgbToHex], once upper-cased, is the
    two-digit form. *)
Lemma channelHex_byte (n : Z) :
  0 <= n <= 255 ->
  JS.toUpperCase (M3ColorUtils.channelHex (JS.ofZ n)) = Spec.twoHex n.
Proof.
  intros Hn. apply String.eqb_eq.
  apply (byte_cases (fun n => String.eqb
           (JS.toUpperCase (M3ColorUtils.channelHex (JS.ofZ n))) (Spec.twoHex n)));
    [vm_compute; reflexivity | exact Hn].
Qed.

Lemma rgbToHex_same (r g b : float) :
  M3HCTColor.rgbToHex r g b = M3ColorUtils.rgbToHex r g b.
Proof. reflexivity. Qed.

Lemma rgbToHex_bytes (r g b : Z) :
  0 <= r <= 255 -> 0 <= g <= 255 -> 0 <= b <= 255 ->
  M3ColorUtils.rgbToHex (JS.ofZ r) (JS.ofZ g) (JS.ofZ b)
  = "#" ++ Spec.twoHex r ++ Spec.twoHex g ++ Spec.twoHex b.
Proof.
  intros Hr Hg Hb. unfold M3ColorUtils.rgbToHex, JS.join. simpl String.concat.
  rewrite !toUpperCase_app.
  rewrite (channelHex_byte r Hr), (channelHex_byte g Hg), (channelHex_byte b Hb).
  reflexivity.
Qed.

Lemma upperDigit_nibble (d : Z) :
  0 <= d < 16 ->
  Spec.isUpperHexDigit (Spec.upperDigit d) = true
  /\ JS.hexClass (Spec.upperDigit d) = true.
Proof.
  intros Hd.
  assert (H : In d (map Z.of_nat (seq 0 16))).
  { replace d with (Z.of_nat (Z.to_nat d)) by lia. apply in_map, in_seq. lia. }
  assert (Hall : forallb (fun d => Spec.isUpperHexDigit (Spec.upperDigit d)
                                   && JS.hexClass (Spec.upperDigit d))
                         (map Z.of_nat (seq 0 16)) = true)
    by (vm_compute; reflexivity).
  rewrite forallb_forall in Hall. apply Hall in H.
  now apply andb_true_iff in H.
Qed.

Lemma twoHex_digits (n : Z) :
  0 <= n <= 255 ->
  exists c1 c2, Spec.twoHex n = String c1 (String c2 EmptyString)
    /\ Spec.isUpperHexDigit c1 = true /\ Spec.isUpperHexDigit c2 = true
    /\ JS.hexClass c1 = true /\ JS.hexClass c2 = true.
Proof.
  intros Hn. exists (Spec.upperDigit (n / 16)), (Spec.upperDigit (n mod 16)).
  assert (H1 : 0 <= n / 16 < 16)
    by (split; [apply Z.div_pos; lia | apply Z.div_lt_upper_bound; lia]).
  assert (H2 : 0 <= n mod 16 < 16) by (apply Z.mod_pos_bound; lia).
  destruct (upperDigit_nibble _ H1) as [? ?], (upperDigit_nibble _ H2) as [? ?].
  repeat split; assumption.
Qed.

Lemma parseInt16_twoHex (n : Z) :
  0 <= n <= 255 -> JS.parseInt16 (Spec.twoHex n) = JS.ofZ n.
Proof.
  intros Hn. unfold JS.parseInt16.
  assert (H : JS.parseInt16Z (Spec.twoHex n) = Some n).
  { pose proof (byte_cases (fun n =>
        match JS.parseInt16Z (Spec.twoHex n) with
        | Some m => m =? n
        | None => false
        end)) as Hc.
    specialize (Hc ltac:(vm_compute; reflexivity) n Hn). cbv beta in Hc.
    destruct (JS.parseInt16Z (Spec.twoHex n)); [|discriminate].
    apply Z.eqb_eq in Hc. now subst. }
  now rewrite H.
Qed.

(** The matcher on a canonical string: the three captures are the three
    channels. *)
Lemma hexRegexExec_canonical (r g b : Z) :
  0 <= r <= 255 -> 0 <= g <= 255 -> 0 <= b <= 255 ->
  JS.hexRegexExec ("#" ++ Spec.twoHex r ++ Spec.twoHex g ++ Spec.twoHex b)
  = Some (Spec.twoHex r, Spec.twoHex g, Spec.twoHex b).
Proof.
  intros Hr Hg Hb.
  destruct (twoHex_digits r Hr) as (r1 & r2 & -> & _ & _ & Hr1 & Hr2).
  destruct (twoHex_digits g Hg) as (g1 & g2 & -> & _ & _ & Hg1 & Hg2).
  destruct (twoHex_digits b Hb) as (b1 & b2 & -> & _ & _ & Hb1 & Hb2).
  cbn [append]. unfold JS.hexRegexExec, JS.groups3, JS.group2.
  rewrite Hr1, Hr2. cbn [andb]. rewrite Hg1, Hg2. cbn [andb]. rewrite Hb1, Hb2.
  reflexivity.
Qed.

End Codec.

Section Matcher.

(** The class of the pattern is the class of hexadecimal digits. *)
Lemma hexClass_isHexDigit (c : ascii) : JS.hexClass c = Spec.isHexDigit c.
Proof.
  destruct c as [[] [] [] [] [] [] [] []]; vm_compute; reflexivity.
Qed.

Lemma hexClass_hash : JS.hexClass "#"%char = false.
Proof. reflexivity. Qed.

(** The three groups and the end anchor accept the strings of six
    hexadecimal digits, and no other. *)
Lemma groups3_sixHexDigits (s : string) :
  isSome (JS.groups3 s) = Spec.sixHexDigits s.
Proof.
  unfold JS.groups3, JS.group2, Spec.sixHexDigits.
  destruct s as [|c1 [|c2 [|c3 [|c4 [|c5 [|c6 [|c7 s]]]]]]];
    cbn [String.length Nat.eqb andb list_ascii_of_string forallb isSome];
    rewrite <- ?hexClass_isHexDigit;
    set (h := JS.hexClass); clearbody h;
    repeat (match goal with
            | |- context [h ?c] => destruct (h c)
            end; cbn);
    reflexivity.
Qed.

(** A string that starts with [#] is not six hexadecimal digits. *)
Lemma groups3_hash (rest : string) : JS.groups3 (String "#"%char rest) = None.
Proof.
  unfold JS.groups3, JS.group2. destruct rest; [reflexivity|].
  rewrite hexClass_hash. reflexivity.
Qed.

(** The pattern of [hexToRgb] accepts what the specification calls a hex
    colour string. *)
Lemma hexRegexExec_spec (s : string) :
  isSome (JS.hexRegexExec s) = Spec.isHexColorString s.
Proof.
  unfold Spec.isHexColorString. rewrite <- groups3_sixHexDigits.
  unfold JS.hexRegexExec.
  destruct s as [|c rest]; [reflexivity|].
  destruct (Ascii.eqb_spec c "#"%char) as [->|Hc].
  - rewrite groups3_hash, <- groups3_sixHexDigits.
    destruct (JS.groups3 rest); reflexivity.
  - assert (E : forall (X : Type) (x y : X),
               match c with "#"%char => x | _ => y end = y).
    { intros X x y.
      destruct c as [[] [] [] [] [] [] [] []]; try reflexivity. now elim Hc. }
    rewrite !E. now rewrite orb_false_r.
Qed.

Lemma hexRegexExec_none (s : string) :
  Spec.isHexColorString s = false -> JS.hexRegexExec s = None.
Proof.
  rewrite <- hexRegexExec_spec. now destruct (JS.hexRegexExec s).
Qed.

End Matcher.

(* ================================================================= *)
(** ** Claims on the codec *)

(** C1, as stated, fails: on the malformed input ["xyz"] no call of
    [hexToRgb] throws; [M3HCTColor.hexToRgb] returns black and
    [M3ColorUtils.hexToRgb] returns [null]. *)
Lemma hexToRgb_malformed_no_error :
  Spec.isHexColorString "xyz" = false
  /\ completes (M3HCTColor.hexToRgb "xyz") <> JS.Throw JS.InvalidColorFormat
  /\ M3HCTColor.hexToRgb "xyz" = {| r := 0; g := 0; b := 0 |}
  /\ completes (M3ColorUtils.hexToRgb "xyz") <> JS.Throw JS.InvalidColorFormat
  /\ M3ColorUtils.hexToRgb "xyz" = None.
Proof.
  repeat split; try reflexivity; discriminate.
Qed.

(** C1, amended: for every string that is not six hexadecimal digits
    with an optional leading [#], neither [hexToRgb] raises an error:
    [M3ColorUtils.hexToRgb] returns [null] and [M3HCTColor.hexToRgb]
    returns the default [{r: 0, g: 0, b: 0}]. *)
Theorem hexToRgb_malformed (hex : string) :
  Spec.isHexColorString hex = false ->
  completes (M3ColorUtils.hexToRgb hex) = JS.Normal None
  /\ completes (M3HCTColor.hexToRgb hex) = JS.Normal {| r := 0; g := 0; b := 0 |}.
Proof.
  intros H. apply hexRegexExec_none in H.
  unfold completes, M3ColorUtils.hexToRgb, M3HCTColor.hexToRgb.
  now rewrite H.
Qed.

Lemma hexToRgb_malformed_witness :
  Spec.isHexColorString "#12345" = false
  /\ completes (M3ColorUtils.hexToRgb "#12345") = JS.Normal None
  /\ completes (M3HCTColor.hexToRgb "#12345") = JS.Normal {| r := 0; g := 0; b := 0 |}.
Proof.
  split; [reflexivity | apply (hexToRgb_malformed "#12345"); reflexivity].
Defined.

(** X3: every string of six hexadecimal digits with an optional leading
    [#] is parsed by both [hexToRgb], to the same channels. *)
Theorem hexToRgb_accepts (hex : string) :
  Spec.isHexColorString hex = true ->
  exists rgb, M3ColorUtils.hexToRgb hex = Some rgb /\ M3HCTColor.hexToRgb hex = rgb.
Proof.
  rewrite <- hexRegexExec_spec.
  unfold M3ColorUtils.hexToRgb, M3HCTColor.hexToRgb.
  destruct (JS.hexRegexExec hex) as [[[g1 g2] g3]|]; [|discriminate].
  intros _. eexists. split; reflexivity.
Qed.

Lemma hexToRgb_accepts_witness :
  Spec.isHexColorString "6750a4" = true
  /\ exists rgb, M3ColorUtils.hexToRgb "6750a4" = Some rgb
                 /\ M3HCTColor.hexToRgb "6750a4" = rgb.
Proof.
  split; [reflexivity | apply (hexToRgb_accepts "6750a4"); reflexivity].
Defined.

(** C2, as stated, fails: [rgbToHex] does not clamp.  The channel 256 is
    printed as [100], which gives eight characters, and the channel -1
    as [-1], which is not two hexadecimal digits. *)
Lemma rgbToHex_no_clamp :
  M3ColorUtils.rgbToHex (JS.ofZ 256) (JS.ofZ 0) (JS.ofZ 0) = "#1000000"
  /\ String.length (M3ColorUtils.rgbToHex (JS.ofZ 256) (JS.ofZ 0) (JS.ofZ 0)) = 8%nat
  /\ M3HCTColor.rgbToHex (JS.ofZ 256) (JS.ofZ 0) (JS.ofZ 0) = "#1000000"
  /\ M3ColorUtils.rgbToHex (JS.ofZ (-1)) (JS.ofZ 0) (JS.ofZ 0) = "#-10000"
  /\ Spec.isCanonicalHex (M3ColorUtils.rgbToHex (JS.ofZ (-1)) (JS.ofZ 0) (JS.ofZ 0)) = false
  /\ "#" ++ Spec.twoHex (Spec.clampByte 256) ++ Spec.twoHex (Spec.clampByte 0)
         ++ Spec.twoHex (Spec.clampByte 0) = "#FF0000".
Proof.
  repeat split; vm_compute; reflexivity.
Qed.

(** C2, amended: for integers r, g, b in [[0,255]] both [rgbToHex]
    return [#] followed by the three channels, each as two upper-case
    hexadecimal digits: a string of seven characters in canonical form.
    Nothing is clamped. *)
Theorem rgbToHex_canonical (r g b : Z) :
  0 <= r <= 255 -> 0 <= g <= 255 -> 0 <= b <= 255 ->
  let hex := M3ColorUtils.rgbToHex (JS.ofZ r) (JS.ofZ g) (JS.ofZ b) in
  hex = "#" ++ Spec.twoHex r ++ Spec.twoHex g ++ Spec.twoHex b
  /\ M3HCTColor.rgbToHex (JS.ofZ r) (JS.ofZ g) (JS.ofZ b) = hex
  /\ String.length hex = 7%nat
  /\ Spec.isCanonicalHex hex = true.
Proof.
  intros Hr Hg Hb hex. subst hex.
  change M3HCTColor.rgbToHex with M3ColorUtils.rgbToHex.
  rewrite (rgbToHex_bytes r g b Hr Hg Hb).
  destruct (twoHex_digits r Hr) as (r1 & r2 & -> & Hr1 & Hr2 & _).
  destruct (twoHex_digits g Hg) as (g1 & g2 & -> & Hg1 & Hg2 & _).
  destruct (twoHex_digits b Hb) as (b1 & b2 & -> & Hb1 & Hb2 & _).
  repeat split.
  cbn [append Spec.isCanonicalHex String.length Nat.eqb list_ascii_of_string forallb andb].
  now rewrite Hr1, Hr2, Hg1, Hg2, Hb1, Hb2.
Qed.

Lemma rgbToHex_canonical_witness :
  let hex := M3ColorUtils.rgbToHex (JS.ofZ 103) (JS.ofZ 80) (JS.ofZ 164) in
  hex = "#" ++ Spec.twoHex 103 ++ Spec.twoHex 80 ++ Spec.twoHex 164
  /\ M3HCTColor.rgbToHex (JS.ofZ 103) (JS.ofZ 80) (JS.ofZ 164) = hex
  /\ String.length hex = 7%nat
  /\ Spec.isCanonicalHex hex = true.
Proof.
  apply (rgbToHex_canonical 103 80 164); lia.
Defined.

(** C7: for all integers r, g, b in [[0,255]],
    [hexToRgb(rgbToHex(r, g, b))] is [{r, g, b}], in [M3ColorUtils] and
    in [M3HCTColor]. *)
Theorem hexToRgb_rgbToHex (r g b : Z) :
  0 <= r <= 255 -> 0 <= g <= 255 -> 0 <= b <= 255 ->
  M3ColorUtils.hexToRgb (M3ColorUtils.rgbToHex (JS.ofZ r) (JS.ofZ g) (JS.ofZ b))
  = Some {| r := JS.ofZ r; g := JS.ofZ g; b := JS.ofZ b |}
  /\ M3HCTColor.hexToRgb (M3HCTColor.rgbToHex (JS.ofZ r) (JS.ofZ g) (JS.ofZ b))
     = {| r := JS.ofZ r; g := JS.ofZ g; b := JS.ofZ b |}.
Proof.
  intros Hr Hg Hb. change M3HCTColor.rgbToHex with M3ColorUtils.rgbToHex.
  rewrite (rgbToHex_bytes r g b Hr Hg Hb).
  unfold M3ColorUtils.hexToRgb, M3HCTColor.hexToRgb.
  rewrite (hexRegexExec_canonical r g b Hr Hg Hb).
  now rewrite !parseInt16_twoHex by assumption.
Qed.

Lemma hexToRgb_rgbToHex_witness :
  M3ColorUtils.hexToRgb (M3ColorUtils.rgbToHex (JS.ofZ 255) (JS.ofZ 0) (JS.ofZ 10))
  = Some {| r := JS.ofZ 255; g := JS.ofZ 0; b := JS.ofZ 10 |}
  /\ M3HCTColor.hexToRgb (M3HCTColor.rgbToHex (JS.ofZ 255) (JS.ofZ 0) (JS.ofZ 10))
     = {| r := JS.ofZ 255; g := JS.ofZ 0; b := JS.ofZ 10 |}.
Proof.
  apply (hexToRgb_rgbToHex 255 0 10); lia.
Defined.

(* ================================================================= *)
(** ** Luminance, contrast and the text colour *)

Section TextColor.

Variable M : JS.MathLib.

Local Open Scope float_scope.

(** The text colour of [M3ColorUtils] is black or white, whatever the
    argument. *)
Lemma M3ColorUtils_text_black_or_white (backgroundColor : string) :
  M3ColorUtils.getAccessibleTextColor M backgroundColor = "#000000"%string
  \/ M3ColorUtils.getAccessibleTextColor M backgroundColor = "#FFFFFF"%string.
Proof.
  unfold M3ColorUtils.getAccessibleTextColor.
  destruct (M3ColorUtils.hexToRgb backgroundColor) as [rgb|]; [|now left].
  destruct (0.5 <? _); [now left | now right].
Qed.

End TextColor.

(** C4, amended: [M3HCTColor.getAccessibleTextColor(x)] is [#000000]
    when the contrast of x with black is at least 4.5; otherwise
    [#FFFFFF] when the contrast with white is at least 4.5; otherwise
    [#000000] when the relative luminance exceeds 0.5 and [#FFFFFF] when
    it does not.  This holds of every string x, a valid hex colour or
    not, and of every [Math] library.
    [M3ColorUtils.getAccessibleTextColor(x)] compares no contrast: it is
    [#000000] for a string that is no hex colour, and for a hex colour
    it is [#000000] when the relative luminance exceeds 0.5 and
    [#FFFFFF] when it does not.  Both results are always one of the two
    strings. *)
Theorem getAccessibleTextColor_spec (M : JS.MathLib) (x : string) :
  let blackContrast := M3HCTColor.contrastRatio M x "#000000" in
  let whiteContrast := M3HCTColor.contrastRatio M x "#FFFFFF" in
  let text := M3HCTColor.getAccessibleTextColor M x in
  ((4.5 <=? blackContrast)%float = true -> text = "#000000")
  /\ ((4.5 <=? blackContrast)%float = false ->
      (4.5 <=? whiteContrast)%float = true -> text = "#FFFFFF")
  /\ ((4.5 <=? blackContrast)%float = false ->
      (4.5 <=? whiteContrast)%float = false ->
      ((0.5 <? luminanceOf M x)%float = true -> text = "#000000")
      /\ ((0.5 <? luminanceOf M x)%float = false -> text = "#FFFFFF"))
  /\ (text = "#000000" \/ text = "#FFFFFF")
  /\ (Spec.isHexColorString x = false ->
      M3ColorUtils.getAccessibleTextColor M x = "#000000")
  /\ (Spec.isHexColorString x = true ->
      M3ColorUtils.getAccessibleTextColor M x
      = if (0.5 <? luminanceOf M x)%float then "#000000" else "#FFFFFF")
  /\ (M3ColorUtils.getAccessibleTextColor M x = "#000000"
      \/ M3ColorUtils.getAccessibleTextColor M x = "#FFFFFF").
Proof.
  intros blackContrast whiteContrast text.
  subst text. unfold M3HCTColor.getAccessibleTextColor.
  fold (luminanceOf M x). fold blackContrast. fold whiteContrast.
  split; [now intros -> |].
  split; [now intros -> -> |].
  split; [intros -> ->; split; now intros -> |].
  split.
  { destruct (4.5 <=? blackContrast)%float; [now left|].
    destruct (4.5 <=? whiteContrast)%float; [now right|].
    destruct (0.5 <? luminanceOf M x)%float; [now left | now right]. }
  split.
  { intros H. apply hexRegexExec_none in H.
    unfold M3ColorUtils.getAccessibleTextColor, M3ColorUtils.hexToRgb. now rewrite H. }
  split; [| apply M3ColorUtils_text_black_or_white].
  rewrite <- hexRegexExec_spec.
  unfold M3ColorUtils.getAccessibleTextColor, M3ColorUtils.hexToRgb, luminanceOf,
    M3HCTColor.hexToRgb.
  destruct (JS.hexRegexExec x) as [[[g1 g2] g3]|]; [reflexivity | discriminate].
Qed.

Lemma getAccessibleTextColor_spec_witness :
  M3HCTColor.getAccessibleTextColor RefMath.refMath "#808080" = "#000000"
  /\ M3HCTColor.getAccessibleTextColor RefMath.refMath "#000000" = "#FFFFFF".
Proof.
  split.
  - apply (proj1 (getAccessibleTextColor_spec RefMath.refMath "#808080")).
    vm_compute. reflexivity.
  - apply (proj1 (proj2 (getAccessibleTextColor_spec RefMath.refMath "#000000")));
      vm_compute; reflexivity.
Defined.

(** The rule of C4 as the claim has it fails for
    [M3ColorUtils.getAccessibleTextColor] on the mid grey [#808080]: its
    contrast with black is above 4.5 (about 5.3), yet the function
    returns [#FFFFFF], because the luminance (about 0.22) does not
    exceed 0.5. *)
Lemma getAccessibleTextColor_utils_white_on_grey :
  Spec.isHexColorString "#808080" = true
  /\ (4.5 <=? M3ColorUtils.contrastRatio RefMath.refMath "#808080" "#000000")%float = true
  /\ (0.5 <? luminanceOf RefMath.refMath "#808080")%float = false
  /\ M3ColorUtils.getAccessibleTextColor RefMath.refMath "#808080" = "#FFFFFF"
  /\ M3ColorUtils.getAccessibleTextColor RefMath.refMath "#808080" <> "#000000".
Proof.
  repeat split; try (vm_compute; reflexivity).
  vm_compute. discriminate.
Qed.

(** Values of the reference library at arguments where the result is a
    binary64 number. *)
Lemma refMath_values :
  RefMath.exp 0 = 1%float
  /\ RefMath.pow 2 10 = 1024%float
  /\ RefMath.pow 0 2.4 = 0%float
  /\ RefMath.cbrt 27 = 3%float
  /\ RefMath.cbrt (-8) = (-2)%float
  /\ RefMath.atan2 0 1 = 0%float
  /\ RefMath.atan2 1 0 = RefMath.halfPi
  /\ RefMath.sin 0 = 0%float
  /\ RefMath.cos 0 = 1%float.
Proof.
  repeat split; vm_compute; reflexivity.
Qed.

(** The contrast of black and white is 21 (section 8), and the contrast
    of a colour with itself is 1. *)
Lemma contrastRatio_scenarios :
  M3HCTColor.contrastRatio RefMath.refMath "#000000" "#FFFFFF" = 21%float
  /\ M3HCTColor.contrastRatio RefMath.refMath "#FFFFFF" "#000000" = 21%float
  /\ M3HCTColor.contrastRatio RefMath.refMath "#6750A4" "#6750A4" = 1%float.
Proof.
  repeat split; vm_compute; reflexivity.
Qed.

(** The scenarios of section 8, with the reference library: white text
    on black, black text on white, and a mid grey on which the two
    [getAccessibleTextColor] differ. *)
Lemma getAccessibleTextColor_scenarios :
  M3HCTColor.getAccessibleTextColor RefMath.refMath "#000000" = "#FFFFFF"
  /\ M3HCTColor.getAccessibleTextColor RefMath.refMath "#FFFFFF" = "#000000"
  /\ M3HCTColor.getAccessibleTextColor RefMath.refMath "#808080" = "#000000"
  /\ M3ColorUtils.getAccessibleTextColor RefMath.refMath "#808080" = "#FFFFFF".
Proof.
  repeat split; vm_compute; reflexivity.
Qed.

(* ================================================================= *)
(** ** Comparisons of Numbers *)

Section FloatOrder.

Local Open Scope float_scope.

Lemma SFcompare_antisym (a b : spec_float) :
  SFcompare b a = option_map CompOpp (SFcompare a b).
Proof.
  destruct a as [[]|[]| |[] ma ea], b as [[]|[]| |[] mb eb]; cbn; try reflexivity;
    rewrite (Z.compare_antisym ea eb); destruct (ea ?= eb)%Z; cbn; try reflexivity;
    rewrite (Pos.compare_cont_antisym ma mb Eq); reflexivity.
Qed.

Lemma not_nan_compare (x y : float) :
  is_nan x = false -> is_nan y = false ->
  exists c, SFcompare (Prim2SF x) (Prim2SF y) = Some c.
Proof.
  unfold is_nan. rewrite !eqb_spec. unfold SFeqb. intros Hx Hy.
  destruct (Prim2SF x), (Prim2SF y); cbn in *; try discriminate; eauto.
Qed.

Lemma leb_refl (x : float) : is_nan x = false -> (x <=? x) = true.
Proof.
  unfold is_nan. rewrite eqb_spec, leb_spec. unfold SFeqb, SFleb.
  destruct (SFcompare _ _) as [[]|]; cbn; congruence.
Qed.

Lemma ltb_leb (x y : float) : (x <? y) = true -> (x <=? y) = true.
Proof.
  rewrite ltb_spec, leb_spec. unfold SFltb, SFleb.
  destruct (SFcompare _ _) as [[]|]; congruence.
Qed.

Lemma ltb_false_leb (x y : float) :
  is_nan x = false -> is_nan y = false -> (x <? y) = false -> (y <=? x) = true.
Proof.
  intros Hx Hy. destruct (not_nan_compare x y Hx Hy) as [c Hc].
  rewrite ltb_spec, leb_spec. unfold SFltb, SFleb.
  rewrite (SFcompare_antisym (Prim2SF x) (Prim2SF y)), Hc.
  destruct c; cbn; congruence.
Qed.

(** [Math.min] and [Math.max] of two Numbers that are not NaN: one of
    the two, on the right side of both. *)
Lemma Math_min_spec (x y : float) :
  is_nan x = false -> is_nan y = false ->
  (JS.Math_min x y = x \/ JS.Math_min x y = y)
  /\ (JS.Math_min x y <=? x) = true /\ (JS.Math_min x y <=? y) = true.
Proof.
  intros Hx Hy. unfold JS.Math_min. rewrite Hx, Hy. cbn [orb].
  destruct (x <? y) eqn:Hxy.
  { auto using leb_refl, ltb_leb. }
  destruct (y <? x) eqn:Hyx.
  { auto using leb_refl, ltb_leb. }
  destruct (get_sign x); auto using leb_refl, ltb_false_leb.
Qed.

Lemma Math_max_spec (x y : float) :
  is_nan x = false -> is_nan y = false ->
  (JS.Math_max x y = x \/ JS.Math_max x y = y)
  /\ (x <=? JS.Math_max x y) = true /\ (y <=? JS.Math_max x y) = true.
Proof.
  intros Hx Hy. unfold JS.Math_max. rewrite Hx, Hy. cbn [orb].
  destruct (x <? y) eqn:Hxy.
  { auto using leb_refl, ltb_leb. }
  destruct (y <? x) eqn:Hyx.
  { auto using leb_refl, ltb_leb. }
  destruct (get_sign x); auto using leb_refl, ltb_false_leb.
Qed.

End FloatOrder.

(* ================================================================= *)
(** ** The helpers [adjustHue], [adjustChroma] and [adjustTone] *)

Section Helpers.

Local Open Scope float_scope.

(** X1: for every colour and every delta whose sum with the chroma is a
    number, [adjustChroma] returns a colour whose chroma is at least 0,
    with the hue and the tone of the argument. *)
Lemma adjustChroma_floor (color : HCT) (delta : float) :
  is_nan (chroma color + delta) = false ->
  chromaInRange (M3HCTColor.adjustChroma color delta) = true
  /\ hue (M3HCTColor.adjustChroma color delta) = hue color
  /\ tone (M3HCTColor.adjustChroma color delta) = tone color.
Proof.
  intros Hn. unfold chromaInRange, M3HCTColor.adjustChroma. cbn [chroma hue tone].
  destruct (Math_max_spec 0 (chroma color + delta) eq_refl Hn) as (_ & H0 & _).
  auto.
Qed.

(** X2: for every colour and every delta whose sum with the tone is a
    number, [adjustTone] returns a colour whose tone lies in [[0,100]],
    with the hue and the chroma of the argument. *)
Lemma adjustTone_clamp (color : HCT) (delta : float) :
  is_nan (tone color + delta) = false ->
  toneInRange (M3HCTColor.adjustTone color delta) = true
  /\ hue (M3HCTColor.adjustTone color delta) = hue color
  /\ chroma (M3HCTColor.adjustTone color delta) = chroma color.
Proof.
  intros Hn. unfold toneInRange, M3HCTColor.adjustTone. cbn [chroma hue tone].
  destruct (Math_min_spec 100 (tone color + delta) eq_refl Hn) as (Hm & Hm100 & _).
  assert (Hmn : is_nan (JS.Math_min 100 (tone color + delta)) = false)
    by (destruct Hm as [-> | ->]; [reflexivity | exact Hn]).
  destruct (Math_max_spec 0 (JS.Math_min 100 (tone color + delta)) eq_refl Hmn)
    as (Hr & H0 & _).
  rewrite H0. cbn [andb]. repeat split.
  destruct Hr as [-> | ->]; [reflexivity | exact Hm100].
Qed.

Lemma adjustChroma_floor_witness :
  is_nan (chroma (mkHCT 304 26 66) + -40) = false
  /\ chromaInRange (M3HCTColor.adjustChroma (mkHCT 304 26 66) (-40)) = true
  /\ hue (M3HCTColor.adjustChroma (mkHCT 304 26 66) (-40)) = 304
  /\ tone (M3HCTColor.adjustChroma (mkHCT 304 26 66) (-40)) = 66.
Proof.
  split; [reflexivity|].
  apply (adjustChroma_floor (mkHCT 304 26 66) (-40)). reflexivity.
Defined.

Lemma adjustTone_clamp_witness :
  is_nan (tone (mkHCT 304 26 66) + 80) = false
  /\ toneInRange (M3HCTColor.adjustTone (mkHCT 304 26 66) 80) = true
  /\ hue (M3HCTColor.adjustTone (mkHCT 304 26 66) 80) = 304
  /\ chroma (M3HCTColor.adjustTone (mkHCT 304 26 66) 80) = 26.
Proof.
  split; [reflexivity|].
  apply (adjustTone_clamp (mkHCT 304 26 66) 80). reflexivity.
Defined.

End Helpers.

(** C5 at an input where it fails: a hue of 10 with a delta of -20.
    The operator [%] keeps the sign of the dividend, so the new hue is
    -10, outside [[0,360)], although the colour given satisfies the
    invariants.  With a delta of 355 the same colour wraps to 5. *)
Theorem adjustHue_negative_delta :
  wellFormedHCT (mkHCT 10 20 50) = true
  /\ M3HCTColor.adjustHue (mkHCT 10 20 50) (-20) = mkHCT (-10) 20 50
  /\ hueInRange (M3HCTColor.adjustHue (mkHCT 10 20 50) (-20)) = false
  /\ M3HCTColor.adjustHue (mkHCT 10 20 50) 355 = mkHCT 5 20 50.
Proof.
  repeat split; vm_compute; reflexivity.
Qed.

(* ================================================================= *)
(** ** Scheme generation *)

(** Every [toHex()] throws: [toRgb] is found on the instance, [rgbToHex]
    is not. *)
Lemma toHex_TypeError (M : JS.MathLib) (this : HCT) :
  M3HCTColor.toHex M this = JS.Throw JS.TypeError.
Proof. reflexivity. Qed.

(** So the first statement of [generateSchemeFromColor] that calls it
    ends the call. *)
Lemma scheme_TypeError (M : JS.MathLib) (seed : string) (isDark : bool) :
  M3ColorExtractor.generateSchemeFromColor M seed isDark = JS.Throw JS.TypeError.
Proof.
  unfold M3ColorExtractor.generateSchemeFromColor. cbv zeta.
  now rewrite toHex_TypeError.
Qed.

(** C3 on the code: the call for the seed [#6750A4] in light mode
    returns no mapping.  Its first [toHex()], the one that is to give
    [primary], throws a [TypeError], whatever the [Math] library: the
    method calls [this.rgbToHex], and [rgbToHex] is a static method. *)
Theorem generateSchemeFromColor_seed_light (M : JS.MathLib) :
  M3HCTColor.toHex M (M3HCTColor.fromHex M "#6750A4") = JS.Throw JS.TypeError
  /\ M3ColorExtractor.generateSchemeFromColor M "#6750A4" false = JS.Throw JS.TypeError
  /\ forall scheme,
       M3ColorExtractor.generateSchemeFromColor M "#6750A4" false <> JS.Normal scheme.
Proof.
  split; [apply toHex_TypeError|]. split; [apply scheme_TypeError|].
  intros scheme. rewrite scheme_TypeError. discriminate.
Qed.

(** The conversions behind the call that fails are not inverse to one
    another either: with the reference library the seed 103, 80, 164
    comes back from HCT as 170, 152, 210, which [rgbToHex] writes
    [#AA98D2].  [toRgb] gamma-encodes the channels whereas [rgbToHct]
    feeds [r / 255] to the XYZ matrix without the inverse decoding. *)
Lemma toRgb_seed_values :
  M3HCTColor.hexToRgb "#6750A4" = {| r := 103; g := 80; b := 164 |}
  /\ M3HCTColor.toRgb RefMath.refMath (M3HCTColor.fromHex RefMath.refMath "#6750A4")
     = {| r := 170; g := 152; b := 210 |}
  /\ M3HCTColor.rgbToHex 170 152 210 = "#AA98D2".
Proof.
  repeat split; vm_compute; reflexivity.
Qed.


(* ================================================================= *)
(** ** The stable sort *)

Section Sort.

Context {A : Type} (compare : A -> A -> Z).

Lemma insertSorted_perm (x : A) (l : list A) :
  Permutation (JS.insertSorted compare x l) (x :: l).
Proof.
  induction l as [|y l IH]; cbn; [reflexivity|].
  destruct (compare x y <=? 0); [reflexivity|].
  rewrite IH. apply perm_swap.
Qed.

(** The sorted array holds the elements of the array, each as often. *)
Lemma sort_perm (l : list A) : Permutation (JS.sort compare l) l.
Proof.
  induction l as [|x l IH]; cbn; [reflexivity|].
  fold (JS.sort compare l). rewrite insertSorted_perm. now constructor.
Qed.

Lemma sort_length (l : list A) : List.length (JS.sort compare l) = List.length l.
Proof. apply Permutation_length, sort_perm. Qed.

Lemma sort_In (x : A) (l : list A) : In x (JS.sort compare l) <-> In x l.
Proof.
  split; apply Permutation_in; [| symmetry]; apply sort_perm.
Qed.

End Sort.

(* ================================================================= *)
(** ** The primary colour *)

(** C9: [extractPrimaryColor([])] returns the default seed [#6750A4]; the
    call completes normally. *)
Theorem extractPrimaryColor_empty (M : JS.MathLib) :
  M3ColorExtractor.extractPrimaryColor M [] = JS.Normal "#6750A4".
Proof. reflexivity. Qed.

Section Primary.

Variable M : JS.MathLib.

Lemma scoreColor_color (c : string) : color (M3ColorExtractor.scoreColor M c) = c.
Proof. reflexivity. Qed.

(** On a non-empty list the call returns the colour of the first scored
    element after the sort, which is a colour of the list. *)
Lemma extractPrimaryColor_member (colors : list string) :
  colors <> [] ->
  exists c, M3ColorExtractor.extractPrimaryColor M colors = JS.Normal c /\ In c colors.
Proof.
  intros Hne. unfold M3ColorExtractor.extractPrimaryColor.
  destruct colors as [|c0 rest]; [contradiction|].
  cbn [List.length Nat.eqb].
  set (cmp := fun a b : Scored => score b - score a).
  set (scored := map (M3ColorExtractor.scoreColor M) (c0 :: rest)).
  pose proof (sort_length cmp scored) as Hlen.
  pose proof (sort_In cmp) as Hin.
  destruct (JS.sort cmp scored) as [|first others] eqn:Hs.
  - subst scored. cbn in Hlen. discriminate.
  - exists (color first). split; [reflexivity|].
    assert (Hf : In first scored) by (apply Hin; rewrite Hs; now left).
    subst scored. apply in_map_iff in Hf. destruct Hf as (c & <- & Hc).
    exact Hc.
Qed.

(** The score of pure black: the saturation is [0 / 0], NaN, so neither
    comparison of it holds and its 20 points are not given; what remains
    is -50 for a grey and -30 for a tone below 10. *)
Lemma black_score :
  M3ColorExtractor.saturationOf (M3HCTColor.hexToRgb "#000000") = JS.NaN
  /\ (0.3 <? M3ColorExtractor.saturationOf (M3HCTColor.hexToRgb "#000000"))%float = false
  /\ (M3ColorExtractor.saturationOf (M3HCTColor.hexToRgb "#000000") <? 0.8)%float = false
  /\ score (M3ColorExtractor.scoreColor M "#000000") = -80.
Proof.
  repeat split; vm_compute; reflexivity.
Qed.

End Primary.

(** C10: on every non-empty list of colour strings [extractPrimaryColor]
    completes normally and returns an element of the list; so it does on
    lists that hold pure black, whose saturation [(max - min) / max] is
    NaN: both comparisons are false, black gets no saturation bonus and
    its score is -80.  Valid or not, every string is scored, since
    [M3HCTColor.hexToRgb] never fails. *)
Theorem extractPrimaryColor_total (M : JS.MathLib) :
  (forall colors : list string,
      colors <> [] ->
      exists c, M3ColorExtractor.extractPrimaryColor M colors = JS.Normal c
                /\ In c colors)
  /\ is_nan (M3ColorExtractor.saturationOf (M3HCTColor.hexToRgb "#000000")) = true
  /\ ((0.3 <? M3ColorExtractor.saturationOf (M3HCTColor.hexToRgb "#000000"))%float
      && (M3ColorExtractor.saturationOf (M3HCTColor.hexToRgb "#000000") <? 0.8)%float)
     = false
  /\ score (M3ColorExtractor.scoreColor M "#000000") = -80
  /\ M3ColorExtractor.extractPrimaryColor M ["#000000"] = JS.Normal "#000000".
Proof.
  split; [apply extractPrimaryColor_member|].
  destruct (black_score M) as (Hs & H1 & H2 & Hb).
  split; [rewrite Hs; reflexivity|].
  split; [rewrite H1; reflexivity|].
  split; [exact Hb|].
  vm_compute; reflexivity.
Qed.

(** With the reference library: black loses to any scored colour, and of
    two colours with the same score the first stays first. *)
Lemma extractPrimaryColor_examples :
  M3ColorExtractor.extractPrimaryColor RefMath.refMath ["#000000"; "#6750A4"]
  = JS.Normal "#6750A4"
  /\ M3ColorExtractor.extractPrimaryColor RefMath.refMath ["#000000"; "#FFFFFF"]
     = JS.Normal "#000000"
  /\ M3ColorExtractor.extractPrimaryColor RefMath.refMath ["#FFFFFF"; "#000000"]
     = JS.Normal "#FFFFFF".
Proof.
  repeat split; vm_compute; reflexivity.
Qed.

Lemma extractPrimaryColor_total_witness :
  ["#808080"; "#000000"; "#7F6EA5"] <> []
  /\ exists c,
      M3ColorExtractor.extractPrimaryColor RefMath.refMath ["#808080"; "#000000"; "#7F6EA5"]
      = JS.Normal c
      /\ In c ["#808080"; "#000000"; "#7F6EA5"].
Proof.
  split; [discriminate|].
  apply (proj1 (extractPrimaryColor_total RefMath.refMath)). discriminate.
Defined.

(* ================================================================= *)
(** ** Colours of an image *)

Section Histogram.

Lemma mapSet_not_nil (m : M3ColorExtractor.ColorMap) (key : string) (value : Z) :
  M3ColorExtractor.mapSet m key value <> [].
Proof.
  destruct m as [|[k v] rest]; cbn; [discriminate|].
  destruct (String.eqb k key); discriminate.
Qed.

(** A pixel is counted when its alpha is at least 128. *)
Lemma countPixel_nil (m : M3ColorExtractor.ColorMap) (p : RGBA) :
  M3ColorExtractor.countPixel m p = [] <-> m = [] /\ alpha p < 128.
Proof.
  unfold M3ColorExtractor.countPixel.
  destruct (Z.ltb_spec (alpha p) 128) as [Ha|Ha].
  - intuition.
  - split; [intros H; now apply mapSet_not_nil in H | lia].
Qed.

Lemma fold_countPixel_nil (pixels : list RGBA) (m : M3ColorExtractor.ColorMap) :
  fold_left M3ColorExtractor.countPixel pixels m = []
  <-> m = [] /\ forall p, In p pixels -> alpha p < 128.
Proof.
  revert m. induction pixels as [|p pixels IH]; intros m; cbn.
  - intuition.
  - rewrite IH, countPixel_nil. split.
    + intros [[Hm Hp] Hrest]. split; [exact Hm|].
      intros q [<- | Hq]; auto.
    + intros [Hm Hall]. repeat split; auto.
Qed.

(** The histogram is empty exactly when every pixel is transparent, as
    it is for the empty image. *)
Lemma histogram_nil (pixels : list RGBA) :
  M3ColorExtractor.histogram pixels = [] <-> forall p, In p pixels -> alpha p < 128.
Proof.
  unfold M3ColorExtractor.histogram. rewrite fold_countPixel_nil. intuition.
Qed.

Lemma slice0_nil {A : Type} (a : list A) (endIndex : Z) :
  1 <= endIndex -> (JS.slice0 a endIndex = [] <-> a = []).
Proof.
  intros He. unfold JS.slice0.
  destruct (Z.ltb_spec endIndex 0) as [H|_]; [lia|].
  destruct a as [|x a]; [now destruct (Z.to_nat _)|].
  split; [|discriminate].
  cbn [List.length].
  destruct (Z.to_nat (Z.min endIndex (Z.of_nat (S (List.length a))))) eqn:E; [lia|].
  discriminate.
Qed.

End Histogram.

Section Distinct.

Variable M : JS.MathLib.

(** The loop only adds to [distinctColors], at its end. *)
Lemma filterDistinct_extends (k : Z) (cands : list (string * Z)) (acc : list string) :
  exists more, M3ColorExtractor.filterDistinct M k cands acc = (acc ++ more)%list
               /\ (List.length more <= List.length cands)%nat.
Proof.
  revert acc. induction cands as [|[key n] rest IH]; intros acc; cbn.
  - exists []. now rewrite app_nil_r.
  - destruct (forallb _ acc).
    + destruct (k <=? _).
      * exists [M3ColorExtractor.hexOfKey key]. cbn. split; [reflexivity | lia].
      * destruct (IH (acc ++ [M3ColorExtractor.hexOfKey key])%list) as (more & -> & Hlen).
        exists (M3ColorExtractor.hexOfKey key :: more).
        rewrite <- app_assoc. cbn. split; [reflexivity | lia].
    + destruct (IH acc) as (more & -> & Hlen). exists more. split; [reflexivity | lia].
Qed.

(** The first candidate is kept: no colour is there to be too close to. *)
Lemma filterDistinct_first (k : Z) (cands : list (string * Z)) :
  M3ColorExtractor.filterDistinct M k cands [] = [] <-> cands = [].
Proof.
  destruct cands as [|[key n] rest]; cbn; [intuition|].
  split; [|discriminate].
  destruct (k <=? _); [discriminate|].
  destruct (filterDistinct_extends k rest [M3ColorExtractor.hexOfKey key])
    as (more & -> & _).
  discriminate.
Qed.

Lemma keepDistinct_extends (cands kept : list string) :
  exists more, keepDistinct M cands kept = (kept ++ more)%list.
Proof.
  revert kept. induction cands as [|c rest IH]; intros kept; cbn.
  - exists []. now rewrite app_nil_r.
  - destruct (forallb _ kept); [|apply IH].
    destruct (IH (kept ++ [c])%list) as (more & ->).
    exists (c :: more). now rewrite <- app_assoc.
Qed.

(** The loop with its [break] returns the first [colorCount] of the
    colours the unbounded walk keeps. *)
Lemma filterDistinct_firstn (k : Z) (cands : list (string * Z)) (acc : list string) :
  Z.of_nat (List.length acc) < k ->
  M3ColorExtractor.filterDistinct M k cands acc
  = firstn (Z.to_nat k)
           (keepDistinct M (map (fun e : string * Z => M3ColorExtractor.hexOfKey (fst e)) cands)
                         acc).
Proof.
  revert acc. induction cands as [|[key n] rest IH]; intros acc Hacc; cbn.
  - rewrite firstn_all2; [reflexivity | lia].
  - destruct (forallb _ acc); [|now apply IH].
    destruct (Z.leb_spec k (Z.of_nat (List.length (acc ++ [M3ColorExtractor.hexOfKey key])%list)))
      as [Hk|Hk]; [|now apply IH].
    destruct (keepDistinct_extends
                (map (fun e : string * Z => M3ColorExtractor.hexOfKey (fst e)) rest)
                (acc ++ [M3ColorExtractor.hexOfKey key])%list) as (more & ->).
    assert (Hlen : List.length (acc ++ [M3ColorExtractor.hexOfKey key])%list = Z.to_nat k)
      by (rewrite length_app in *; cbn [List.length] in *; lia).
    rewrite <- Hlen, firstn_app, firstn_all, Nat.sub_diag. cbn [firstn].
    now rewrite app_nil_r.
Qed.

End Distinct.

(** C8, as stated, fails for the count 0: the slice [slice(0, 0)] leaves
    no candidate, so the result is empty although the image has an
    opaque pixel. *)
Lemma extractColorsFromPixels_zero_count :
  let pixels := [mkRGBA 255 0 0 255] in
  M3ColorExtractor.extractColorsFromPixels RefMath.refMath pixels 0 = []
  /\ pixels <> []
  /\ ~ (forall p, In p pixels -> alpha p < 128)
  /\ M3ColorExtractor.extractColorsFromPixels RefMath.refMath pixels 1 = ["#F00000"].
Proof.
  cbv zeta. repeat split; try (vm_compute; reflexivity); try discriminate.
  intros H. specialize (H (mkRGBA 255 0 0 255) (or_introl eq_refl)). cbn in H. lia.
Qed.

(** C8, amended: for every pixel sequence and every count k of at least
    1, [extractColorsFromPixels] returns the first k of the
    distinct-enough colours of the image: at most k colours, and fewer
    than k when the image has fewer than k distinct-enough colours.  The
    result is empty exactly when every pixel has an alpha below 128, as
    in the empty image. *)
Theorem extractColorsFromPixels_count (M : JS.MathLib) (pixels : list RGBA) (k : Z) :
  1 <= k ->
  let colors := M3ColorExtractor.extractColorsFromPixels M pixels k in
  colors = firstn (Z.to_nat k) (distinctEnoughColors M pixels k)
  /\ Z.of_nat (List.length colors) <= k
  /\ (Z.of_nat (List.length (distinctEnoughColors M pixels k)) < k ->
      Z.of_nat (List.length colors) < k)
  /\ (colors = [] <-> forall p, In p pixels -> alpha p < 128).
Proof.
  intros Hk colors.
  assert (Hfirst : colors = firstn (Z.to_nat k) (distinctEnoughColors M pixels k)).
  { subst colors. unfold M3ColorExtractor.extractColorsFromPixels.
    rewrite filterDistinct_firstn by (cbn; lia). reflexivity. }
  split; [exact Hfirst|].
  split; [rewrite Hfirst, length_firstn; lia|].
  split; [rewrite Hfirst, length_firstn; lia|].
  subst colors. unfold M3ColorExtractor.extractColorsFromPixels.
  set (cmp := fun a b : string * Z => snd b - snd a).
  rewrite filterDistinct_first, slice0_nil by lia. rewrite <- histogram_nil.
  split; intros H; apply length_zero_iff_nil.
  - rewrite <- (sort_length cmp). now rewrite H.
  - rewrite sort_length. now rewrite H.
Qed.

Lemma extractColorsFromPixels_count_witness :
  let pixels := [mkRGBA 255 0 0 255; mkRGBA 250 3 5 200; mkRGBA 0 0 0 0;
                 mkRGBA 10 200 30 255; mkRGBA 255 255 255 255] in
  let colors := M3ColorExtractor.extractColorsFromPixels RefMath.refMath pixels 2 in
  1 <= 2
  /\ colors = firstn (Z.to_nat 2) (distinctEnoughColors RefMath.refMath pixels 2)
  /\ Z.of_nat (List.length colors) <= 2
  /\ (Z.of_nat (List.length (distinctEnoughColors RefMath.refMath pixels 2)) < 2 ->
      Z.of_nat (List.length colors) < 2)
  /\ (colors = [] <-> forall p, In p pixels -> alpha p < 128).
Proof.
  cbv zeta. split; [lia|].
  apply (extractColorsFromPixels_count RefMath.refMath
           [mkRGBA 255 0 0 255; mkRGBA 250 3 5 200; mkRGBA 0 0 0 0;
            mkRGBA 10 200 30 255; mkRGBA 255 255 255 255] 2).
  lia.
Defined.

(** The colours of an image of two reds, a green and a white, for the
    counts 5, 2 and 1: the image has three distinct-enough colours. *)
Lemma extractColorsFromPixels_examples :
  let pixels := [mkRGBA 255 0 0 255; mkRGBA 250 3 5 200; mkRGBA 0 0 0 0;
                 mkRGBA 10 200 30 255; mkRGBA 255 255 255 255] in
  M3ColorExtractor.extractColorsFromPixels RefMath.refMath pixels 5
  = ["#F00000"; "#00C010"; "#F0F0F0"]
  /\ M3ColorExtractor.extractColorsFromPixels RefMath.refMath pixels 2
     = ["#F00000"; "#00C010"]
  /\ M3ColorExtractor.extractColorsFromPixels RefMath.refMath pixels 1 = ["#F00000"]
  /\ M3ColorExtractor.extractColorsFromPixels RefMath.refMath [] 5 = []
  /\ M3ColorExtractor.extractColorsFromPixels RefMath.refMath [mkRGBA 9 9 9 127] 5 = [].
Proof.
  cbv zeta. repeat split; vm_compute; reflexivity.
Qed.

(** The keys of the histogram read back as the quantised channels: for
    every pixel of bytes the key of its bucket yields the hex string of
    the three quantised channels. *)
Lemma hexOfKey_colorKeyOf (p : RGBA) :
  0 <= red p <= 255 -> 0 <= green p <= 255 -> 0 <= blue p <= 255 ->
  M3ColorExtractor.hexOfKey
    (M3ColorExtractor.colorKeyOf (red p / 16 * 16) (green p / 16 * 16) (blue p / 16 * 16))
  = M3HCTColor.rgbToHex (JS.ofZ (red p / 16 * 16)) (JS.ofZ (green p / 16 * 16))
                        (JS.ofZ (blue p / 16 * 16)).
Proof.
  intros Hr Hg Hb.
  set (nibbles := map Z.of_nat (seq 0 16)).
  assert (Hn : forall c, 0 <= c <= 255 -> In (c / 16) nibbles).
  { intros c Hc. subst nibbles.
    replace (c / 16) with (Z.of_nat (Z.to_nat (c / 16)))
      by (apply Z2Nat.id, Z.div_pos; lia).
    apply in_map, in_seq.
    assert (c / 16 < 16) by (apply Z.div_lt_upper_bound; lia).
    assert (0 <= c / 16) by (apply Z.div_pos; lia). lia. }
  assert (Hall : forallb (fun x => forallb (fun y => forallb (fun z =>
            String.eqb
              (M3ColorExtractor.hexOfKey (M3ColorExtractor.colorKeyOf (x * 16) (y * 16) (z * 16)))
              (M3HCTColor.rgbToHex (JS.ofZ (x * 16)) (JS.ofZ (y * 16)) (JS.ofZ (z * 16))))
            nibbles) nibbles) nibbles = true)
    by (vm_compute; reflexivity).
  rewrite forallb_forall in Hall. specialize (Hall _ (Hn _ Hr)).
  rewrite forallb_forall in Hall. specialize (Hall _ (Hn _ Hg)).
  rewrite forallb_forall in Hall. specialize (Hall _ (Hn _ Hb)).
  now apply String.eqb_eq.
Qed.

(* ================================================================= *)
(** ** More on the codec *)

Lemma allAscii_complete (c : ascii) : In c allAscii.
Proof.
  unfold allAscii. rewrite <- (ascii_nat_embedding c).
  apply in_map, in_seq. pose proof (nat_ascii_bounded c). lia.
Qed.

Lemma pairCheck_all (a b : ascii) : pairCheck a b = true.
Proof.
  assert (H : forallb (fun a => forallb (pairCheck a) allAscii) allAscii = true)
    by (vm_compute; reflexivity).
  rewrite forallb_forall in H. specialize (H a (allAscii_complete a)).
  rewrite forallb_forall in H. apply H, allAscii_complete.
Qed.

(** A capture of the pattern reads as a byte, whose two-digit form is
    the capture in upper case. *)
Lemma capture_byte (a b : ascii) :
  JS.hexClass a = true -> JS.hexClass b = true ->
  exists n, 0 <= n <= 255
    /\ JS.parseInt16 (String a (String b EmptyString)) = JS.ofZ n
    /\ Spec.twoHex n = String (JS.upperChar a) (String (JS.upperChar b) EmptyString).
Proof.
  intros Ha Hb. pose proof (pairCheck_all a b) as H.
  unfold pairCheck in H. rewrite Ha, Hb in H. cbn [andb implb] in H.
  unfold JS.parseInt16.
  destruct (JS.parseInt16Z _) as [n|]; [|discriminate].
  apply andb_true_iff in H. destruct H as [H Ht].
  apply andb_true_iff in H. destruct H as [H0 H1].
  exists n. split; [lia|]. split; [reflexivity|]. now apply String.eqb_eq.
Qed.

Lemma groups3_inv (s g1 g2 g3 : string) :
  JS.groups3 s = Some (g1, g2, g3) ->
  exists a1 b1 a2 b2 a3 b3,
    s = g1 ++ g2 ++ g3
    /\ g1 = String a1 (String b1 EmptyString)
    /\ g2 = String a2 (String b2 EmptyString)
    /\ g3 = String a3 (String b3 EmptyString)
    /\ JS.hexClass a1 = true /\ JS.hexClass b1 = true
    /\ JS.hexClass a2 = true /\ JS.hexClass b2 = true
    /\ JS.hexClass a3 = true /\ JS.hexClass b3 = true.
Proof.
  unfold JS.groups3, JS.group2.
  destruct s as [|c1 [|c2 [|c3 [|c4 [|c5 [|c6 [|c7 s]]]]]]];
    repeat match goal with
           | |- context [JS.hexClass ?c] =>
               let E := fresh "E" in destruct (JS.hexClass c) eqn:E; cbn [andb]
           end;
    try discriminate.
  intros H. injection H as <- <- <-.
  exists c1, c2, c3, c4, c5, c6. repeat split; assumption.
Qed.

Lemma hexRegexExec_inv (s g1 g2 g3 : string) :
  JS.hexRegexExec s = Some (g1, g2, g3) ->
  JS.groups3 (g1 ++ g2 ++ g3) = Some (g1, g2, g3)
  /\ (s = g1 ++ g2 ++ g3 \/ s = "#" ++ g1 ++ g2 ++ g3).
Proof.
  unfold JS.hexRegexExec. destruct s as [|c rest]; [discriminate|].
  destruct (Ascii.eqb_spec c "#"%char) as [->|Hc].
  - rewrite groups3_hash. destruct (JS.groups3 rest) as [[[h1 h2] h3]|] eqn:E; [|discriminate].
    intros H. injection H as <- <- <-.
    destruct (groups3_inv _ _ _ _ E) as (a1 & b1 & a2 & b2 & a3 & b3 & Hs & _).
    rewrite <- Hs. split; [exact E | now right].
  - assert (E : forall (X : Type) (x y : X),
               match c with "#"%char => x | _ => y end = y).
    { intros X x y.
      destruct c as [[] [] [] [] [] [] [] []]; try reflexivity. now elim Hc. }
    rewrite E. intros H.
    destruct (groups3_inv _ _ _ _ H) as (a1 & b1 & a2 & b2 & a3 & b3 & Hs & _).
    rewrite <- Hs. auto.
Qed.

Lemma upperChar_upperHex (c : ascii) :
  Spec.isUpperHexDigit c = true -> JS.upperChar c = c.
Proof.
  destruct c as [[] [] [] [] [] [] [] []]; vm_compute; intros H;
    first [reflexivity | discriminate H].
Qed.

Lemma toUpperCase_upperHex (s : string) :
  forallb Spec.isUpperHexDigit (list_ascii_of_string s) = true -> JS.toUpperCase s = s.
Proof.
  induction s as [|c s IH]; cbn; [reflexivity|].
  intros H. apply andb_true_iff in H. destruct H as [Hc Hs].
  now rewrite (upperChar_upperHex c Hc), IH.
Qed.

(** X4: whatever the string, the channels that [M3HCTColor.hexToRgb]
    returns are integers from 0 to 255 (black for a string that is no
    hex colour), and [M3ColorUtils.hexToRgb] returns [null] or the same
    three channels. *)
Theorem hexToRgb_channels (hex : string) :
  exists r g b : Z,
    0 <= r <= 255 /\ 0 <= g <= 255 /\ 0 <= b <= 255
    /\ M3HCTColor.hexToRgb hex = {| r := JS.ofZ r; g := JS.ofZ g; b := JS.ofZ b |}
    /\ (M3ColorUtils.hexToRgb hex = None
        \/ M3ColorUtils.hexToRgb hex
           = Some {| r := JS.ofZ r; g := JS.ofZ g; b := JS.ofZ b |}).
Proof.
  unfold M3HCTColor.hexToRgb, M3ColorUtils.hexToRgb.
  destruct (JS.hexRegexExec hex) as [[[g1 g2] g3]|] eqn:E.
  - destruct (hexRegexExec_inv _ _ _ _ E) as [E3 _].
    destruct (groups3_inv _ _ _ _ E3)
      as (a1 & b1 & a2 & b2 & a3 & b3 & _ & -> & -> & -> & H1 & H2 & H3 & H4 & H5 & H6).
    destruct (capture_byte a1 b1 H1 H2) as (r & Hr & -> & _).
    destruct (capture_byte a2 b2 H3 H4) as (g & Hg & -> & _).
    destruct (capture_byte a3 b3 H5 H6) as (b & Hb & -> & _).
    exists r, g, b. repeat split; try lia. now right.
  - exists 0, 0, 0. repeat split; try lia. now left.
Qed.

(** X5: for a hex colour string (six hex digits, the [#] optional, in
    either case), [rgbToHex] of the channels that [hexToRgb] reads is the
    string in canonical form, [#] and the six digits in upper case; so a
    string that is canonical already comes back unchanged. *)
Theorem rgbToHex_hexToRgb (hex : string) :
  Spec.isHexColorString hex = true ->
  let rgb := M3HCTColor.hexToRgb hex in
  M3HCTColor.rgbToHex (r rgb) (g rgb) (b rgb) = canonicalForm hex
  /\ Spec.isCanonicalHex (canonicalForm hex) = true
  /\ (Spec.isCanonicalHex hex = true -> canonicalForm hex = hex).
Proof.
  intros Hv rgb. subst rgb. unfold M3HCTColor.hexToRgb.
  rewrite <- hexRegexExec_spec in Hv.
  destruct (JS.hexRegexExec hex) as [[[g1 g2] g3]|] eqn:E; [clear Hv | discriminate].
  destruct (hexRegexExec_inv _ _ _ _ E) as [E3 Hs].
  destruct (groups3_inv _ _ _ _ E3)
    as (a1 & b1 & a2 & b2 & a3 & b3 & _ & -> & -> & -> & H1 & H2 & H3 & H4 & H5 & H6).
  destruct (capture_byte a1 b1 H1 H2) as (n1 & Hr & -> & Tr).
  destruct (capture_byte a2 b2 H3 H4) as (n2 & Hg & -> & Tg).
  destruct (capture_byte a3 b3 H5 H6) as (n3 & Hb & -> & Tb).
  cbn [r g b].
  change M3HCTColor.rgbToHex with M3ColorUtils.rgbToHex.
  rewrite (rgbToHex_bytes n1 n2 n3 Hr Hg Hb), Tr, Tg, Tb.
  assert (Hc : canonicalForm hex
               = "#" ++ String (JS.upperChar a1) (String (JS.upperChar b1)
                   (String (JS.upperChar a2) (String (JS.upperChar b2)
                   (String (JS.upperChar a3) (String (JS.upperChar b3) EmptyString)))))).
  { unfold canonicalForm. destruct Hs as [-> | ->]; cbn [append JS.toUpperCase]; [|reflexivity].
    destruct (Ascii.eqb_spec a1 "#"%char) as [->|Hne]; [discriminate H1|].
    assert (En : forall (X : Type) (x y : X),
               match a1 with "#"%char => x | _ => y end = y).
    { intros X x y.
      destruct a1 as [[] [] [] [] [] [] [] []]; try reflexivity. now elim Hne. }
    rewrite En. reflexivity. }
  split; [now rewrite Hc|].
  split.
  - rewrite Hc. cbn [append Spec.isCanonicalHex String.length Nat.eqb list_ascii_of_string forallb andb].
    destruct (twoHex_digits n1 Hr) as (x1 & x2 & Ex & U1 & U2 & _).
    destruct (twoHex_digits n2 Hg) as (y1 & y2 & Ey & V1 & V2 & _).
    destruct (twoHex_digits n3 Hb) as (z1 & z2 & Ez & W1 & W2 & _).
    rewrite Tr in Ex. rewrite Tg in Ey. rewrite Tb in Ez.
    injection Ex as -> ->. injection Ey as -> ->. injection Ez as -> ->.
    now rewrite U1, U2, V1, V2, W1, W2.
  - unfold Spec.isCanonicalHex, canonicalForm.
    destruct hex as [|c digits]; [discriminate|].
    destruct (Ascii.eqb_spec c "#"%char) as [->|Hne].
    + intros H. apply andb_true_iff in H. destruct H as [_ H].
      now rewrite (toUpperCase_upperHex digits H).
    + assert (En : forall (X : Type) (x y : X),
               match c with "#"%char => x | _ => y end = y).
      { intros X x y.
        destruct c as [[] [] [] [] [] [] [] []]; try reflexivity. now elim Hne. }
      rewrite (En bool). discriminate.
Qed.

Lemma rgbToHex_hexToRgb_witness :
  Spec.isHexColorString "6750a4" = true
  /\ (let rgb := M3HCTColor.hexToRgb "6750a4" in
      M3HCTColor.rgbToHex (r rgb) (g rgb) (b rgb) = "#6750A4").
Proof.
  split; [reflexivity|].
  exact (proj1 (rgbToHex_hexToRgb "6750a4" eq_refl)).
Defined.

(* ================================================================= *)
(** ** More on contrast *)

Section FloatSymmetry.

Local Open Scope float_scope.

Lemma SFcompare_Eq (a b : spec_float) :
  SFcompare a b = Some Eq ->
  a = b \/ exists s s', a = S754_zero s /\ b = S754_zero s'.
Proof.
  destruct a as [sa|sa| |sa ma ea], b as [sb|sb| |sb mb eb]; cbn;
    try discriminate; try (destruct sa; discriminate); try (destruct sb; discriminate).
  - intros _. right. eauto.
  - destruct sa, sb; try discriminate; now left.
  - destruct sa, sb; try discriminate;
      destruct (Z.compare_spec ea eb) as [->| |]; try discriminate;
      intros H;
      assert (Hm : Pos.compare ma mb = Eq)
        by (unfold Pos.compare; destruct (Pos.compare_cont Eq ma mb); cbn in H; congruence);
      apply Pos.compare_eq in Hm; subst; now left.
Qed.

Lemma ltb_antisym (x y : float) : (x <? y) = true -> (y <? x) = false.
Proof.
  rewrite !ltb_spec. unfold SFltb.
  rewrite (SFcompare_antisym (Prim2SF x) (Prim2SF y)).
  destruct (SFcompare (Prim2SF x) (Prim2SF y)) as [[]|]; cbn; congruence.
Qed.

Lemma zero_cases (x : float) (s : bool) :
  Prim2SF x = S754_zero s -> x = if s then neg_zero else zero.
Proof.
  intros H. rewrite <- (SF2Prim_Prim2SF x), H. now destruct s.
Qed.

(** Two Numbers neither of which is NaN nor below the other are the same
    Number or two zeros. *)
Lemma not_ltb_cases (x y : float) :
  is_nan x = false -> is_nan y = false -> (x <? y) = false -> (y <? x) = false ->
  x = y \/ ((x = zero \/ x = neg_zero) /\ (y = zero \/ y = neg_zero)).
Proof.
  intros Hx Hy Hxy Hyx.
  destruct (not_nan_compare x y Hx Hy) as [c Hc].
  rewrite ltb_spec in Hxy, Hyx. unfold SFltb in Hxy, Hyx.
  rewrite (SFcompare_antisym (Prim2SF x) (Prim2SF y)), Hc in Hyx. rewrite Hc in Hxy.
  destruct c; cbn in *; try discriminate.
  destruct (SFcompare_Eq _ _ Hc) as [E | (s & s' & Ex & Ey)].
  - left. now apply Prim2SF_inj.
  - right. apply zero_cases in Ex, Ey. destruct s, s'; auto.
Qed.

Lemma Math_max_comm (x y : float) : JS.Math_max x y = JS.Math_max y x.
Proof.
  unfold JS.Math_max. rewrite (orb_comm (is_nan y)).
  destruct (is_nan x) eqn:Hx, (is_nan y) eqn:Hy; cbn [orb]; try reflexivity.
  destruct (x <? y) eqn:Hxy.
  { now rewrite (ltb_antisym x y Hxy). }
  destruct (y <? x) eqn:Hyx; [reflexivity|].
  destruct (not_ltb_cases x y Hx Hy Hxy Hyx) as [-> | [[-> | ->] [-> | ->]]];
    try reflexivity; now destruct (get_sign y).
Qed.

Lemma Math_min_comm (x y : float) : JS.Math_min x y = JS.Math_min y x.
Proof.
  unfold JS.Math_min. rewrite (orb_comm (is_nan y)).
  destruct (is_nan x) eqn:Hx, (is_nan y) eqn:Hy; cbn [orb]; try reflexivity.
  destruct (x <? y) eqn:Hxy.
  { now rewrite (ltb_antisym x y Hxy). }
  destruct (y <? x) eqn:Hyx; [reflexivity|].
  destruct (not_ltb_cases x y Hx Hy Hxy Hyx) as [-> | [[-> | ->] [-> | ->]]];
    try reflexivity; now destruct (get_sign y).
Qed.

End FloatSymmetry.

(** X6: both contrast ratios are symmetric in their two colours,
    whatever the strings and whatever the library computes for [pow]. *)
Theorem contrastRatio_symmetric (M : JS.MathLib) (color1 color2 : string) :
  M3HCTColor.contrastRatio M color1 color2 = M3HCTColor.contrastRatio M color2 color1
  /\ M3ColorUtils.contrastRatio M color1 color2 = M3ColorUtils.contrastRatio M color2 color1.
Proof.
  split.
  - unfold M3HCTColor.contrastRatio. cbv zeta.
    now rewrite Math_max_comm, Math_min_comm.
  - unfold M3ColorUtils.contrastRatio.
    destruct (M3ColorUtils.hexToRgb color1), (M3ColorUtils.hexToRgb color2); try reflexivity.
    cbv zeta. now rewrite Math_max_comm, Math_min_comm.
Qed.

Lemma hexToRgb_agree (hex : string) :
  Spec.isHexColorString hex = true ->
  M3ColorUtils.hexToRgb hex = Some (M3HCTColor.hexToRgb hex).
Proof.
  rewrite <- hexRegexExec_spec.
  unfold M3ColorUtils.hexToRgb, M3HCTColor.hexToRgb.
  now destruct (JS.hexRegexExec hex) as [[[g1 g2] g3]|].
Qed.

Lemma hexToRgb_black : M3HCTColor.hexToRgb "#000000" = {| r := 0; g := 0; b := 0 |}.
Proof. vm_compute. reflexivity. Qed.

Lemma hexToRgb_malformed_black (hex : string) :
  Spec.isHexColorString hex = false ->
  M3ColorUtils.hexToRgb hex = None
  /\ M3HCTColor.hexToRgb hex = M3HCTColor.hexToRgb "#000000".
Proof.
  intros H. apply hexRegexExec_none in H. rewrite hexToRgb_black.
  unfold M3ColorUtils.hexToRgb, M3HCTColor.hexToRgb. now rewrite H.
Qed.

(** X7: on two hex colour strings [M3ColorUtils.contrastRatio] and
    [M3HCTColor.contrastRatio] return the same number, and the two
    luminance functions behind them are the same function. *)
Theorem contrastRatio_agree (M : JS.MathLib) (color1 color2 : string) :
  Spec.isHexColorString color1 = true ->
  Spec.isHexColorString color2 = true ->
  M3ColorUtils.contrastRatio M color1 color2 = M3HCTColor.contrastRatio M color1 color2
  /\ M3ColorUtils.calculateLuminance M = M3HCTColor.relativeLuminance M.
Proof.
  intros H1 H2. split; [|reflexivity].
  unfold M3ColorUtils.contrastRatio.
  now rewrite (hexToRgb_agree color1 H1), (hexToRgb_agree color2 H2).
Qed.

Lemma contrastRatio_agree_witness :
  Spec.isHexColorString "#6750A4" = true
  /\ Spec.isHexColorString "ffffff" = true
  /\ M3ColorUtils.contrastRatio RefMath.refMath "#6750A4" "ffffff"
     = M3HCTColor.contrastRatio RefMath.refMath "#6750A4" "ffffff".
Proof.
  split; [reflexivity|]. split; [reflexivity|].
  exact (proj1 (contrastRatio_agree RefMath.refMath "#6750A4" "ffffff" eq_refl eq_refl)).
Defined.

(** X8: a string that is no hex colour is read as a default by every
    function that parses it.  [M3ColorUtils] gives it the contrast ratio
    1 against every colour and the text colour [#000000]; [M3HCTColor]
    treats it as [#000000] in [fromHex], [contrastRatio] and
    [getAccessibleTextColor]; and [extractPrimaryColor] scores it -80. *)
Theorem malformed_color_defaults (M : JS.MathLib) (hex other : string) :
  Spec.isHexColorString hex = false ->
  M3ColorUtils.contrastRatio M hex other = 1%float
  /\ M3ColorUtils.contrastRatio M other hex = 1%float
  /\ M3ColorUtils.getAccessibleTextColor M hex = "#000000"
  /\ M3HCTColor.fromHex M hex = M3HCTColor.fromHex M "#000000"
  /\ M3HCTColor.contrastRatio M hex other = M3HCTColor.contrastRatio M "#000000" other
  /\ M3HCTColor.getAccessibleTextColor M hex = M3HCTColor.getAccessibleTextColor M "#000000"
  /\ score (M3ColorExtractor.scoreColor M hex) = -80.
Proof.
  intros H. destruct (hexToRgb_malformed_black hex H) as [Hu Hh].
  assert (Hf : M3HCTColor.fromHex M hex = M3HCTColor.fromHex M "#000000")
    by (unfold M3HCTColor.fromHex; now rewrite Hh).
  split; [unfold M3ColorUtils.contrastRatio; now rewrite Hu|].
  split; [unfold M3ColorUtils.contrastRatio; rewrite Hu;
          now destruct (M3ColorUtils.hexToRgb other)|].
  split; [unfold M3ColorUtils.getAccessibleTextColor; now rewrite Hu|].
  split; [exact Hf|].
  assert (Hc : forall c, M3HCTColor.contrastRatio M hex c
                         = M3HCTColor.contrastRatio M "#000000" c)
    by (intros c; unfold M3HCTColor.contrastRatio; now rewrite Hh).
  split; [apply Hc|].
  split; [unfold M3HCTColor.getAccessibleTextColor; now rewrite !Hc, Hh|].
  rewrite <- (proj2 (proj2 (proj2 (black_score M)))).
  unfold M3ColorExtractor.scoreColor. now rewrite Hf, Hh.
Qed.

Lemma malformed_color_defaults_witness :
  Spec.isHexColorString "#67A" = false
  /\ M3ColorUtils.contrastRatio RefMath.refMath "#67A" "#FFFFFF" = 1%float
  /\ M3ColorUtils.getAccessibleTextColor RefMath.refMath "#67A" = "#000000"
  /\ score (M3ColorExtractor.scoreColor RefMath.refMath "#67A") = -80.
Proof.
  split; [reflexivity|].
  pose proof (malformed_color_defaults RefMath.refMath "#67A" "#FFFFFF" eq_refl) as H.
  split; [exact (proj1 H)|].
  split; [exact (proj1 (proj2 (proj2 H)))|].
  exact (proj2 (proj2 (proj2 (proj2 (proj2 (proj2 H)))))).
Defined.


(* ================================================================= *)
(** ** More on the histogram and the colours of an image *)

Section HistogramFacts.

Lemma countPixel_transparent (m : M3ColorExtractor.ColorMap) (p : RGBA) :
  isOpaque p = false -> M3ColorExtractor.countPixel m p = m.
Proof.
  unfold isOpaque, M3ColorExtractor.countPixel. now destruct (alpha p <? 128).
Qed.

Lemma countPixel_opaque (m : M3ColorExtractor.ColorMap) (p : RGBA) :
  isOpaque p = true ->
  M3ColorExtractor.countPixel m p
  = M3ColorExtractor.mapSet m (bucketKey p)
      (match M3ColorExtractor.mapGet m (bucketKey p) with Some n => n | None => 0 end + 1).
Proof.
  unfold isOpaque, M3ColorExtractor.countPixel. now destruct (alpha p <? 128).
Qed.

Lemma quantize_idem (c : Z) : c / 16 * 16 / 16 * 16 = c / 16 * 16.
Proof. now rewrite Z.div_mul by lia. Qed.

Lemma countPixel_quantize (m : M3ColorExtractor.ColorMap) (p : RGBA) :
  M3ColorExtractor.countPixel m (quantize p) = M3ColorExtractor.countPixel m p.
Proof.
  unfold M3ColorExtractor.countPixel, quantize. cbn [red green blue alpha].
  now rewrite !quantize_idem.
Qed.

Lemma histogram_from (pixels : list RGBA) (m : M3ColorExtractor.ColorMap) :
  fold_left M3ColorExtractor.countPixel (map quantize (filter isOpaque pixels)) m
  = fold_left M3ColorExtractor.countPixel pixels m.
Proof.
  revert m. induction pixels as [|p pixels IH]; intros m; cbn; [reflexivity|].
  destruct (isOpaque p) eqn:Hp; cbn.
  - now rewrite countPixel_quantize, IH.
  - now rewrite (countPixel_transparent m p Hp), IH.
Qed.

Lemma mapSet_keys (m : M3ColorExtractor.ColorMap) (key : string) (value : Z) :
  map fst (M3ColorExtractor.mapSet m key value)
  = match M3ColorExtractor.mapGet m key with
    | Some _ => map fst m
    | None => (map fst m ++ [key])%list
    end.
Proof.
  induction m as [|[k v] rest IH]; cbn; [reflexivity|].
  destruct (String.eqb k key); cbn; [reflexivity|].
  rewrite IH. now destruct (M3ColorExtractor.mapGet rest key).
Qed.

Lemma mapGet_None (m : M3ColorExtractor.ColorMap) (key : string) :
  M3ColorExtractor.mapGet m key = None -> ~ In key (map fst m).
Proof.
  induction m as [|[k v] rest IH]; cbn; [tauto|].
  destruct (String.eqb_spec k key); [discriminate|].
  intros H [E | Hin]; [contradiction | now apply IH].
Qed.

Lemma mapSet_NoDup (m : M3ColorExtractor.ColorMap) (key : string) (value : Z) :
  NoDup (map fst m) -> NoDup (map fst (M3ColorExtractor.mapSet m key value)).
Proof.
  intros Hn. rewrite mapSet_keys.
  destruct (M3ColorExtractor.mapGet m key) eqn:E; [exact Hn|].
  apply mapGet_None in E.
  apply NoDup_rev in Hn. rewrite <- (rev_involutive (map fst m ++ [key])%list).
  apply NoDup_rev. rewrite rev_app_distr. cbn. constructor; [|exact Hn].
  now rewrite <- in_rev.
Qed.

Lemma totalCount_cons (entry : string * Z) (m : M3ColorExtractor.ColorMap) :
  totalCount (entry :: m) = snd entry + totalCount m.
Proof. reflexivity. Qed.

Lemma mapSet_total (m : M3ColorExtractor.ColorMap) (key : string) :
  totalCount (M3ColorExtractor.mapSet m key
                (match M3ColorExtractor.mapGet m key with Some n => n | None => 0 end + 1))
  = totalCount m + 1.
Proof.
  induction m as [|[k v] rest IH]; [reflexivity|].
  cbn [M3ColorExtractor.mapSet M3ColorExtractor.mapGet].
  destruct (String.eqb k key); rewrite !totalCount_cons; cbn [snd]; [lia|].
  rewrite IH. lia.
Qed.

Lemma mapSet_positive (m : M3ColorExtractor.ColorMap) (key : string) :
  Forall (fun entry => 1 <= snd entry) m ->
  Forall (fun entry => 1 <= snd entry)
         (M3ColorExtractor.mapSet m key
            (match M3ColorExtractor.mapGet m key with Some n => n | None => 0 end + 1)).
Proof.
  induction m as [|[k v] rest IH]; cbn; intros H.
  - repeat constructor. cbn. lia.
  - inversion H as [|? ? Hv Hrest]; subst. cbn in Hv.
    destruct (String.eqb k key); constructor; cbn; auto; lia.
Qed.

Lemma mapSet_entries (P : string -> Prop) (m : M3ColorExtractor.ColorMap)
      (key : string) (value : Z) :
  P key -> Forall (fun entry => P (fst entry)) m ->
  Forall (fun entry => P (fst entry)) (M3ColorExtractor.mapSet m key value).
Proof.
  intros Hk. induction m as [|[k v] rest IH]; cbn; intros H.
  - now repeat constructor.
  - inversion H as [|? ? Hv Hrest]; subst.
    destruct (String.eqb k key); constructor; auto.
Qed.

(** What the first loop keeps true of the map. *)
Lemma fold_countPixel_invariant (pixels : list RGBA) (m : M3ColorExtractor.ColorMap)
      (P : string -> Prop) :
  (forall p, In p pixels -> isOpaque p = true -> P (bucketKey p)) ->
  NoDup (map fst m) ->
  Forall (fun entry => 1 <= snd entry) m ->
  Forall (fun entry => P (fst entry)) m ->
  let m' := fold_left M3ColorExtractor.countPixel pixels m in
  NoDup (map fst m')
  /\ Forall (fun entry => 1 <= snd entry) m'
  /\ Forall (fun entry => P (fst entry)) m'
  /\ totalCount m' = totalCount m + Z.of_nat (List.length (filter isOpaque pixels)).
Proof.
  revert m. induction pixels as [|p pixels IH]; intros m HP Hn Hpos Hm;
    cbn [fold_left filter].
  - repeat split; auto. cbn [List.length Z.of_nat]. lia.
  - assert (HP' : forall q, In q pixels -> isOpaque q = true -> P (bucketKey q))
      by (intros q Hq; apply HP; now right).
    destruct (isOpaque p) eqn:Hp.
    + rewrite (countPixel_opaque m p Hp).
      destruct (IH _ HP' (mapSet_NoDup m _ _ Hn) (mapSet_positive m _ Hpos)
                   (mapSet_entries P m _ _ (HP p (or_introl eq_refl) Hp) Hm))
        as (H1 & H2 & H3 & H4).
      repeat split; auto. rewrite H4, mapSet_total. cbn [List.length]. lia.
    + rewrite (countPixel_transparent m p Hp).
      destruct (IH _ HP' Hn Hpos Hm) as (H1 & H2 & H3 & H4). repeat split; auto.
Qed.

End HistogramFacts.

(** X11: the histogram of the first loop has each key once and every
    count at least 1; each key is the bucket of a pixel with alpha of
    128 or more; and the counts add up to the number of such pixels. *)
Theorem histogram_counts (pixels : list RGBA) :
  let colorMap := M3ColorExtractor.histogram pixels in
  NoDup (map fst colorMap)
  /\ Forall (fun entry => 1 <= snd entry) colorMap
  /\ Forall (fun entry => exists p, In p pixels /\ isOpaque p = true
                                    /\ fst entry = bucketKey p) colorMap
  /\ totalCount colorMap = Z.of_nat (List.length (filter isOpaque pixels)).
Proof.
  apply (fold_countPixel_invariant pixels []
           (fun key => exists p, In p pixels /\ isOpaque p = true /\ key = bucketKey p)).
  - intros p Hin Hp. eauto.
  - constructor.
  - constructor.
  - constructor.
Qed.

(** X12: the colours extracted do not change when the pixels with alpha
    below 128 are dropped and the low four bits of every channel are
    cleared. *)
Theorem extractColorsFromPixels_quantized (M : JS.MathLib) (pixels : list RGBA) (k : Z) :
  M3ColorExtractor.extractColorsFromPixels M (map quantize (filter isOpaque pixels)) k
  = M3ColorExtractor.extractColorsFromPixels M pixels k.
Proof.
  unfold M3ColorExtractor.extractColorsFromPixels, M3ColorExtractor.histogram.
  now rewrite histogram_from.
Qed.

Section BucketColors.

Lemma twoHex_value (n : Z) :
  0 <= n <= 255 -> JS.parseInt16Z (Spec.twoHex n) = Some n.
Proof.
  intros Hn.
  pose proof (byte_cases (fun n =>
      match JS.parseInt16Z (Spec.twoHex n) with
      | Some m => m =? n
      | None => false
      end) ltac:(vm_compute; reflexivity) n Hn) as Hc.
  cbv beta in Hc.
  destruct (JS.parseInt16Z (Spec.twoHex n)); [|discriminate].
  apply Z.eqb_eq in Hc. now subst.
Qed.

Lemma twoHex_inj (m n : Z) :
  0 <= m <= 255 -> 0 <= n <= 255 -> Spec.twoHex m = Spec.twoHex n -> m = n.
Proof.
  intros Hm Hn E. apply twoHex_value in Hm, Hn. rewrite E in Hm. congruence.
Qed.

Lemma quantized_byte (c : Z) : 0 <= c <= 255 -> 0 <= c / 16 * 16 <= 255.
Proof.
  intros Hc. pose proof (Z.mul_div_le c 16 ltac:(lia)).
  assert (0 <= c / 16) by (apply Z.div_pos; lia). lia.
Qed.

(** The colour of the bucket of a pixel of bytes, digit by digit. *)
Lemma bucketColor_digits (p : RGBA) :
  bytePixel p ->
  bucketColor p = "#" ++ Spec.twoHex (red p / 16 * 16) ++ Spec.twoHex (green p / 16 * 16)
                      ++ Spec.twoHex (blue p / 16 * 16).
Proof.
  intros (Hr & Hg & Hb). unfold bucketColor.
  change M3HCTColor.rgbToHex with M3ColorUtils.rgbToHex.
  apply rgbToHex_bytes; now apply quantized_byte.
Qed.

Lemma hexOfKey_bucketKey (p : RGBA) :
  bytePixel p -> M3ColorExtractor.hexOfKey (bucketKey p) = bucketColor p.
Proof.
  intros (Hr & Hg & Hb). now apply hexOfKey_colorKeyOf.
Qed.

(** Two pixels of bytes with the same bucket colour are in the same
    bucket. *)
Lemma bucketColor_inj (p q : RGBA) :
  bytePixel p -> bytePixel q -> bucketColor p = bucketColor q -> bucketKey p = bucketKey q.
Proof.
  intros Hp Hq. rewrite (bucketColor_digits p Hp), (bucketColor_digits q Hq).
  destruct Hp as (Hr & Hg & Hb), Hq as (Hr' & Hg' & Hb').
  apply quantized_byte in Hr, Hg, Hb, Hr', Hg', Hb'.
  unfold bucketKey.
  generalize dependent (red p / 16 * 16). generalize dependent (green p / 16 * 16).
  generalize dependent (blue p / 16 * 16). generalize dependent (red q / 16 * 16).
  generalize dependent (green q / 16 * 16). generalize dependent (blue q / 16 * 16).
  intros b' Hb' g' Hg' r' Hr' b Hb g Hg r Hr E.
  assert (Er : Spec.twoHex r = Spec.twoHex r' /\ Spec.twoHex g = Spec.twoHex g'
               /\ Spec.twoHex b = Spec.twoHex b').
  { unfold Spec.twoHex in *. cbn [append] in E. injection E as E1 E2 E3 E4 E5 E6.
    now rewrite E1, E2, E3, E4, E5, E6. }
  destruct Er as (Er & Eg & Eb).
  apply twoHex_inj in Er, Eg, Eb; try assumption. now subst.
Qed.

End BucketColors.

Section ListFacts.

Context {A B : Type}.

Lemma NoDup_map_on (f : A -> B) (l : list A) :
  (forall x y, In x l -> In y l -> f x = f y -> x = y) ->
  NoDup l -> NoDup (map f l).
Proof.
  induction l as [|x l IH]; cbn; intros Hinj Hn; [constructor|].
  inversion Hn as [|? ? Hx Hl]; subst. constructor.
  - intros Hin. apply in_map_iff in Hin. destruct Hin as (y & Hy & Hyl).
    assert (y = x) by (apply Hinj; auto). now subst.
  - apply IH; auto.
Qed.

Lemma NoDup_prefix (n : nat) (l : list A) : NoDup l -> NoDup (firstn n l).
Proof.
  intros H. rewrite <- (firstn_skipn n l) in H. now apply NoDup_app_remove_r in H.
Qed.

Lemma In_prefix (n : nat) (l : list A) (x : A) : In x (firstn n l) -> In x l.
Proof.
  intros H. rewrite <- (firstn_skipn n l). apply in_or_app. now left.
Qed.

End ListFacts.

Section DistinctFacts.

Variable M : JS.MathLib.

Let colorOf (e : string * Z) : string := M3ColorExtractor.hexOfKey (fst e).

(** The second loop keeps candidates, each at most once when they differ
    from one another. *)
Lemma filterDistinct_sub (k : Z) (cands : list (string * Z)) (acc : list string) :
  NoDup (acc ++ map colorOf cands) ->
  NoDup (M3ColorExtractor.filterDistinct M k cands acc)
  /\ forall c, In c (M3ColorExtractor.filterDistinct M k cands acc) ->
               In c (acc ++ map colorOf cands).
Proof.
  revert acc. induction cands as [|[key n] rest IH]; intros acc Hn; cbn.
  - rewrite app_nil_r in *. auto.
  - change (M3ColorExtractor.hexOfKey key) with (colorOf (key, n)).
    assert (Hn' : NoDup ((acc ++ [colorOf (key, n)]) ++ map colorOf rest))
      by (now rewrite <- app_assoc).
    destruct (forallb _ acc).
    + destruct (k <=? _).
      * split; [now apply NoDup_app_remove_r in Hn'|].
        intros c Hc. rewrite in_app_iff in *. cbn. cbn in Hc. tauto.
      * destruct (IH _ Hn') as [H1 H2]. split; [exact H1|].
        intros c Hc. apply H2 in Hc. now rewrite <- app_assoc in Hc.
    + destruct (IH acc (NoDup_remove_1 _ _ _ Hn)) as [H1 H2]. split; [exact H1|].
      intros c Hc. apply H2 in Hc. rewrite in_app_iff in *. cbn. tauto.
Qed.

End DistinctFacts.

(** X13: for pixels with channels from 0 to 255 and every [k], no
    colour is returned twice, each colour returned is the bucket colour
    of a pixel with alpha of 128 or more, and each is a canonical hex
    string. *)
Theorem extractColorsFromPixels_colors (M : JS.MathLib) (pixels : list RGBA) (k : Z) :
  (forall p, In p pixels -> bytePixel p) ->
  let colors := M3ColorExtractor.extractColorsFromPixels M pixels k in
  NoDup colors
  /\ Forall (fun c => exists p, In p pixels /\ isOpaque p = true /\ c = bucketColor p) colors
  /\ Forall (fun c => Spec.isCanonicalHex c = true) colors.
Proof.
  intros Hbytes colors.
  set (cmp := fun a b : string * Z => snd b - snd a).
  set (cands := JS.slice0 (JS.sort cmp (M3ColorExtractor.histogram pixels)) (k * 2)).
  assert (Hinv : forall p, In p pixels -> isOpaque p = true ->
                 exists q, In q pixels /\ isOpaque q = true /\ bucketKey p = bucketKey q)
    by eauto.
  destruct (fold_countPixel_invariant pixels []
              (fun key => exists p, In p pixels /\ isOpaque p = true /\ key = bucketKey p)
              Hinv (NoDup_nil _) (Forall_nil _) (Forall_nil _))
    as (Hnd & _ & Hkeys & _).
  fold (M3ColorExtractor.histogram pixels) in Hnd, Hkeys.
  rewrite Forall_forall in Hkeys.
  assert (Hsub : forall e, In e cands -> In e (M3ColorExtractor.histogram pixels)).
  { intros e He. subst cands. unfold JS.slice0 in He. apply In_prefix in He.
    now apply sort_In in He. }
  assert (Hcn : NoDup (map fst cands)).
  { subst cands. unfold JS.slice0. rewrite <- firstn_map. apply NoDup_prefix.
    eapply Permutation_NoDup; [|exact Hnd].
    apply Permutation_map. symmetry. apply sort_perm. }
  assert (Hcolors : NoDup (map (fun e : string * Z => M3ColorExtractor.hexOfKey (fst e)) cands)).
  { rewrite <- (map_map fst M3ColorExtractor.hexOfKey). apply NoDup_map_on; [|exact Hcn].
    intros x y Hx Hy E.
    apply in_map_iff in Hx, Hy.
    destruct Hx as (ex & <- & Hex), Hy as (ey & <- & Hey).
    destruct (Hkeys _ (Hsub _ Hex)) as (p & Hp & _ & Kp).
    destruct (Hkeys _ (Hsub _ Hey)) as (q & Hq & _ & Kq).
    rewrite Kp, Kq in *.
    rewrite !hexOfKey_bucketKey in E by auto.
    now apply bucketColor_inj; auto. }
  destruct (filterDistinct_sub M k cands [] Hcolors) as [Hn Hin].
  assert (Horigin : Forall (fun c => exists p, In p pixels /\ isOpaque p = true
                                               /\ c = bucketColor p) colors).
  { apply Forall_forall. intros c Hc. apply Hin in Hc. cbn [app] in Hc.
    apply in_map_iff in Hc. destruct Hc as (e & <- & He).
    destruct (Hkeys _ (Hsub _ He)) as (p & Hp & Ho & Kp).
    exists p. rewrite Kp, hexOfKey_bucketKey by auto. auto. }
  split; [exact Hn|]. split; [exact Horigin|].
  eapply Forall_impl; [|exact Horigin].
  intros c (p & Hp & _ & ->). rewrite bucketColor_digits by auto.
  destruct (Hbytes p Hp) as (Hr & Hg & Hb). apply quantized_byte in Hr, Hg, Hb.
  destruct (twoHex_digits _ Hr) as (r1 & r2 & -> & Hr1 & Hr2 & _).
  destruct (twoHex_digits _ Hg) as (g1 & g2 & -> & Hg1 & Hg2 & _).
  destruct (twoHex_digits _ Hb) as (b1 & b2 & -> & Hb1 & Hb2 & _).
  cbn [append Spec.isCanonicalHex String.length Nat.eqb list_ascii_of_string forallb andb].
  now rewrite Hr1, Hr2, Hg1, Hg2, Hb1, Hb2.
Qed.

Lemma extractColorsFromPixels_colors_witness :
  let pixels := [mkRGBA 255 0 0 255; mkRGBA 250 3 5 200; mkRGBA 0 0 0 0;
                 mkRGBA 10 200 30 255; mkRGBA 255 255 255 255] in
  let colors := M3ColorExtractor.extractColorsFromPixels RefMath.refMath pixels 5 in
  (forall p, In p pixels -> bytePixel p)
  /\ NoDup colors
  /\ Forall (fun c => exists p, In p pixels /\ isOpaque p = true /\ c = bucketColor p) colors
  /\ Forall (fun c => Spec.isCanonicalHex c = true) colors.
Proof.
  cbv zeta.
  assert (Hbytes : forall p,
             In p [mkRGBA 255 0 0 255; mkRGBA 250 3 5 200; mkRGBA 0 0 0 0;
                   mkRGBA 10 200 30 255; mkRGBA 255 255 255 255] -> bytePixel p).
  { intros p Hp. cbn [In] in Hp.
    repeat (destruct Hp as [<- | Hp]; [unfold bytePixel; cbn; lia|]). contradiction. }
  split; [exact Hbytes|].
  exact (extractColorsFromPixels_colors RefMath.refMath _ 5 Hbytes).
Defined.

(** X14: for [k <= 0] at most one colour is returned: none for
    [k = 0]; and for a negative [k] exactly one, the most frequent
    bucket, as soon as the histogram has more than [-2k] buckets. *)
Theorem extractColorsFromPixels_nonpositive (M : JS.MathLib) (pixels : list RGBA) (k : Z) :
  k <= 0 ->
  let colors := M3ColorExtractor.extractColorsFromPixels M pixels k in
  (List.length colors <= 1)%nat
  /\ (k = 0 -> colors = [])
  /\ (k < 0 -> - (2 * k) < Z.of_nat (List.length (M3ColorExtractor.histogram pixels)) ->
      List.length colors = 1%nat).
Proof.
  intros Hk colors. subst colors. unfold M3ColorExtractor.extractColorsFromPixels.
  set (cmp := fun a b : string * Z => snd b - snd a).
  set (sorted := JS.sort cmp (M3ColorExtractor.histogram pixels)).
  assert (Hone : forall cands,
             M3ColorExtractor.filterDistinct M k cands []
             = match cands with
               | [] => []
               | (key, _) :: _ => [M3ColorExtractor.hexOfKey key]
               end).
  { intros [|[key n] rest]; [reflexivity|]. cbn.
    destruct (Z.leb_spec k 1); [reflexivity | lia]. }
  rewrite Hone. split; [|split].
  - destruct (JS.slice0 sorted (k * 2)) as [|[key n] rest]; cbn; lia.
  - intros ->. unfold JS.slice0.
    destruct (Z.ltb_spec (0 * 2) 0) as [|_]; [lia|].
    replace (Z.to_nat (Z.min (0 * 2) (Z.of_nat (List.length sorted)))) with 0%nat by lia.
    reflexivity.
  - intros Hneg Hlen. unfold JS.slice0.
    destruct (Z.ltb_spec (k * 2) 0) as [_|]; [|lia].
    assert (Hs : List.length sorted = List.length (M3ColorExtractor.histogram pixels))
      by apply sort_length.
    destruct (firstn _ sorted) as [|[key n] rest] eqn:E; [|reflexivity].
    apply (f_equal (@List.length _)) in E. rewrite length_firstn in E. cbn in E. lia.
Qed.

Lemma extractColorsFromPixels_nonpositive_witness :
  let pixels := [mkRGBA 255 0 0 255; mkRGBA 250 3 5 200; mkRGBA 0 0 0 0;
                 mkRGBA 10 200 30 255; mkRGBA 255 255 255 255] in
  -1 <= 0
  /\ List.length (M3ColorExtractor.extractColorsFromPixels RefMath.refMath pixels (-1)) = 1%nat.
Proof.
  cbv zeta. split; [lia|].
  refine (proj2 (proj2 (extractColorsFromPixels_nonpositive RefMath.refMath _ (-1) _)) _ _).
  - lia.
  - lia.
  - vm_compute. reflexivity.
Defined.

(* ================================================================= *)
(** ** More on the primary colour *)

Section SortHead.

Context {A : Type} (rank : A -> Z).

Let byRank (a b : A) : Z := rank b - rank a.

(** Sorted by descending rank, the array starts with the first of the
    elements of highest rank. *)
Lemma sort_head (l : list A) (h : A) (t : list A) :
  JS.sort byRank l = h :: t ->
  exists before after,
    l = (before ++ h :: after)%list
    /\ (forall x, In x before -> rank x < rank h)
    /\ (forall x, In x after -> rank x <= rank h).
Proof.
  revert h t. induction l as [|x l IH]; intros h t; cbn; [discriminate|].
  fold (JS.sort byRank l).
  destruct (JS.sort byRank l) as [|h' t'] eqn:Hs; cbn.
  - intros H. injection H as <- <-.
    assert (l = []) by (apply length_zero_iff_nil; now rewrite <- (sort_length byRank), Hs).
    subst. exists [], []. cbn. intuition.
  - destruct (IH h' t' eq_refl) as (before & after & -> & Hb & Ha).
    unfold byRank at 1.
    destruct (Z.leb_spec (rank h' - rank x) 0) as [Hle|Hgt]; intros H; injection H as <- <-.
    + exists [], (before ++ h' :: after)%list. cbn. split; [reflexivity|].
      split; [tauto|]. intros y Hy. apply in_app_or in Hy.
      destruct Hy as [Hy | [<- | Hy]]; [apply Hb in Hy | | apply Ha in Hy]; lia.
    + exists (x :: before), after. cbn. split; [reflexivity|].
      split; [|exact Ha]. intros y [<- | Hy]; [lia | now apply Hb].
Qed.

End SortHead.

(** X15: the colour that [extractPrimaryColor] returns for an array
    that is not empty has the highest score of the array, and is the
    first of the colours with that score: every colour before it scores
    strictly less. *)
Theorem extractPrimaryColor_best (M : JS.MathLib) (colors : list string) (c : string) :
  colors <> [] ->
  M3ColorExtractor.extractPrimaryColor M colors = JS.Normal c ->
  exists before after,
    colors = (before ++ c :: after)%list
    /\ (forall x, In x before ->
                  score (M3ColorExtractor.scoreColor M x) < score (M3ColorExtractor.scoreColor M c))
    /\ (forall x, In x after ->
                  score (M3ColorExtractor.scoreColor M x) <= score (M3ColorExtractor.scoreColor M c)).
Proof.
  intros Hne. unfold M3ColorExtractor.extractPrimaryColor.
  destruct colors as [|c0 rest]; [contradiction|]. cbn [List.length Nat.eqb].
  destruct (JS.sort _ _) as [|first others] eqn:Hs; [discriminate|].
  intros H. injection H as <-.
  destruct (sort_head score _ _ _ Hs) as (before & after & Hl & Hb & Ha).
  apply map_eq_app in Hl. destruct Hl as (cb & crest & Hc & Hmb & Hmr).
  destruct crest as [|c1 ca]; [discriminate|].
  cbn [map] in Hmr. injection Hmr as Hfirst Hma.
  exists cb, ca. rewrite Hc. subst first. cbn [color].
  split; [reflexivity|]. split.
  - intros x Hx. apply Hb. rewrite <- Hmb. now apply in_map.
  - intros x Hx. apply Ha. rewrite <- Hma. now apply in_map.
Qed.

Lemma extractPrimaryColor_best_witness :
  M3ColorExtractor.extractPrimaryColor RefMath.refMath ["#000000"; "#6750A4"; "#FFFFFF"]
  = JS.Normal "#6750A4"
  /\ exists before after,
       ["#000000"; "#6750A4"; "#FFFFFF"] = (before ++ "#6750A4" :: after)%list
       /\ (forall x, In x before ->
                     score (M3ColorExtractor.scoreColor RefMath.refMath x)
                     < score (M3ColorExtractor.scoreColor RefMath.refMath "#6750A4"))
       /\ (forall x, In x after ->
                     score (M3ColorExtractor.scoreColor RefMath.refMath x)
                     <= score (M3ColorExtractor.scoreColor RefMath.refMath "#6750A4")).
Proof.
  split; [vm_compute; reflexivity|].
  apply (extractPrimaryColor_best RefMath.refMath ["#000000"; "#6750A4"; "#FFFFFF"] "#6750A4").
  - discriminate.
  - vm_compute. reflexivity.
Defined.

(** X16: the score of a colour is an integer from -80 to 80. *)
Theorem scoreColor_range (M : JS.MathLib) (c : string) :
  -80 <= score (M3ColorExtractor.scoreColor M c) <= 80.
Proof.
  unfold M3ColorExtractor.scoreColor. cbv zeta. cbn [score].
  repeat match goal with
         | |- context [if ?b then _ else _] => destruct b
         end; lia.
Qed.

(* ================================================================= *)
(** ** Breakpoints *)

Section Responsive.

Import M3ResponsiveUtils.

Lemma property_known (name : string) (t : Z) :
  property breakpoints name = Some t ->
  (name = "xs" /\ t = 0) \/ (name = "sm" /\ t = 600) \/ (name = "md" /\ t = 905)
  \/ (name = "lg" /\ t = 1240) \/ (name = "xl" /\ t = 1440).
Proof.
  unfold breakpoints. cbn [property].
  repeat match goal with
         | |- context [String.eqb ?k name] => destruct (String.eqb_spec k name)
         end; intros H; try discriminate; injection H as <-; subst; tauto.
Qed.

Lemma getCurrentBreakpoint_cases (width : Z) :
  (1440 <= width /\ getCurrentBreakpoint width = "xl")
  \/ (1240 <= width < 1440 /\ getCurrentBreakpoint width = "lg")
  \/ (905 <= width < 1240 /\ getCurrentBreakpoint width = "md")
  \/ (600 <= width < 905 /\ getCurrentBreakpoint width = "sm")
  \/ (width < 600 /\ getCurrentBreakpoint width = "xs").
Proof.
  unfold getCurrentBreakpoint. cbv zeta.
  change (property breakpoints "xl") with (Some 1440).
  change (property breakpoints "lg") with (Some 1240).
  change (property breakpoints "md") with (Some 905).
  change (property breakpoints "sm") with (Some 600).
  cbn [ge].
  destruct (Z.leb_spec 1440 width); [tauto|].
  destruct (Z.leb_spec 1240 width); [tauto|].
  destruct (Z.leb_spec 905 width); [tauto|].
  destruct (Z.leb_spec 600 width); [right; right; right; left; tauto|].
  right; right; right; right; tauto.
Qed.

Lemma last_cons_default {A : Type} (x : A) (l : list A) (d : A) :
  last (x :: l) d = last l x.
Proof.
  revert x d. induction l as [|y l IH]; intros x d; [reflexivity|].
  change (last (x :: y :: l) d) with (last (y :: l) d).
  now rewrite (IH y d), (IH y x).
Qed.

Lemma resizes_spec (current : string) (widths : list Z) :
  allChanges current (fst (resizes current widths)) = true
  /\ snd (resizes current widths)
     = last (map getCurrentBreakpoint widths) current.
Proof.
  revert current. induction widths as [|w rest IH]; intros current; [split; reflexivity|].
  cbn [resizes map]. rewrite last_cons_default. unfold checkBreakpoint. cbv zeta.
  destruct (String.eqb_spec (getCurrentBreakpoint w) current) as [E|E]; cbn [negb].
  - destruct (resizes current rest) as [calls final] eqn:R.
    specialize (IH current). rewrite R in IH. cbn [fst snd] in *.
    now rewrite E.
  - destruct (resizes (getCurrentBreakpoint w) rest) as [calls final] eqn:R.
    specialize (IH (getCurrentBreakpoint w)). rewrite R in IH. cbn [fst snd] in *.
    destruct IH as [IH1 IH2]. split; [|exact IH2].
    cbn [allChanges]. rewrite IH1.
    destruct (String.eqb_spec (getCurrentBreakpoint w) current); [contradiction|reflexivity].
Qed.

Lemma resizes_length (current : string) (widths : list Z) :
  (List.length (fst (resizes current widths)) <= List.length widths)%nat.
Proof.
  revert current. induction widths as [|w ws IH]; intros c; cbn [resizes]; [cbn; lia|].
  destruct (checkBreakpoint c w) as [c' call].
  specialize (IH c'). destruct (resizes c' ws) as [calls final].
  cbn [fst List.length] in *. destruct call; cbn [List.length]; lia.
Qed.

Lemma last_map_default (widths : list Z) (initialWidth : Z) :
  last (map getCurrentBreakpoint widths) (getCurrentBreakpoint initialWidth)
  = getCurrentBreakpoint (last widths initialWidth).
Proof.
  revert initialWidth. induction widths as [|w rest IH]; intros d; [reflexivity|].
  cbn [map]. now rewrite !last_cons_default, IH.
Qed.

End Responsive.

(** X17: for a breakpoint name of the table, with threshold [t],
    [isAbove] says whether the width is at least [t] and [isBelow] is
    its negation.  When the width is at least [t], the current
    breakpoint is one of the table whose threshold lies between [t] and
    the width, so it is the largest breakpoint the width is above.  For
    a negative width the current breakpoint is [xs], although the width
    is not above [xs]. *)
Theorem getCurrentBreakpoint_largest (width : Z) (name : string) (t : Z) :
  M3ResponsiveUtils.property M3ResponsiveUtils.breakpoints name = Some t ->
  M3ResponsiveUtils.isAbove width name = (t <=? width)
  /\ M3ResponsiveUtils.isBelow width name = negb (M3ResponsiveUtils.isAbove width name)
  /\ (t <= width ->
      exists t0,
        M3ResponsiveUtils.property M3ResponsiveUtils.breakpoints
          (M3ResponsiveUtils.getCurrentBreakpoint width) = Some t0
        /\ t <= t0 <= width
        /\ M3ResponsiveUtils.isAbove width (M3ResponsiveUtils.getCurrentBreakpoint width) = true)
  /\ (width < 0 ->
      M3ResponsiveUtils.getCurrentBreakpoint width = "xs"
      /\ M3ResponsiveUtils.isAbove width (M3ResponsiveUtils.getCurrentBreakpoint width) = false).
Proof.
  intros Hp. unfold M3ResponsiveUtils.isAbove, M3ResponsiveUtils.isBelow. cbv zeta.
  rewrite Hp. cbn [M3ResponsiveUtils.ge M3ResponsiveUtils.lt].
  split; [reflexivity|]. split; [now rewrite Z.ltb_antisym|].
  apply property_known in Hp.
  destruct (getCurrentBreakpoint_cases width)
    as [[Hw ->] | [[Hw ->] | [[Hw ->] | [[Hw ->] | [Hw ->]]]]];
    (split;
     [ intros Ht; eexists; split; [reflexivity|]; split; [lia | apply Z.leb_le; lia]
     | intros Hneg; try lia ]).
  split; [reflexivity | apply Z.leb_gt; lia].
Qed.

Lemma getCurrentBreakpoint_largest_witness :
  M3ResponsiveUtils.property M3ResponsiveUtils.breakpoints "sm" = Some 600
  /\ M3ResponsiveUtils.isAbove 1000 "sm" = true
  /\ M3ResponsiveUtils.isBelow 1000 "sm" = false.
Proof.
  split; [reflexivity|].
  pose proof (getCurrentBreakpoint_largest 1000 "sm" 600 eq_refl) as H.
  split; [exact (proj1 H) | exact (proj1 (proj2 H))].
Defined.

(** X18: for a name that is not in the table [isAbove] and [isBelow]
    are both false, at every width: neither is the negation of the
    other there. *)
Theorem breakpoint_unknown_name (width : Z) (name : string) :
  M3ResponsiveUtils.property M3ResponsiveUtils.breakpoints name = None ->
  M3ResponsiveUtils.isAbove width name = false
  /\ M3ResponsiveUtils.isBelow width name = false.
Proof.
  intros Hp. unfold M3ResponsiveUtils.isAbove, M3ResponsiveUtils.isBelow.
  cbv zeta. now rewrite Hp.
Qed.

Lemma breakpoint_unknown_name_witness :
  M3ResponsiveUtils.property M3ResponsiveUtils.breakpoints "xxl" = None
  /\ M3ResponsiveUtils.isAbove 2000 "xxl" = false
  /\ M3ResponsiveUtils.isBelow 2000 "xxl" = false.
Proof.
  split; [reflexivity|].
  exact (breakpoint_unknown_name 2000 "xxl" eq_refl).
Defined.

(** X19: between registration at a width and any sequence of [resize]
    events, the callback of [onBreakpointChange] is called at most once
    per event, never with the breakpoint of its previous call nor first
    with the breakpoint at registration, and the breakpoint the
    listener holds in the end is that of the last width. *)
Theorem onBreakpointChange_calls (initialWidth : Z) (widths : list Z) :
  let '(calls, final) := M3ResponsiveUtils.onBreakpointChange initialWidth widths in
  allChanges (M3ResponsiveUtils.getCurrentBreakpoint initialWidth) calls = true
  /\ final = M3ResponsiveUtils.getCurrentBreakpoint (last widths initialWidth)
  /\ (List.length calls <= List.length widths)%nat.
Proof.
  unfold M3ResponsiveUtils.onBreakpointChange.
  pose proof (resizes_spec (M3ResponsiveUtils.getCurrentBreakpoint initialWidth) widths)
    as [H1 H2].
  pose proof (resizes_length (M3ResponsiveUtils.getCurrentBreakpoint initialWidth) widths)
    as H3.
  destruct (M3ResponsiveUtils.resizes _ widths) as [calls final]. cbn [fst snd] in *.
  repeat split; auto. rewrite H2. apply last_map_default.
Qed.

(* ================================================================= *)
(** ** The theme engine *)

Section Kebab.

Import M3ThemeEngine.

Lemma lowerChar_not_upper (c : ascii) :
  isUpper_A_Z c = true -> isUpper_A_Z (lowerChar c) = false.
Proof.
  destruct c as [[] [] [] [] [] [] [] []]; vm_compute; congruence.
Qed.

Lemma kebabCase_app (s t : string) : kebabCase (s ++ t) = kebabCase s ++ kebabCase t.
Proof.
  induction s as [|c s IH]; cbn; [reflexivity|].
  destruct (isUpper_A_Z c); cbn; now rewrite IH.
Qed.

Lemma kebabCase_noUpper (s : string) : noUpperCase (kebabCase s) = true.
Proof.
  unfold noUpperCase. induction s as [|c s IH]; cbn; [reflexivity|].
  destruct (isUpper_A_Z c) eqn:E; cbn [list_ascii_of_string forallb].
  - rewrite (lowerChar_not_upper c E), IH. reflexivity.
  - now rewrite E, IH.
Qed.

Lemma kebabCase_fixed (s : string) : noUpperCase s = true -> kebabCase s = s.
Proof.
  unfold noUpperCase. induction s as [|c s IH]; cbn; [reflexivity|].
  intros H. apply andb_true_iff in H. destruct H as [Hc Hs].
  apply negb_true_iff in Hc. now rewrite Hc, IH.
Qed.

End Kebab.

(** X20: [kebabCase] leaves no letter of [A-Z], is idempotent,
    distributes over concatenation and fixes the strings without such a
    letter; and it keeps the role keys of a scheme apart, so no two
    roles share a CSS variable. *)
Theorem kebabCase_spec (s t : string) :
  noUpperCase (M3ThemeEngine.kebabCase s) = true
  /\ M3ThemeEngine.kebabCase (M3ThemeEngine.kebabCase s) = M3ThemeEngine.kebabCase s
  /\ M3ThemeEngine.kebabCase (s ++ t) = M3ThemeEngine.kebabCase s ++ M3ThemeEngine.kebabCase t
  /\ (noUpperCase s = true -> M3ThemeEngine.kebabCase s = s)
  /\ NoDup (map M3ThemeEngine.kebabCase Spec.roleKeys).
Proof.
  split; [apply kebabCase_noUpper|].
  split; [apply kebabCase_fixed, kebabCase_noUpper|].
  split; [apply kebabCase_app|].
  split; [apply kebabCase_fixed|].
  vm_compute. repeat (constructor; [cbn; intuition discriminate|]). constructor.
Qed.

Lemma M3HCTColor_text_black_or_white (M : JS.MathLib) (x : string) :
  M3HCTColor.getAccessibleTextColor M x = "#000000"
  \/ M3HCTColor.getAccessibleTextColor M x = "#FFFFFF".
Proof.
  unfold M3HCTColor.getAccessibleTextColor. cbv zeta.
  destruct (4.5 <=? _)%float; [now left|].
  destruct (4.5 <=? _)%float; [now right|].
  destruct (0.5 <? _)%float; [now left | now right].
Qed.

(** [generateSchemeFromSeed] ends by the throw of
    [generateSchemeFromColor], after its first two assignments. *)
Lemma generateSchemeFromSeed_TypeError (M : JS.MathLib) (this : M3ThemeEngine.ThemeEngine)
      (seed : string) (dark : bool) :
  M3ThemeEngine.generateSchemeFromSeed M this seed dark
  = (JS.Throw JS.TypeError,
     {| M3ThemeEngine.currentSeed := seed;
        M3ThemeEngine.isDark := dark;
        M3ThemeEngine.customSchemes := M3ThemeEngine.customSchemes this;
        M3ThemeEngine.currentScheme := M3ThemeEngine.currentScheme this |}).
Proof.
  unfold M3ThemeEngine.generateSchemeFromSeed. cbv zeta. now rewrite scheme_TypeError.
Qed.

Lemma tonalPalette_TypeError (M : JS.MathLib) (color : HCT) :
  M3HCTColor.generateTonalPalette M color = JS.Throw JS.TypeError.
Proof.
  unfold M3HCTColor.generateTonalPalette. cbv zeta. cbn [JS.mapM].
  now rewrite toHex_TypeError.
Qed.

(** X21: [generateSchemeFromSeed] throws a [TypeError] for every engine,
    seed, mode and [Math] library.  It has then written the seed and
    the mode, and neither the current scheme nor [customSchemes]: what
    [exportAsCSS] and [exportAsSCSS] return is what they returned
    before, the empty string on an engine that has no scheme. *)
Theorem generateSchemeFromSeed_throws (M : JS.MathLib) (this : M3ThemeEngine.ThemeEngine)
        (seed : string) (dark : bool) :
  let '(outcome, after) := M3ThemeEngine.generateSchemeFromSeed M this seed dark in
  outcome = JS.Throw JS.TypeError
  /\ M3ThemeEngine.currentSeed after = seed
  /\ M3ThemeEngine.isDark after = dark
  /\ M3ThemeEngine.currentScheme after = M3ThemeEngine.currentScheme this
  /\ M3ThemeEngine.customSchemes after = M3ThemeEngine.customSchemes this
  /\ M3ThemeEngine.exportAsCSS after = M3ThemeEngine.exportAsCSS this
  /\ M3ThemeEngine.exportAsSCSS after = M3ThemeEngine.exportAsSCSS this
  /\ (M3ThemeEngine.currentScheme this = None ->
      M3ThemeEngine.exportAsCSS after = "" /\ M3ThemeEngine.exportAsSCSS after = "").
Proof.
  rewrite generateSchemeFromSeed_TypeError.
  unfold M3ThemeEngine.exportAsCSS, M3ThemeEngine.exportAsSCSS.
  cbn [M3ThemeEngine.currentSeed M3ThemeEngine.isDark M3ThemeEngine.currentScheme
       M3ThemeEngine.customSchemes].
  repeat (split; [reflexivity|]).
  intros ->. split; reflexivity.
Qed.

(** X22: [toggleTheme] throws a [TypeError] for every engine, having
    flipped [isDark] (or set it to the mode forced) and nothing else:
    the seed, the current scheme and [customSchemes] are as before, so
    the mode of the engine no longer goes with its scheme.  Two toggles
    bring the mode back. *)
Theorem toggleTheme_throws (M : JS.MathLib) (this : M3ThemeEngine.ThemeEngine)
        (forceDark : option bool) :
  let willBeDark :=
    match forceDark with
    | Some dark => dark
    | None => negb (M3ThemeEngine.isDark this)
    end in
  let '(outcome, after) := M3ThemeEngine.toggleTheme M this forceDark in
  outcome = JS.Throw JS.TypeError
  /\ M3ThemeEngine.isDark after = willBeDark
  /\ M3ThemeEngine.currentSeed after = M3ThemeEngine.currentSeed this
  /\ M3ThemeEngine.currentScheme after = M3ThemeEngine.currentScheme this
  /\ M3ThemeEngine.customSchemes after = M3ThemeEngine.customSchemes this
  /\ M3ThemeEngine.isDark (snd (M3ThemeEngine.toggleTheme M after None))
     = negb willBeDark.
Proof.
  cbv zeta. unfold M3ThemeEngine.toggleTheme. cbv zeta.
  rewrite !generateSchemeFromSeed_TypeError.
  cbn [M3ThemeEngine.currentSeed M3ThemeEngine.isDark M3ThemeEngine.currentScheme
       M3ThemeEngine.customSchemes snd].
  repeat (split; [reflexivity|]). reflexivity.
Qed.

(** X23: no engine is ever constructed: [new M3ThemeEngine()] throws the
    [TypeError] of [initCSSVariables], whatever [watchSystemTheme] would
    do.  On an engine object [initCSSVariables] throws and leaves the
    fields as they were; [resetToDefault] throws having set the seed to
    [#6750A4] and the mode to light, with the current scheme and
    [customSchemes] as before. *)
Theorem resetToDefault_throws (M : JS.MathLib) (this : M3ThemeEngine.ThemeEngine)
        (watchSystemTheme : M3ThemeEngine.ThemeEngine
                            -> JS.Completion unit * M3ThemeEngine.ThemeEngine) :
  M3ThemeEngine.construct M watchSystemTheme = JS.Throw JS.TypeError
  /\ M3ThemeEngine.initCSSVariables M this = (JS.Throw JS.TypeError, this)
  /\ M3ThemeEngine.resetToDefault M this
     = (JS.Throw JS.TypeError,
        {| M3ThemeEngine.currentSeed := "#6750A4";
           M3ThemeEngine.isDark := false;
           M3ThemeEngine.customSchemes := M3ThemeEngine.customSchemes this;
           M3ThemeEngine.currentScheme := M3ThemeEngine.currentScheme this |}).
Proof.
  unfold M3ThemeEngine.construct, M3ThemeEngine.initCSSVariables,
    M3ThemeEngine.resetToDefault.
  cbv zeta. rewrite !generateSchemeFromSeed_TypeError.
  split; [reflexivity|]. split; [now destruct this | reflexivity].
Qed.

(** X30: [generatePalette] throws a [TypeError] for every colour and
    every number of steps, as [generateTonalPalette] does for every
    colour: the first tone already calls [toHex].  [getContrastColor]
    does not look at [highContrast] and returns [#000000] or
    [#FFFFFF]. *)
Theorem generatePalette_throws (M : JS.MathLib) (color : string) (steps : Z)
        (highContrast highContrast' : bool) :
  M3ThemeEngine.generatePalette M color steps = JS.Throw JS.TypeError
  /\ (forall hct, M3HCTColor.generateTonalPalette M hct = JS.Throw JS.TypeError)
  /\ M3ThemeEngine.getContrastColor M color highContrast
     = M3ThemeEngine.getContrastColor M color highContrast'
  /\ (M3ThemeEngine.getContrastColor M color highContrast = "#000000"
      \/ M3ThemeEngine.getContrastColor M color highContrast = "#FFFFFF").
Proof.
  unfold M3ThemeEngine.generatePalette. cbv zeta.
  split; [apply tonalPalette_TypeError|].
  split; [apply tonalPalette_TypeError|].
  split; [reflexivity|]. apply M3HCTColor_text_black_or_white.
Qed.

(* ================================================================= *)
(** ** Patterns and addresses *)

Section RegExpFacts.

Import RegExp.

Lemma app_string_nil (s : string) : s ++ "" = s.
Proof. induction s; cbn; congruence. Qed.

Lemma app_string_assoc (s t u : string) : (s ++ t) ++ u = s ++ t ++ u.
Proof. induction s; cbn; congruence. Qed.

Lemma app_string_eq_nil (s t : string) : s ++ t = "" -> s = "" /\ t = "".
Proof. destruct s; cbn; [auto | discriminate]. Qed.

Lemma never_inv (u : string) : ~ Matches Never u.
Proof. intros H. inversion H. Qed.

Lemma empty_inv (u : string) : Matches Empty u -> u = "".
Proof. intros H. now inversion H. Qed.

Lemma class_inv (m : ascii -> bool) (u : string) :
  Matches (Class m) u -> exists c, u = String c "" /\ m c = true.
Proof. intros H. inversion H; subst. eauto. Qed.

Lemma seq_inv (a b : Pattern) (u : string) :
  Matches (Seq a b) u -> exists s t, u = s ++ t /\ Matches a s /\ Matches b t.
Proof. intros H. inversion H; subst. eauto. Qed.

Lemma alt_inv (a b : Pattern) (u : string) :
  Matches (Alt a b) u -> Matches a u \/ Matches b u.
Proof. intros H. inversion H; subst; auto. Qed.

Lemma nullable_spec (p : Pattern) : nullable p = true <-> Matches p "".
Proof.
  induction p as [| |m|a IHa b IHb|a IHa b IHb|a IHa]; cbn.
  - split; [discriminate | intros H; now apply never_inv in H].
  - split; [constructor | reflexivity].
  - split; [discriminate|]. intros H. apply class_inv in H.
    destruct H as (c & E & _). discriminate.
  - rewrite andb_true_iff, IHa, IHb. split.
    + intros [Ha Hb]. exact (MSeq a b "" "" Ha Hb).
    + intros H. apply seq_inv in H. destruct H as (s & t & E & Hs & Ht).
      symmetry in E. apply app_string_eq_nil in E. destruct E; subst. auto.
  - rewrite orb_true_iff, IHa, IHb. split.
    + intros [H|H]; [now apply MAltL | now apply MAltR].
    + apply alt_inv.
  - split; [constructor | reflexivity].
Qed.

Lemma star_cons_gen (p : Pattern) (s : string) :
  Matches p s ->
  forall a c rest, p = Star a -> s = String c rest ->
  exists s1 s2, rest = s1 ++ s2 /\ Matches a (String c s1) /\ Matches (Star a) s2.
Proof.
  induction 1 as [| | | | | |a' s t Hs _ Ht IHt]; intros a0 c0 rest Ep E; try discriminate.
  injection Ep as ->. destruct s as [|x s].
  - cbn in E. exact (IHt a0 c0 rest eq_refl E).
  - cbn in E. injection E as -> <-. exists s, t. auto.
Qed.

(** A repetition that reads a character reads it in a first round. *)
Lemma star_cons (a : Pattern) (c : ascii) (rest : string) :
  Matches (Star a) (String c rest) ->
  exists s1 s2, rest = s1 ++ s2 /\ Matches a (String c s1) /\ Matches (Star a) s2.
Proof.
  intros H. exact (star_cons_gen _ _ H a c rest eq_refl eq_refl).
Qed.

Lemma star_class_gen (p : Pattern) (s : string) :
  Matches p s ->
  forall m, p = Star (Class m) -> forallb m (list_ascii_of_string s) = true.
Proof.
  induction 1 as [| | | | | |a s t Hs _ Ht IHt]; intros m0 Ep; try discriminate;
    [reflexivity|].
  injection Ep as ->. apply class_inv in Hs. destruct Hs as (c & -> & Hc). cbn.
  rewrite Hc. exact (IHt m0 eq_refl).
Qed.

Lemma derive_spec (p : Pattern) (c : ascii) (s : string) :
  Matches (derive c p) s <-> Matches p (String c s).
Proof.
  revert s. induction p as [| |m|a IHa b IHb|a IHa b IHb|a IHa]; intros s; cbn.
  - split; intros H; now apply never_inv in H.
  - split; intros H; [now apply never_inv in H | apply empty_inv in H; discriminate].
  - destruct (m c) eqn:E; split; intros H.
    + apply empty_inv in H. subst. now constructor.
    + apply class_inv in H. destruct H as (x & Ex & _). injection Ex as <- ->. constructor.
    + now apply never_inv in H.
    + apply class_inv in H. destruct H as (x & Ex & Hx). injection Ex as <- ->. congruence.
  - assert (Hfwd : forall u, Matches (Seq (derive c a) b) u -> Matches (Seq a b) (String c u)).
    { intros u H. apply seq_inv in H. destruct H as (s1 & s2 & -> & H1 & H2).
      apply IHa in H1. exact (MSeq a b (String c s1) s2 H1 H2). }
    assert (Hbwd : forall u, Matches (Seq a b) (String c u) ->
                             Matches (Seq (derive c a) b) u
                             \/ (Matches a "" /\ Matches (derive c b) u)).
    { intros u H. apply seq_inv in H. destruct H as (s1 & s2 & E & H1 & H2).
      destruct s1 as [|x s1]; cbn in E.
      - right. subst s2. split; [exact H1 | now apply IHb].
      - injection E as -> ->. left. apply MSeq; [now apply IHa | exact H2]. }
    destruct (nullable a) eqn:Na.
    + split; intros H.
      * apply alt_inv in H. destruct H as [H|H]; [now apply Hfwd|].
        apply nullable_spec in Na. apply IHb in H. exact (MSeq a b "" _ Na H).
      * destruct (Hbwd s H) as [H1 | [_ H2]]; [now apply MAltL | now apply MAltR].
    + split; intros H; [now apply Hfwd|].
      destruct (Hbwd s H) as [H1 | [H1 _]]; [exact H1|].
      apply nullable_spec in H1. congruence.
  - split; intros H; apply alt_inv in H; destruct H as [H|H].
    + apply MAltL. now apply IHa.
    + apply MAltR. now apply IHb.
    + apply MAltL. now apply IHa.
    + apply MAltR. now apply IHb.
  - split; intros H.
    + apply seq_inv in H. destruct H as (s1 & s2 & -> & H1 & H2).
      apply IHa in H1. exact (MStarCons a (String c s1) s2 H1 H2).
    + destruct (star_cons a c s H) as (s1 & s2 & -> & H1 & H2).
      apply MSeq; [now apply IHa | exact H2].
Qed.

(** The matcher accepts the strings of the pattern. *)
Lemma test_spec (p : Pattern) (s : string) : test p s = true <-> Matches p s.
Proof.
  revert p. induction s as [|c s IH]; intros p; cbn.
  - apply nullable_spec.
  - rewrite IH. apply derive_spec.
Qed.

Lemma star_class (m : ascii -> bool) (s : string) :
  Matches (Star (Class m)) s <-> allChars m s = true.
Proof.
  unfold allChars. split.
  - intros H. exact (star_class_gen _ _ H m eq_refl).
  - induction s as [|c s IH]; cbn; intros H; [constructor|].
    apply andb_true_iff in H. destruct H as [Hc Hs].
    exact (MStarCons (Class m) (String c "") s (MClass m c Hc) (IH Hs)).
Qed.

Lemma plus_class (m : ascii -> bool) (s : string) :
  Matches (Plus (Class m)) s <-> s <> "" /\ allChars m s = true.
Proof.
  unfold Plus. split.
  - intros H. apply seq_inv in H. destruct H as (s1 & s2 & -> & H1 & H2).
    apply class_inv in H1. destruct H1 as (c & -> & Hc).
    apply star_class in H2. cbn. split; [discriminate|].
    unfold allChars in *. cbn. now rewrite Hc, H2.
  - intros [Hne H]. destruct s as [|c s]; [contradiction|].
    unfold allChars in H. cbn in H. apply andb_true_iff in H. destruct H as [Hc Hs].
    exact (MSeq _ _ (String c "") s (MClass m c Hc) (proj2 (star_class m s) Hs)).
Qed.

Lemma class_char (c : ascii) (s : string) :
  Matches (Class (Ascii.eqb c)) s <-> s = String c "".
Proof.
  split.
  - intros H. apply class_inv in H. destruct H as (x & -> & Hx).
    apply Ascii.eqb_eq in Hx. now subst.
  - intros ->. constructor. apply Ascii.eqb_refl.
Qed.

End RegExpFacts.

Section Email.

Lemma countChar_app (c : ascii) (s t : string) :
  countChar c (s ++ t) = (countChar c s + countChar c t)%nat.
Proof. induction s as [|x s IH]; cbn; [reflexivity | rewrite IH; lia]. Qed.

Lemma allChars_app (p : ascii -> bool) (s t : string) :
  allChars p (s ++ t) = allChars p s && allChars p t.
Proof.
  unfold allChars. induction s as [|x s IH]; cbn; [reflexivity|].
  now rewrite IH, andb_assoc.
Qed.

Lemma part_no_at (s : string) :
  allChars M3FormUtils.notSpaceNorAt s = true ->
  countChar "@"%char s = 0%nat /\ allChars (fun c => negb (M3FormUtils.isWhiteSpace c)) s = true.
Proof.
  unfold allChars. induction s as [|x s IH]; cbn; [auto|].
  intros H. apply andb_true_iff in H. destruct H as [Hx Hs].
  destruct (IH Hs) as [IH1 IH2]. rewrite IH1, IH2.
  unfold M3FormUtils.notSpaceNorAt in Hx. apply negb_true_iff, orb_false_iff in Hx.
  destruct Hx as [Hw Ha]. now rewrite Hw, Ha.
Qed.

Lemma app_string_length (s t : string) :
  String.length (s ++ t) = (String.length s + String.length t)%nat.
Proof. induction s as [|x s IH]; cbn; [reflexivity | now rewrite IH]. Qed.

Lemma part_length (s : string) : addressPart s -> (1 <= String.length s)%nat.
Proof. intros [Hne _]. destruct s; [contradiction | cbn; lia]. Qed.

(** The addresses the pattern accepts. *)
Lemma validateEmail_shape (email : string) :
  M3FormUtils.validateEmail email = true
  <-> exists local domain top,
        email = local ++ "@" ++ domain ++ "." ++ top
        /\ addressPart local /\ addressPart domain /\ addressPart top.
Proof.
  unfold M3FormUtils.validateEmail, M3FormUtils.re, addressPart.
  rewrite test_spec. split.
  - intros H.
    apply seq_inv in H. destruct H as (s1 & r1 & -> & H1 & R1).
    apply seq_inv in R1. destruct R1 as (s2 & r2 & -> & H2 & R2).
    apply seq_inv in R2. destruct R2 as (s3 & r3 & -> & H3 & R3).
    apply seq_inv in R3. destruct R3 as (s4 & s5 & -> & H4 & H5).
    apply plus_class in H1, H3, H5. apply class_char in H2, H4. subst.
    exists s1, s3, s5. auto.
  - intros (l & d & t & -> & Hl & Hd & Ht).
    apply RegExp.MSeq; [now apply plus_class|].
    apply (RegExp.MSeq _ _ "@"); [now apply class_char|].
    apply RegExp.MSeq; [now apply plus_class|].
    apply (RegExp.MSeq _ _ "."); [now apply class_char | now apply plus_class].
Qed.

End Email.

(** X24: an address made of three parts that are not empty and hold
    neither white space nor [@], joined by [@] and a dot, is accepted by
    [validateEmail]. *)
Theorem validateEmail_accepts (local domain top : string) :
  addressPart local -> addressPart domain -> addressPart top ->
  M3FormUtils.validateEmail (local ++ "@" ++ domain ++ "." ++ top) = true.
Proof.
  intros Hl Hd Ht. apply validateEmail_shape. exists local, domain, top. auto.
Qed.

Lemma validateEmail_accepts_witness :
  addressPart "user" /\ addressPart "example" /\ addressPart "com"
  /\ M3FormUtils.validateEmail "user@example.com" = true.
Proof.
  assert (Hl : addressPart "user") by (split; [discriminate | reflexivity]).
  assert (Hd : addressPart "example") by (split; [discriminate | reflexivity]).
  assert (Ht : addressPart "com") by (split; [discriminate | reflexivity]).
  split; [exact Hl|]. split; [exact Hd|]. split; [exact Ht|].
  exact (validateEmail_accepts "user" "example" "com" Hl Hd Ht).
Defined.

(** X25: an address that [validateEmail] accepts has exactly one [@], no
    white space and at least five characters, and is made of three such
    parts; so every other string is rejected. *)
Theorem validateEmail_accepted (email : string) :
  M3FormUtils.validateEmail email = true ->
  countChar "@"%char email = 1%nat
  /\ allChars (fun c => negb (M3FormUtils.isWhiteSpace c)) email = true
  /\ (5 <= String.length email)%nat
  /\ exists local domain top,
       email = local ++ "@" ++ domain ++ "." ++ top
       /\ addressPart local /\ addressPart domain /\ addressPart top.
Proof.
  intros H. apply validateEmail_shape in H.
  destruct H as (l & d & t & -> & Hl & Hd & Ht).
  destruct (part_no_at l (proj2 Hl)) as [Al Wl].
  destruct (part_no_at d (proj2 Hd)) as [Ad Wd].
  destruct (part_no_at t (proj2 Ht)) as [At Wt].
  split; [|split; [|split]].
  - rewrite !countChar_app, Al, Ad, At. reflexivity.
  - rewrite !allChars_app, Wl, Wd, Wt. reflexivity.
  - rewrite !app_string_length.
    pose proof (part_length l Hl). pose proof (part_length d Hd).
    pose proof (part_length t Ht). cbn [String.length]. lia.
  - eauto 10.
Qed.

Lemma validateEmail_accepted_witness :
  M3FormUtils.validateEmail "a.b@c.d.e" = true
  /\ countChar "@"%char "a.b@c.d.e" = 1%nat
  /\ exists local domain top,
       "a.b@c.d.e" = local ++ "@" ++ domain ++ "." ++ top
       /\ addressPart local /\ addressPart domain /\ addressPart top.
Proof.
  split; [reflexivity|].
  pose proof (validateEmail_accepted "a.b@c.d.e" eq_refl) as H.
  split; [exact (proj1 H) | exact (proj2 (proj2 (proj2 H)))].
Defined.

Lemma validateEmail_examples :
  M3FormUtils.validateEmail "user@example.com" = true
  /\ M3FormUtils.validateEmail "a@b.c.d" = true
  /\ M3FormUtils.validateEmail "" = false
  /\ M3FormUtils.validateEmail "a@b" = false
  /\ M3FormUtils.validateEmail "a@.c" = false
  /\ M3FormUtils.validateEmail "a b@c.d" = false
  /\ M3FormUtils.validateEmail "a@b@c.d" = false
  /\ M3FormUtils.validateEmail ("a@b.c" ++ M3ThemeEngine.newline) = false.
Proof.
  repeat split; vm_compute; reflexivity.
Qed.

(* ================================================================= *)
(** ** Storage *)

Section StorageFacts.

Lemma ls_get_set (ls : LocalStorage.t) (name value : string) :
  LocalStorage.getItem (LocalStorage.setItem ls name value) name = Some value.
Proof.
  induction ls as [|[k v] rest IH]; cbn.
  - now rewrite String.eqb_refl.
  - destruct (String.eqb k name) eqn:E; cbn; now rewrite E.
Qed.

Lemma ls_get_set_other (ls : LocalStorage.t) (name value other : string) :
  other <> name ->
  LocalStorage.getItem (LocalStorage.setItem ls name value) other
  = LocalStorage.getItem ls other.
Proof.
  intros Hne. induction ls as [|[k v] rest IH]; cbn.
  - destruct (String.eqb_spec name other); [congruence | reflexivity].
  - destruct (String.eqb_spec k name) as [->|Hk]; cbn.
    + destruct (String.eqb_spec name other); [congruence | reflexivity].
    + destruct (String.eqb k other); [reflexivity | exact IH].
Qed.

Lemma ls_get_remove (ls : LocalStorage.t) (name : string) :
  LocalStorage.getItem (LocalStorage.removeItem ls name) name = None.
Proof.
  unfold LocalStorage.removeItem. induction ls as [|[k v] rest IH]; cbn; [reflexivity|].
  destruct (String.eqb k name) eqn:E; cbn; [exact IH | now rewrite E].
Qed.

Lemma ls_get_remove_other (ls : LocalStorage.t) (name other : string) :
  other <> name ->
  LocalStorage.getItem (LocalStorage.removeItem ls name) other
  = LocalStorage.getItem ls other.
Proof.
  intros Hne. unfold LocalStorage.removeItem.
  induction ls as [|[k v] rest IH]; cbn; [reflexivity|].
  destruct (String.eqb_spec k name) as [->|Hk]; cbn.
  - destruct (String.eqb_spec name other); [congruence | exact IH].
  - destruct (String.eqb k other); [reflexivity | exact IH].
Qed.

Lemma prefix_inj (key key' : string) : "m3-" ++ key = "m3-" ++ key' -> key = key'.
Proof. cbn. congruence. Qed.

(** What the loop of [clear] leaves of an entry when it ends without a
    throw. *)
Lemma clearKeys_done (removes : LocalStorage.t -> string -> bool) (keys : list string)
      (ls : LocalStorage.t) (name : string) :
  fst (M3StorageUtils.clearKeys removes keys ls) = true ->
  LocalStorage.getItem (snd (M3StorageUtils.clearKeys removes keys ls)) name
  = if M3StorageUtils.startsWithM3 name && existsb (String.eqb name) keys
    then None else LocalStorage.getItem ls name.
Proof.
  revert ls. induction keys as [|k keys IH]; intros ls;
    cbn [M3StorageUtils.clearKeys existsb fst snd].
  - intros _. now rewrite andb_false_r.
  - destruct (M3StorageUtils.startsWithM3 k) eqn:Ek.
    + destruct (removes ls k); [|discriminate].
      intros H. rewrite (IH _ H).
      destruct (String.eqb_spec name k) as [->|Hne]; cbn [orb].
      * rewrite Ek. cbn [andb].
        destruct (existsb _ keys); [reflexivity | apply ls_get_remove].
      * now rewrite ls_get_remove_other by exact Hne.
    + intros H. rewrite (IH _ H).
      destruct (String.eqb_spec name k) as [->|Hne]; cbn [orb]; [|reflexivity].
      rewrite Ek. reflexivity.
Qed.

(** The loop touches no entry whose name does not start with [m3-],
    however it ends. *)
Lemma clearKeys_other (removes : LocalStorage.t -> string -> bool) (keys : list string)
      (ls : LocalStorage.t) (name : string) :
  M3StorageUtils.startsWithM3 name = false ->
  LocalStorage.getItem (snd (M3StorageUtils.clearKeys removes keys ls)) name
  = LocalStorage.getItem ls name.
Proof.
  intros Hn. revert ls. induction keys as [|k keys IH]; intros ls;
    cbn [M3StorageUtils.clearKeys snd]; [reflexivity|].
  destruct (M3StorageUtils.startsWithM3 k) eqn:Ek; [|apply IH].
  destruct (removes ls k); [|reflexivity].
  rewrite IH. apply ls_get_remove_other. intros ->. congruence.
Qed.

Lemma clearKeys_completes (removes : LocalStorage.t -> string -> bool) (keys : list string)
      (ls : LocalStorage.t) :
  (forall storage key, removes storage key = true) ->
  fst (M3StorageUtils.clearKeys removes keys ls) = true.
Proof.
  intros Hr. revert ls. induction keys as [|k keys IH]; intros ls;
    cbn [M3StorageUtils.clearKeys fst]; [reflexivity|].
  destruct (M3StorageUtils.startsWithM3 k); [|apply IH].
  rewrite Hr. apply IH.
Qed.

Lemma getItem_keys (ls : LocalStorage.t) (name : string) :
  existsb (String.eqb name) (LocalStorage.keys ls) = false ->
  LocalStorage.getItem ls name = None.
Proof.
  unfold LocalStorage.keys. induction ls as [|[k v] rest IH]; cbn; [reflexivity|].
  rewrite (String.eqb_sym name k). destruct (String.eqb k name); [discriminate | exact IH].
Qed.

End StorageFacts.

(** X26: a value stored by [setItem], when the item can be serialised
    to a text that is not empty and parses back and the browser takes
    the write, is read back by [getItem] for as long as the item has not
    expired; at the first read after its time to live the item is
    removed, and every later read returns [null]. *)
Theorem getItem_setItem {V : Type} (stringify : M3StorageUtils.Item V -> option string)
        (parse : string -> option (M3StorageUtils.Item V))
        (accepts : LocalStorage.t -> string -> string -> bool)
        (ls : LocalStorage.t) (t0 t1 : Z) (key : string) (v : V) (ttl : option Z)
        (text : string) :
  let data := M3StorageUtils.mkItem v t0 ttl in
  stringify data = Some text ->
  text <> "" ->
  parse text = Some data ->
  accepts ls ("m3-" ++ key) text = true ->
  let stored := M3StorageUtils.setItem V stringify accepts ls t0 key v ttl in
  fst stored = true
  /\ (M3StorageUtils.expired V t1 data = false ->
      M3StorageUtils.getItem V parse (snd stored) t1 key = (Some v, snd stored))
  /\ (M3StorageUtils.expired V t1 data = true ->
      exists ls2,
        M3StorageUtils.getItem V parse (snd stored) t1 key = (None, ls2)
        /\ forall t2, M3StorageUtils.getItem V parse ls2 t2 key = (None, ls2)).
Proof.
  intros data Hs Hne Hparse Hacc. unfold M3StorageUtils.setItem. cbv zeta.
  fold data. rewrite Hs, Hacc. cbn [fst snd]. split; [reflexivity|].
  unfold M3StorageUtils.getItem. rewrite ls_get_set.
  destruct text as [|c s]; [contradiction|]. rewrite Hparse.
  split; intros He; rewrite He; [reflexivity|].
  eexists. split; [reflexivity|]. intros t2. now rewrite ls_get_remove.
Qed.

Lemma getItem_setItem_witness :
  let stored :=
    M3StorageUtils.setItem Z sampleStringify (fun _ _ _ => true) [] 1000 "theme" 42
      (Some 500) in
  sampleStringify (M3StorageUtils.mkItem 42 1000 (Some 500)) = Some "42,1000,500"
  /\ sampleParse "42,1000,500" = Some (M3StorageUtils.mkItem 42 1000 (Some 500))
  /\ fst stored = true
  /\ M3StorageUtils.getItem Z sampleParse (snd stored) 1500 "theme" = (Some 42, snd stored)
  /\ exists ls2, M3StorageUtils.getItem Z sampleParse (snd stored) 1501 "theme" = (None, ls2).
Proof.
  cbv zeta. split; [reflexivity|]. split; [reflexivity|].
  pose proof (fun t1 => getItem_setItem sampleStringify sampleParse (fun _ _ _ => true)
                          [] 1000 t1 "theme" 42 (Some 500) "42,1000,500"
                          eq_refl ltac:(discriminate) eq_refl eq_refl) as H.
  cbv zeta in H.
  split; [exact (proj1 (H 0))|].
  split; [exact (proj1 (proj2 (H 1500)) eq_refl)|].
  destruct (proj2 (proj2 (H 1501)) eq_refl) as (ls2 & H2 & _).
  exists ls2. exact H2.
Defined.

(** X27: [setItem], [getItem] and [removeItem] on a key touch no entry
    of [localStorage] but the one named [m3-] followed by the key. *)
Theorem storage_other_names {V : Type} (stringify : M3StorageUtils.Item V -> option string)
        (parse : string -> option (M3StorageUtils.Item V))
        (accepts : LocalStorage.t -> string -> string -> bool)
        (ls : LocalStorage.t) (now : Z) (key : string) (v : V) (ttl : option Z)
        (name : string) :
  name <> "m3-" ++ key ->
  LocalStorage.getItem (snd (M3StorageUtils.setItem V stringify accepts ls now key v ttl)) name
  = LocalStorage.getItem ls name
  /\ LocalStorage.getItem (snd (M3StorageUtils.getItem V parse ls now key)) name
     = LocalStorage.getItem ls name
  /\ LocalStorage.getItem (snd (M3StorageUtils.removeItem ls key)) name
     = LocalStorage.getItem ls name.
Proof.
  intros Hne. split; [|split].
  - unfold M3StorageUtils.setItem. cbv zeta.
    destruct (stringify _) as [text|]; [|reflexivity].
    destruct (accepts _ _ _); cbn [snd]; [now apply ls_get_set_other | reflexivity].
  - unfold M3StorageUtils.getItem.
    destruct (LocalStorage.getItem ls ("m3-" ++ key)) as [[|c s]|]; try reflexivity.
    destruct (parse _) as [data|]; [|reflexivity].
    destruct (M3StorageUtils.expired V now data); cbn [snd];
      [now apply ls_get_remove_other | reflexivity].
  - cbn [M3StorageUtils.removeItem snd]. now apply ls_get_remove_other.
Qed.

Lemma storage_other_names_witness :
  "theme" <> "m3-" ++ "theme"
  /\ LocalStorage.getItem
       (snd (M3StorageUtils.setItem Z sampleStringify (fun _ _ _ => true)
               [("theme", "dark")] 1000 "theme" 42 None)) "theme"
     = Some "dark".
Proof.
  split; [discriminate|].
  exact (proj1 (storage_other_names sampleStringify sampleParse (fun _ _ _ => true)
                  [("theme", "dark")] 1000 "theme" 42 None "theme" ltac:(discriminate))).
Defined.

(** X28: [clear] returns [true] exactly when reading the keys and every
    removal it attempts go through, and [false] with the storage
    untouched when the keys cannot be read.  When it returns [true]
    no entry whose name starts with [m3-] is left, so that [getItem]
    returns [null] for every key.  However it ends, it leaves every
    entry whose name does not start with [m3-] as it was. *)
Theorem storage_clear {V : Type} (parse : string -> option (M3StorageUtils.Item V))
        (lists : LocalStorage.t -> bool) (removes : LocalStorage.t -> string -> bool)
        (ls : LocalStorage.t) (now : Z) (key name : string) :
  let cleared := M3StorageUtils.clear lists removes ls in
  (fst cleared = true ->
   lists ls = true
   /\ M3StorageUtils.getItem V parse (snd cleared) now key = (None, snd cleared)
   /\ LocalStorage.getItem (snd cleared) name
      = if M3StorageUtils.startsWithM3 name then None else LocalStorage.getItem ls name)
  /\ (M3StorageUtils.startsWithM3 name = false ->
      LocalStorage.getItem (snd cleared) name = LocalStorage.getItem ls name)
  /\ (lists ls = false -> cleared = (false, ls))
  /\ (lists ls = true -> (forall storage k, removes storage k = true) ->
      fst cleared = true).
Proof.
  unfold M3StorageUtils.clear. cbv zeta.
  destruct (lists ls) eqn:Hl.
  - assert (Hm3 : fst (M3StorageUtils.clearKeys removes (LocalStorage.keys ls) ls) = true ->
                  forall n, M3StorageUtils.startsWithM3 n = true ->
                    LocalStorage.getItem
                      (snd (M3StorageUtils.clearKeys removes (LocalStorage.keys ls) ls)) n
                    = None).
    { intros Hd n Hn. rewrite (clearKeys_done _ _ _ _ Hd), Hn. cbn [andb].
      destruct (existsb _ _) eqn:E; [reflexivity | now apply getItem_keys]. }
    split; [|split; [|split]].
    + intros Hd. split; [reflexivity|]. split.
      * unfold M3StorageUtils.getItem. now rewrite (Hm3 Hd ("m3-" ++ key) eq_refl).
      * destruct (M3StorageUtils.startsWithM3 name) eqn:Hn; [now apply Hm3|].
        now apply clearKeys_other.
    + intros Hn. now apply clearKeys_other.
    + discriminate.
    + intros _ Hr. now apply clearKeys_completes.
  - cbn [fst snd]. split; [discriminate|]. split; [reflexivity|].
    split; [reflexivity | discriminate].
Qed.

(** A removal that throws in the middle of the loop: [clear] returns
    [false], and the entries removed before it are gone. *)
Lemma storage_clear_examples :
  let ls := [("m3-a", "1"); ("b", "2"); ("m3-c", "3"); ("m3-d", "4")] in
  M3StorageUtils.clear (fun _ => true) (fun _ _ => true) ls = (true, [("b", "2")])
  /\ M3StorageUtils.clear (fun _ => true) (fun _ key => negb (String.eqb key "m3-c")) ls
     = (false, [("b", "2"); ("m3-c", "3"); ("m3-d", "4")])
  /\ M3StorageUtils.clear (fun _ => false) (fun _ _ => true) ls = (false, ls).
Proof.
  repeat split; reflexivity.
Qed.

